(** * goodreads_analytics: a shallow embedding of [GoodreadsAnalytics]

    The development follows
    [goodreads-analytics/src/goodreads_analytics/goodreads_analytics.py].

    Conventions.
    - A Python [str] is a [string] whose characters are the code points
      U+0000..U+00FF; on that range [str.strip], [str.lower] and the
      regular expression class [\d] are the functions written out below.
    - A Python [float] is a rational number ([Q], compared with [==]); NaN
      is [None].  Rounding and infinities are not represented: a statement
      about such a value holds in exact arithmetic.  Where a statement is
      about the double that comes back, the method is given a second
      time in binary64 ([F64], the primitive floats of the kernel), and
      the statement is about that one.
    - A [DataFrame] is a Python object: it lives in a heap, and the
      operations of pandas that build a new frame allocate a new object. *)

From Stdlib Require Import QArith Qminmax Ascii String List Lia Lqa Sorting.Sorted Permutation.
From Stdlib Require PrimFloat.
From Equations Require Import Equations.
From stdpp Require Import base list strings gmap sorting.

Open Scope string_scope.
Open Scope list_scope.
Open Scope nat_scope.

(** * Part I: the program *)

(** ** Python strings *)

Module Str.

(** Code point of a character. *)
Definition ord (c : ascii) : nat := nat_of_ascii c.

(** [c.isspace()], the characters removed by [str.strip()]:
    U+0009..U+000D, U+001C..U+0020, U+0085 and U+00A0. *)
Definition isspace (c : ascii) : bool :=
  let n := ord c in
  (((9 <=? n) && (n <=? 13)) || ((28 <=? n) && (n <=? 32))
   || (n =? 133) || (n =? 160))%nat.

(** The class [\d] of [re]: the decimal digits. *)
Definition isdigit (c : ascii) : bool :=
  let n := ord c in ((48 <=? n) && (n <=? 57))%nat.

(** [c.lower()]: A..Z and the upper-case letters U+00C0..U+00DE (U+00D7,
    the multiplication sign, is not a letter) move up by 32. *)
Definition lower_char (c : ascii) : ascii :=
  let n := ord c in
  if (((65 <=? n) && (n <=? 90))
      || ((192 <=? n) && (n <=? 222) && negb (n =? 215)))%nat
  then ascii_of_nat (n + 32) else c.

(** [s.lower()] *)
Fixpoint lower (s : string) : string :=
  match s with
  | EmptyString => EmptyString
  | String c t => String (lower_char c) (lower t)
  end.

Fixpoint all_space (s : string) : bool :=
  match s with
  | EmptyString => true
  | String c t => isspace c && all_space t
  end.

Fixpoint all_digits (s : string) : bool :=
  match s with
  | EmptyString => true
  | String c t => isdigit c && all_digits t
  end.

(** [s.lstrip()] *)
Fixpoint lstrip (s : string) : string :=
  match s with
  | EmptyString => EmptyString
  | String c t => if isspace c then lstrip t else s
  end.

(** [s.rstrip()] *)
Fixpoint rstrip (s : string) : string :=
  match s with
  | EmptyString => EmptyString
  | String c t =>
      match rstrip t with
      | EmptyString => if isspace c then EmptyString else String c EmptyString
      | t' => String c t'
      end
  end.

(** [s.strip()]: the left end is trimmed, then the right end. *)
Definition strip (s : string) : string := rstrip (lstrip s).

(** [s.split(sep)] for a separator of one character: the pieces between
    the occurrences of [sep]; there is always at least one piece. *)
Fixpoint split (sep : ascii) (s : string) : list string :=
  match s with
  | EmptyString => [EmptyString]
  | String c t =>
      if Ascii.eqb c sep then EmptyString :: split sep t
      else match split sep t with
           | h :: r => String c h :: r
           | [] => [String c EmptyString]
           end
  end.

(** [sep.join(l)] *)
Fixpoint join (sep : string) (l : list string) : string :=
  match l with
  | [] => EmptyString
  | [x] => x
  | x :: r => x +:+ sep +:+ join sep r
  end.

(** [c in s] *)
Fixpoint contains_char (c : ascii) (s : string) : bool :=
  match s with
  | EmptyString => false
  | String d t => Ascii.eqb d c || contains_char c t
  end.

(** [list(s)]: iterating a string yields its characters as strings. *)
Fixpoint chars (s : string) : list string :=
  match s with
  | EmptyString => []
  | String c t => String c EmptyString :: chars t
  end.

(** *** The regular expression [' \(#\d+\)'] *)

(** The rest of [s] after its longest prefix of digits. *)
Fixpoint skip_digits (s : string) : string :=
  match s with
  | EmptyString => EmptyString
  | String c t => if isdigit c then skip_digits t else s
  end.

(** [re.match(r' \(#\d+\)', s)]: the rest of [s] after the match.  [\d+]
    is greedy; giving a digit back never helps, since what follows it
    would again be a digit and not the closing parenthesis. *)
Definition match_marker (s : string) : option string :=
  match s with
  | String " " (String "(" (String "#" (String d r))) =>
      if isdigit d then
        match skip_digits r with
        | String ")" rest => Some rest
        | _ => None
        end
      else None
  | _ => None
  end.

Lemma skip_digits_length s : String.length (skip_digits s) <= String.length s.
Proof.
  induction s as [|c t IH]; simpl; [lia|].
  destruct (isdigit c); simpl; lia.
Qed.

Lemma match_marker_length s rest :
  match_marker s = Some rest -> String.length rest < String.length s.
Proof.
  unfold match_marker.
  repeat (match goal with
          | |- context [match ?x with _ => _ end] => destruct x eqn:?
          end; try discriminate).
  intros [= <-]. subst.
  match goal with
  | H : skip_digits ?r = _ |- _ =>
      pose proof (skip_digits_length r) as Hl; rewrite H in Hl
  end.
  simpl in *. lia.
Qed.

Definition inspect {A} (a : A) : {b : A | a = b} := exist _ a eq_refl.

(** [re.sub(r' \(#\d+\)', '', s)]: scanning from the left, every match is
    deleted and the scan resumes behind it; a character at which no
    match starts is kept. *)
Equations? sub_marker (s : string) : string by wf (String.length s) lt :=
  sub_marker s with inspect (match_marker s) := {
    | exist _ (Some rest) _ := sub_marker rest;
    | exist _ None _ with s := {
        | EmptyString := EmptyString;
        | String c t := String c (sub_marker t) } }.
Proof.
  - by apply match_marker_length.
  - simpl. lia.
Qed.

(** [re.search(r' \(#\d+\)', s) is not None] *)
Fixpoint has_marker (s : string) : bool :=
  match match_marker s with
  | Some _ => true
  | None =>
      match s with
      | EmptyString => false
      | String _ t => has_marker t
      end
  end.

(** The last character of [s] is white space. *)
Fixpoint ends_space (s : string) : bool :=
  match s with
  | EmptyString => false
  | String c EmptyString => isspace c
  | String _ t => ends_space t
  end.

(** The first character of [s] is white space. *)
Definition starts_space (s : string) : bool :=
  match s with
  | EmptyString => false
  | String c _ => isspace c
  end.

Definition starts_digit (s : string) : bool :=
  match s with
  | EmptyString => false
  | String c _ => isdigit c
  end.

(** The text [" (#ds)"]. *)
Definition marker (ds : string) : string := " (#" +:+ ds +:+ ")".

End Str.

(** ** Values, exceptions and data frames *)

(** The value of one field of one row: a missing value, a [str], a number
    or a list of [str] (the derived shelf lists). *)
Inductive cell : Type :=
| NaN
| Str (s : string)
| Num (q : Q)
| Lst (l : list string).

Inductive exn : Type :=
| KeyError (key : string)
| TypeError
| AttributeError
| ValueError
| Unbound.  (* a reference to no object; no operation below creates one *)

Inductive outcome (A : Type) : Type :=
| Ok (a : A)
| Raise (e : exn).
Arguments Ok {A} a.
Arguments Raise {A} e.

#[export] Instance outcome_ret : MRet outcome := fun A a => Ok a.
#[export] Instance outcome_bind : MBind outcome := fun A B k o =>
  match o with
  | Ok a => k a
  | Raise e => Raise e
  end.

(** A row keeps its index label and its cell for each column name. *)
Record row : Type := Row { label : nat; cells : gmap string cell }.

Record DataFrame : Type := Frame { columns : list string; rows : list row }.

Definition cell_of (name : string) (r : row) : cell :=
  default NaN (cells r !! name).

Definition set_cell (name : string) (r : row) (c : cell) : row :=
  Row (label r) (<[name := c]> (cells r)).

(** ** The heap of frames and the monad of the methods *)

Abbreviation loc := nat (only parsing).
Abbreviation heap := (list DataFrame) (only parsing).

Definition M (A : Type) : Type := heap -> outcome A * heap.

#[export] Instance M_ret : MRet M := fun A a h => (Ok a, h).
#[export] Instance M_bind : MBind M := fun A B k m h =>
  match m h with
  | (Ok a, h') => k a h'
  | (Raise e, h') => (Raise e, h')
  end.

Definition raise {A} (e : exn) : M A := fun h => (Raise e, h).
Definition lift {A} (o : outcome A) : M A := fun h => (o, h).

Definition read (l : loc) : M DataFrame := fun h =>
  match h !! l with
  | Some d => (Ok d, h)
  | None => (Raise Unbound, h)
  end.

Definition alloc (d : DataFrame) : M loc := fun h => (Ok (length h), h ++ [d]).

Definition write (l : loc) (d : DataFrame) : M unit := fun h =>
  (Ok tt, <[l := d]> h).

(** ** pandas *)

(** The rows at which the mask is [True]. *)
Fixpoint select {A} (mask : list bool) (l : list A) : list A :=
  match mask, l with
  | b :: m, x :: t => if b then x :: select m t else select m t
  | _, _ => []
  end.

(** [len(df)] *)
Definition pd_len (l : loc) : M nat :=
  d ← read l; mret (length (rows d)).

(** [name in df.columns] *)
Definition has_column (l : loc) (name : string) : M bool :=
  d ← read l; mret (bool_decide (name ∈ columns d)).

(** [df[name]], a Series: the cells of the column in row order. *)
Definition getitem (l : loc) (name : string) : M (list cell) :=
  d ← read l;
  if bool_decide (name ∈ columns d) then mret (map (cell_of name) (rows d))
  else raise (KeyError name).

(** [df[mask]] for a Series [mask] that [Series.apply] returned.  A mask
    with elements has dtype bool and selects rows into a new frame.  An
    empty Series comes back from [apply] with the dtype of its input,
    which is not bool: [DataFrame.__getitem__] then reads it as a list of
    column names, an empty one, and the new frame has the index of [df]
    and no columns. *)
Definition getitem_mask (l : loc) (mask : list bool) : M loc :=
  d ← read l;
  match mask with
  | [] => alloc (Frame [] (map (fun r => Row (label r) ∅) (rows d)))
  | _ => alloc (Frame (columns d) (select mask (rows d)))
  end.

(** [df[name] = s]: the frame [df] itself is changed. *)
Definition setitem (l : loc) (name : string) (s : list cell) : M unit :=
  d ← read l;
  if length s =? length (rows d) then
    write l (Frame (if bool_decide (name ∈ columns d) then columns d
                    else columns d ++ [name])
                   (zip_with (set_cell name) (rows d) s))
  else raise ValueError.

(** [df.copy()] *)
Definition copy (l : loc) : M loc := d ← read l; alloc d.

(** [s.fillna(v)] *)
Definition fill (v c : cell) : cell :=
  match c with
  | NaN => v
  | _ => c
  end.

Definition fillna (v : cell) (s : list cell) : list cell := map (fill v) s.

(** [s.apply(f)]: [f] is called on the elements in order, and the first
    exception ends the call. *)
Fixpoint apply {A} (f : cell -> outcome A) (s : list cell) : outcome (list A) :=
  match s with
  | [] => Ok []
  | c :: t => a ← f c; r ← apply f t; Ok (a :: r)
  end.

(** ** The lambdas of the class *)

(** [bool(x)] *)
Definition truthy (x : cell) : bool :=
  match x with
  | NaN => true
  | Str s => negb (String.eqb s "")
  | Num q => negb (Qeq_bool q 0)
  | Lst l => negb (bool_decide (l = []))
  end.

(** [lambda x: [shelf.strip() for shelf in x.split(',')] if x else []] *)
Definition split_shelves (x : cell) : outcome cell :=
  if truthy x then
    match x with
    | Str s => Ok (Lst (map Str.strip (Str.split "," s)))
    | _ => Raise AttributeError
    end
  else Ok (Lst []).

(** [re.sub(r' \(#\d+\)', '', shelf.strip())] *)
Definition strip_marker (shelf : string) : string :=
  Str.sub_marker (Str.strip shelf).

(** [lambda x: [re.sub(r' \(#\d+\)', '', shelf.strip())
                for shelf in x.split(',')] if x else []] *)
Definition split_positions (x : cell) : outcome cell :=
  if truthy x then
    match x with
    | Str s => Ok (Lst (map strip_marker (Str.split "," s)))
    | _ => Raise AttributeError
    end
  else Ok (Lst []).

(** [for s in x] *)
Definition iter (x : cell) : outcome (list string) :=
  match x with
  | Lst l => Ok l
  | Str s => Ok (Str.chars s)
  | NaN | Num _ => Raise TypeError
  end.

(** [a in l] *)
Definition py_in (a : string) (l : list string) : bool :=
  existsb (String.eqb a) l.

(** [lambda x: any(shelf.lower() == s.lower() for s in x)] *)
Definition any_shelf (shelf : string) (x : cell) : outcome bool :=
  l ← iter x;
  Ok (existsb (fun s => String.eqb (Str.lower shelf) (Str.lower s)) l).

(** [lambda x: name in [s.lower() for s in x]] *)
Definition in_lowered (name : string) (x : cell) : outcome bool :=
  l ← iter x; Ok (py_in name (map Str.lower l)).

(** [lambda x: shelf.lower() in [s.lower() for s in x]] *)
Definition in_shelf (shelf : string) (x : cell) : outcome bool :=
  in_lowered (Str.lower shelf) x.

(** ** The class *)

Record GoodreadsAnalytics : Type := { df : loc }.

(** [_clean_bookshelves] *)
Definition _clean_bookshelves (self : GoodreadsAnalytics) : M unit :=
  b ← has_column (df self) "Bookshelves";
  (if b : bool then
     s ← getitem (df self) "Bookshelves";
     v ← lift (apply split_shelves (fillna (Str "") s));
     setitem (df self) "bookshelves_list" v
   else mret tt);;
  b' ← has_column (df self) "Bookshelves with positions";
  if b' : bool then
    s ← getitem (df self) "Bookshelves with positions";
    v ← lift (apply split_positions (fillna (Str "") s));
    setitem (df self) "bookshelves_positions_list" v
  else mret tt.

(** What [__init__] is given. *)
Inductive data_source : Type :=
| Path (p : string)
| Table (l : loc)
| Other.

(** [shelf_overlap_percentage], in exact arithmetic. *)
Definition shelf_overlap_percentage
    (self : GoodreadsAnalytics) (shelf1 shelf2 : string) : M Q :=
  col ← getitem (df self) "bookshelves_list";
  mask ← lift (apply (any_shelf shelf1) col);
  shelf1_books ← getitem_mask (df self) mask;
  n1 ← pd_len shelf1_books;
  if n1 =? 0 then mret 0%Q
  else
    col2 ← getitem shelf1_books "bookshelves_list";
    mask2 ← lift (apply (any_shelf shelf2) col2);
    shelf1_and_shelf2_books ← getitem_mask shelf1_books mask2;
    n12 ← pd_len shelf1_and_shelf2_books;
    mret ((inject_Z (Z.of_nat n12) / inject_Z (Z.of_nat n1)) * 100)%Q.

(** *** Doubles *)

(** The arithmetic of Python's [float], for the lines that compute with
    lengths: IEEE 754 binary64, every operation rounded to nearest. *)
Module F64.

Import PrimFloat.

Definition t : Set := PrimFloat.float.

(** [float(n)] for an [int] that a double holds exactly, as every length
    below 2^53 is. *)
Fixpoint of_nat (n : nat) : t :=
  match n with
  | O => 0%float
  | S k => (of_nat k + 1)%float
  end.

(** [a / b] for two such [int]s: the quotient, rounded once. *)
Definition true_divide (a b : nat) : t := (of_nat a / of_nat b)%float.

Definition mul (x y : t) : t := (x * y)%float.
Definition div (x y : t) : t := (x / y)%float.

(** [x == y] *)
Definition eqb (x y : t) : bool := (x =? y)%float.

(** The least double above [x]. *)
Definition next_up (x : t) : t := PrimFloat.next_up x.

End F64.

(** [shelf_overlap_percentage], with the double that it returns: line 63
    divides the two lengths and multiplies the rounded quotient by 100. *)
Definition shelf_overlap_percentage_f64
    (self : GoodreadsAnalytics) (shelf1 shelf2 : string) : M F64.t :=
  col ← getitem (df self) "bookshelves_list";
  mask ← lift (apply (any_shelf shelf1) col);
  shelf1_books ← getitem_mask (df self) mask;
  n1 ← pd_len shelf1_books;
  if n1 =? 0 then mret (F64.of_nat 0)
  else
    col2 ← getitem shelf1_books "bookshelves_list";
    mask2 ← lift (apply (any_shelf shelf2) col2);
    shelf1_and_shelf2_books ← getitem_mask shelf1_books mask2;
    n12 ← pd_len shelf1_and_shelf2_books;
    mret (F64.mul (F64.true_divide n12 n1) (F64.of_nat 100)).

(** [get_shelf_books] *)
Definition get_shelf_books (self : GoodreadsAnalytics) (shelf : string) : M loc :=
  col ← getitem (df self) "bookshelves_list";
  mask ← lift (apply (in_shelf shelf) col);
  getitem_mask (df self) mask.

(** ** Numeric Series *)

(** A float is a rational number or NaN ([None]). *)
Abbreviation float := (option Q) (only parsing).

Definition float_cell (x : float) : cell :=
  match x with
  | Some q => Num q
  | None => NaN
  end.

(** The float held by a cell of a float64 column. *)
Definition cell_float (c : cell) : float :=
  match c with
  | Num q => Some q
  | _ => None
  end.

(** [isna(x)] *)
Definition isna (x : float) : bool :=
  match x with
  | None => true
  | Some _ => false
  end.

(** [s.dropna()] *)
Definition dropna (s : list float) : list Q := omap id s.

(** [s[s > 0]]; NaN is not greater than 0. *)
Definition positive (s : list float) : list Q :=
  List.filter (fun q => negb (Qle_bool q 0)) (dropna s).

(** [np.nonzero(mask)[0]], counting positions from [i]. *)
Fixpoint nonzero (mask : list bool) (i : nat) : list nat :=
  match mask with
  | [] => []
  | b :: m => if b then i :: nonzero m (S i) else nonzero m (S i)
  end.

(** [s.sum()] *)
Definition sum (s : list Q) : Q := fold_right Qplus 0%Q s.

(** [s.mean()] is NaN for the empty Series. *)
Definition mean (s : list Q) : float :=
  match s with
  | [] => None
  | _ => Some (sum s / inject_Z (Z.of_nat (length s)))%Q
  end.

(** [s.min()] and [s.max()] *)
Definition min (s : list Q) : float :=
  match s with
  | [] => None
  | x :: t => Some (fold_left Qmin t x)
  end.

Definition max (s : list Q) : float :=
  match s with
  | [] => None
  | x :: t => Some (fold_left Qmax t x)
  end.

(** Insertion into a list ordered by [le], behind the elements that are
    not above [x]. *)
Fixpoint insert_sorted {A} (le : A -> A -> bool) (x : A) (l : list A) : list A :=
  match l with
  | [] => [x]
  | y :: t => if le y x then y :: insert_sorted le x t else x :: y :: t
  end.

Definition isort {A} (le : A -> A -> bool) (l : list A) : list A :=
  fold_left (fun acc x => insert_sorted le x acc) l [].

(** [s.median()]: the middle value of the ordered values, or the mean of
    the two middle values. *)
Definition median (s : list Q) : float :=
  let o := isort Qle_bool s in
  let n := length s in
  match s with
  | [] => None
  | _ =>
      if Nat.even n
      then Some ((nth (n / 2 - 1) o 0 + nth (n / 2) o 0) / 2)%Q
      else Some (nth (n / 2) o 0%Q)
  end.

(** [s.value_counts()]: each value with the number of its occurrences.
    pandas orders the entries by count; the [sort_index] that follows in
    the class orders them by key, and the keys are distinct. *)
Fixpoint count_value (q : Q) (d : list (Q * nat)) : list (Q * nat) :=
  match d with
  | [] => [(q, 1)]
  | (k, c) :: t =>
      if Qeq_bool k q then (k, S c) :: t else (k, c) :: count_value q t
  end.

Definition value_counts (s : list Q) : list (Q * nat) :=
  fold_left (fun d q => count_value q d) s [].

(** [s.sort_index()], and [to_dict()] keeps that order. *)
Definition sort_index (d : list (Q * nat)) : list (Q * nat) :=
  isort (fun a b => Qle_bool a.1 b.1) d.

(** The dictionaries that the methods return. *)
Module Pages.
Record stats : Type := Stats {
  min_pages : float;
  max_pages : float;
  median_pages : float;
  total_books : nat;
  total_pages : Q }.
End Pages.

Record stats : Type := Stats {
  total_books : nat;
  books_read : nat;
  books_to_read : nat;
  avg_rating : float;
  rating_distribution : list (Q * nat);
  percent_read : Q }.

Section Library.

(** What the class takes from pandas and numpy without fixing it:
    - how [pd.to_numeric] reads a [str];
    - [pd.read_csv];
    - [ndarray.argsort(kind='quicksort')], the sort that [sort_values]
      runs by default: the positions of the values in ascending order of
      the values. *)
Variable str_to_float : string -> float.
Variable read_csv : string -> outcome DataFrame.
Variable argsort : list Q -> list nat.

(** [pd.to_numeric(s, errors='coerce')]: a number is kept, a [str] is
    read as a number or coerced to NaN, anything else is NaN. *)
Definition numeric (c : cell) : float :=
  match c with
  | Num q => Some q
  | Str x => str_to_float x
  | NaN | Lst _ => None
  end.

Definition to_numeric (s : list cell) : list float := map numeric s.

(** [__init__] *)
Definition __init__ (src : data_source) : M GoodreadsAnalytics :=
  l ← match src with
      | Path p => d ← lift (read_csv p); alloc d
      | Table t => copy t
      | Other => raise TypeError
      end;
  let self := {| df := l |} in
  _clean_bookshelves self;;
  mret self.

(** [average_pages_on_shelf] *)
Definition average_pages_on_shelf
    (self : GoodreadsAnalytics) (shelf : string) (only_read : bool)
  : M (float * Pages.stats) :=
  col ← getitem (df self) "bookshelves_list";
  mask ← lift (apply (in_shelf shelf) col);
  shelf_books ← getitem_mask (df self) mask;
  shelf_books ←
    (if only_read then
       col' ← getitem shelf_books "bookshelves_list";
       mask' ← lift (apply (in_lowered "read") col');
       getitem_mask shelf_books mask'
     else mret shelf_books);
  n ← pd_len shelf_books;
  if n =? 0 then
    mret (Some 0%Q, Pages.Stats (Some 0%Q) (Some 0%Q) (Some 0%Q) 0 0%Q)
  else
    s ← getitem shelf_books "Number of Pages";
    let pages := dropna (to_numeric s) in
    if length pages =? 0 then
      mret (Some 0%Q, Pages.Stats (Some 0%Q) (Some 0%Q) (Some 0%Q) n 0%Q)
    else
      mret (mean pages,
            Pages.Stats (min pages) (max pages) (median pages) n (sum pages)).

(** [nargsort(keys, kind='quicksort', ascending=False, na_position='last')],
    as [sort_values] calls it: the values that are not NaN are reversed,
    sorted in ascending order and reversed again; the positions of the
    NaN follow in their own order. *)
Definition nargsort (keys : list float) : list nat :=
  let mask := map isna keys in
  let non_nans := rev (dropna keys) in
  let non_nan_idx := rev (nonzero (map negb mask) 0) in
  let nan_idx := nonzero mask 0 in
  let indexer := map (fun j => nth j non_nan_idx 0) (argsort non_nans) in
  rev indexer ++ nan_idx.

(** [df.sort_values(by=name, ascending=False)] *)
Definition sort_values (l : loc) (name : string) : M loc :=
  d ← read l;
  if bool_decide (name ∈ columns d) then
    let keys := map (fun r => cell_float (cell_of name r)) (rows d) in
    alloc (Frame (columns d) (omap (fun i => rows d !! i) (nargsort keys)))
  else raise (KeyError name).

(** [df.head(n)]; a negative [n] leaves out the last [-n] rows. *)
Definition head (l : loc) (n : Z) : M loc :=
  d ← read l;
  alloc (Frame (columns d)
           (if (0 <=? n)%Z then take (Z.to_nat n) (rows d)
            else take (length (rows d) - Z.to_nat (- n)) (rows d))).

(** [df.empty] *)
Definition empty (l : loc) : M bool :=
  d ← read l;
  mret ((length (rows d) =? 0) || (length (columns d) =? 0)).

(** [df[names]] for a list of column names. *)
Definition getitem_columns (l : loc) (names : list string) : M loc :=
  d ← read l;
  match List.find (fun c => negb (bool_decide (c ∈ columns d))) names with
  | Some c => raise (KeyError c)
  | None =>
      alloc (Frame names
               (map (fun r => Row (label r)
                                (filter (fun kv => kv.1 ∈ names) (cells r)))
                    (rows d)))
  end.

(** [pd.DataFrame(columns=names)] *)
Definition new_frame (names : list string) : M loc := alloc (Frame names []).

(** [top_rated_books_on_shelf] *)
Definition top_rated_books_on_shelf
    (self : GoodreadsAnalytics) (shelf : string) (n : Z) : M loc :=
  shelf_books ← get_shelf_books self shelf;
  r ← getitem shelf_books "My Rating";
  setitem shelf_books "My Rating" (map float_cell (to_numeric r));;
  sorted ← sort_values shelf_books "My Rating";
  top_books ← head sorted n;
  e ← empty top_books;
  if negb e then getitem_columns top_books ["Title"; "Author"; "My Rating"]
  else new_frame ["Title"; "Author"; "My Rating"].

(** [reading_stats] *)
Definition reading_stats (self : GoodreadsAnalytics) : M stats :=
  col ← getitem (df self) "bookshelves_list";
  mask ← lift (apply (in_lowered "read") col);
  read_books ← getitem_mask (df self) mask;
  col' ← getitem (df self) "bookshelves_list";
  mask' ← lift (apply (in_lowered "to-read") col');
  to_read_books ← getitem_mask (df self) mask';
  r ← getitem read_books "My Rating";
  let my_ratings := to_numeric r in
  let avg_rating := mean (positive my_ratings) in
  let rating_dist := sort_index (value_counts (positive my_ratings)) in
  total ← pd_len (df self);
  n_read ← pd_len read_books;
  n_to_read ← pd_len to_read_books;
  mret (Stats total n_read n_to_read avg_rating rating_dist
          (if 0 <? total
           then (inject_Z (Z.of_nat n_read) / inject_Z (Z.of_nat total)) * 100
           else 0)%Q).

End Library.

(** * Part II: the vocabulary of the statements *)

(** The derived shelf list of a row. *)
Definition shelves (r : row) : list string :=
  match cell_of "bookshelves_list" r with
  | Lst l => l
  | _ => []
  end.

(** The frame has the derived column, and it holds lists. *)
Definition normalized (d : DataFrame) : Prop :=
  "bookshelves_list" ∈ columns d
  /\ Forall (fun r => exists l, cell_of "bookshelves_list" r = Lst l) (rows d).

(** The row is on the shelf: one of its shelf names equals [shelf] up to
    case. *)
Definition on_shelf (shelf : string) (r : row) : Prop :=
  exists s, s ∈ shelves r /\ Str.lower s = Str.lower shelf.

Definition on_shelfb (shelf : string) (r : row) : bool :=
  py_in (Str.lower shelf) (map Str.lower (shelves r)).

(** The records on a shelf, in Table order. *)
Definition shelf_rows (shelf : string) (d : DataFrame) : list row :=
  List.filter (on_shelfb shelf) (rows d).

(** What [self.df[self.df['bookshelves_list'].apply(f)]] evaluates to when
    [f] computes the predicate [p] of the rows: a new frame. *)
Definition selected (p : row -> bool) (d : DataFrame) : DataFrame :=
  match rows d with
  | [] => Frame [] []
  | _ => Frame (columns d) (List.filter p (rows d))
  end.

(** Every frame of [h] is still there, with the same rows and columns, in
    [h']. *)
Definition frames_kept (h h' : heap) : Prop :=
  forall l d, h !! l = Some d -> h' !! l = Some d.

(** [m] keeps the frames of [h0] whenever it starts from a heap that
    extends [h0], and its result satisfies [post]. *)
Definition keeps {A} (h0 : heap) (m : M A) (post : A -> Prop) : Prop :=
  forall h, h0 `prefix_of` h ->
    h0 `prefix_of` (m h).2 /\ forall a, (m h).1 = Ok a -> post a.

(** A location that [h0] does not have: an object made after [h0]. *)
Definition fresh (h0 : heap) (l : loc) : Prop := length h0 <= l.

(** The raw text of a shelf column in a row, a missing value read as the
    empty text as [fillna('')] does. *)
Definition raw (name : string) (r : row) : string :=
  match cell_of name r with
  | Str s => s
  | _ => ""
  end.

(** The cell is a [str] or missing. *)
Definition textual (name : string) (r : row) : Prop :=
  cell_of name r = NaN \/ exists s, cell_of name r = Str s.

(** The shelf list that line 29 makes of a raw text. *)
Definition normalize (x : string) : list string :=
  if String.eqb x "" then [] else map Str.strip (Str.split "," x).

(** The shelf list that line 35 makes of a raw text. *)
Definition normalize_positions (x : string) : list string :=
  if String.eqb x "" then [] else map strip_marker (Str.split "," x).

(** The frame after [df[name] = s] where [s] holds [f r] at row [r]. *)
Definition with_column (name : string) (f : row -> cell) (d : DataFrame) : DataFrame :=
  Frame (if bool_decide (name ∈ columns d) then columns d else columns d ++ [name])
        (map (fun r => set_cell name r (f r)) (rows d)).

(** The frame after [_clean_bookshelves]. *)
Definition cleaned (d : DataFrame) : DataFrame :=
  let d1 :=
    if bool_decide ("Bookshelves" ∈ columns d)
    then with_column "bookshelves_list"
           (fun r => Lst (normalize (raw "Bookshelves" r))) d
    else d in
  if bool_decide ("Bookshelves with positions" ∈ columns d1)
  then with_column "bookshelves_positions_list"
         (fun r => Lst (normalize_positions (raw "Bookshelves with positions" r))) d1
  else d1.

(** [s] is [t] without the white space around it. *)
Definition trimmed (t s : string) : Prop :=
  exists a b, t = a +:+ s +:+ b
    /\ Str.all_space a = true /\ Str.all_space b = true
    /\ Str.starts_space s = false /\ Str.ends_space s = false.

(** [tokens] are the pieces of [x] between its commas. *)
Definition comma_tokens (x : string) (tokens : list string) : Prop :=
  tokens <> [] /\ Str.join "," tokens = x
  /\ Forall (fun t => Str.contains_char "," t = false) tokens.


Fixpoint last_char (s : string) : option ascii :=
  match s with
  | EmptyString => None
  | String c EmptyString => Some c
  | String _ t => last_char t
  end.

(** [list(enumerate(l, i))] *)
Fixpoint enumerate {A} (i : nat) (l : list A) : list (nat * A) :=
  match l with
  | [] => []
  | x :: t => (i, x) :: enumerate (S i) t
  end.

(** An argsort by insertion: each position goes behind the positions
    whose value [le] puts before its own. *)
Definition argsort_by (le : Q -> Q -> bool) (l : list Q) : list nat :=
  map fst (isort (fun a b : nat * Q => le a.2 b.2) (enumerate 0 l)).

(** A stable argsort: a position goes behind those of equal value. *)
Definition stable_argsort : list Q -> list nat := argsort_by Qle_bool.

(** An argsort that is not stable: a position goes before those of equal
    value. *)
Definition reversing_argsort : list Q -> list nat :=
  argsort_by (fun a b => negb (Qle_bool b a)).











(** What numpy promises of [argsort]: the positions of [vals], each once,
    in an order in which the values do not decrease.  The default kind
    promises no more: the order of equal values is left open. *)
Definition sorts (argsort : list Q -> list nat) (vals : list Q) : Prop :=
  Permutation (argsort vals) (seq 0 (length vals))
  /\ Sorted Qle (map (fun j => nth j vals 0%Q) (argsort vals)).

(** The floats of [s] do not increase, and the NaN come last. *)
Definition descending_nan_last (s : list float) : Prop :=
  exists qs k, s = map Some qs ++ replicate k None /\ StronglySorted (flip Qle) qs.

(** The positions that are not NaN, with their values. *)
Fixpoint non_nan (keys : list float) (i : nat) : list (nat * Q) :=
  match keys with
  | [] => []
  | Some q :: t => (i, q) :: non_nan t (S i)
  | None :: t => non_nan t (S i)
  end.

(** The rating in a row of a frame whose rating column is numeric. *)
Definition rating_of (r : row) : float := cell_float (cell_of "My Rating" r).

(** The row as [df[names]] keeps it. *)
Definition project (names : list string) (r : row) : row :=
  Row (label r) (filter (fun kv => kv.1 ∈ names) (cells r)).

(** The rows that [head(n)] keeps. *)
Definition head_rows {A} (n : Z) (l : list A) : list A :=
  if (0 <=? n)%Z then take (Z.to_nat n) l
  else take (length l - Z.to_nat (- n)) l.

(** [precedes tie (i, x) (j, y)]: the row at position [i], of rating [x],
    may stand before the row at position [j], of rating [y]: a higher
    rating before a lower one, equal ratings as [tie] says, NaN behind
    every rating, and NaN among themselves by position. *)
Definition precedes (tie : nat -> nat -> Prop) (a b : nat * float) : Prop :=
  match a.2, b.2 with
  | Some x, Some y => (y < x)%Q \/ ((x == y)%Q /\ tie a.1 b.1)
  | Some _, None => True
  | None, None => a.1 < b.1
  | None, Some _ => False
  end.

(** No condition on the rows of equal rating. *)
Definition any_order (i j : nat) : Prop := True.

(** The positions [idx] with the keys found there. *)
Definition keyed (keys : list float) (idx : list nat) : list (nat * float) :=
  map (fun i => (i, default None (keys !! i))) idx.

(** Ascending by value, and by position among equal values. *)
Definition lex (a b : nat * Q) : Prop :=
  (a.2 < b.2)%Q \/ ((a.2 == b.2)%Q /\ a.1 < b.1).

Section Vocabulary.

Variable str_to_float : string -> float.
Variable argsort : list Q -> list nat.



(** The rows that [nargsort] has put in order: their positions and
    values, in ascending order of the values. *)
Definition ordered (keys : list float) : list (nat * Q) :=
  map (fun j => nth j (rev (non_nan keys 0)) (0, 0%Q))
      (argsort (rev (dropna keys))).

(** The parsed ratings of the records on the shelf, in Table order. *)
Definition shelf_ratings (shelf : string) (d : DataFrame) : list float :=
  to_numeric str_to_float (map (cell_of "My Rating") (shelf_rows shelf d)).

(** The records on the shelf with the rating column made numeric. *)
Definition rated_rows (shelf : string) (d : DataFrame) : list row :=
  map (fun r => set_cell "My Rating" r
                  (float_cell (numeric str_to_float (cell_of "My Rating" r))))
      (shelf_rows shelf d).

End Vocabulary.

(** ** Example tables *)

Definition mk_row (i : nat) (l : list (string * cell)) : row :=
  Row i (list_to_map l).

Definition no_csv (p : string) : outcome DataFrame := Raise ValueError.

(** The session that [__init__] builds from the frame at location 0. *)
Definition session (d : DataFrame) : GoodreadsAnalytics * heap :=
  match __init__ no_csv (Table 0) [d] with
  | (Ok self, h) => (self, h)
  | (Raise _, h) => ({| df := 0 |}, h)
  end.

Definition table_of (s : GoodreadsAnalytics * heap) : DataFrame :=
  default (Frame [] []) (s.2 !! df s.1).

(** Book A on "nyc, read" and book B on "nyc". *)
Definition nyc : DataFrame :=
  Frame ["Title"; "Bookshelves"]
    [ mk_row 0 [("Title", Str "A"); ("Bookshelves", Str "nyc, read")];
      mk_row 1 [("Title", Str "B"); ("Bookshelves", Str "nyc")] ].

(** Three rows: a shelf text, the empty text and a missing value. *)
Definition three_raw : DataFrame :=
  Frame ["Title"; "Bookshelves"]
    [ mk_row 0 [("Title", Str "A"); ("Bookshelves", Str " to-read ,x")];
      mk_row 1 [("Title", Str "B"); ("Bookshelves", Str "")];
      mk_row 2 [("Title", Str "C"); ("Bookshelves", NaN)] ].

(** A record whose raw shelf text is ["a,"], and one on ["a"]. *)
Definition trailing_comma : DataFrame :=
  Frame ["Title"; "Bookshelves"]
    [ mk_row 0 [("Title", Str "A"); ("Bookshelves", Str "a,")];
      mk_row 1 [("Title", Str "B"); ("Bookshelves", Str "a")] ].

(** One book, and no shelf column at all. *)
Definition untagged : DataFrame :=
  Frame ["Title"; "My Rating"; "Number of Pages"]
    [ mk_row 0 [("Title", Str "A"); ("My Rating", Num 4);
                ("Number of Pages", Num 100)] ].

(** The same book with the column present and empty. *)
Definition empty_tags : DataFrame :=
  Frame ["Title"; "My Rating"; "Number of Pages"; "Bookshelves"]
    [ mk_row 0 [("Title", Str "A"); ("My Rating", Num 4);
                ("Number of Pages", Num 100); ("Bookshelves", Str "")] ].

Definition no_float (s : string) : float := None.

(** A source with every column and no row, as a file of the header line
    alone gives it. *)
Definition header_only : DataFrame :=
  Frame ["Title"; "Author"; "Number of Pages"; "My Rating"; "Bookshelves";
         "Bookshelves with positions"] [].

(** Two books on shelf "x", one of 100 pages and one without a page
    count. *)
Definition two_on_x : DataFrame :=
  Frame ["Title"; "Number of Pages"; "Bookshelves"]
    [ mk_row 0 [("Title", Str "A"); ("Number of Pages", Num 100);
                ("Bookshelves", Str "x")];
      mk_row 1 [("Title", Str "B"); ("Number of Pages", NaN);
                ("Bookshelves", Str "x")] ].

(** Three read books rated 4, 5 and 5. *)
Definition three_read : DataFrame :=
  Frame ["Title"; "My Rating"; "Bookshelves"]
    [ mk_row 0 [("Title", Str "A"); ("My Rating", Num 4); ("Bookshelves", Str "read")];
      mk_row 1 [("Title", Str "B"); ("My Rating", Num 5); ("Bookshelves", Str "read")];
      mk_row 2 [("Title", Str "C"); ("My Rating", Num 5); ("Bookshelves", Str "Read")] ].

(** Four books on "read": two rated 5, one with a rating that is not a
    number, one rated 4; and one book elsewhere. *)
Definition rated : DataFrame :=
  Frame ["Title"; "Author"; "My Rating"; "Bookshelves"]
    [ mk_row 0 [("Title", Str "A"); ("Author", Str "a"); ("My Rating", Num 5);
                ("Bookshelves", Str "read")];
      mk_row 1 [("Title", Str "B"); ("Author", Str "b"); ("My Rating", Num 5);
                ("Bookshelves", Str "read")];
      mk_row 2 [("Title", Str "C"); ("Author", Str "c"); ("My Rating", Str "n/a");
                ("Bookshelves", Str "read")];
      mk_row 3 [("Title", Str "D"); ("Author", Str "d"); ("My Rating", Num 3);
                ("Bookshelves", Str "to-read")];
      mk_row 4 [("Title", Str "E"); ("Author", Str "e"); ("My Rating", Num 4);
                ("Bookshelves", Str "read, x")] ].

(** ** Further vocabulary and tables *)

(** A column of shelf names that were read as numbers. *)
Definition numeric_shelves : DataFrame :=
  Frame ["Title"; "Bookshelves"]
    [ mk_row 0 [("Title", Str "A"); ("Bookshelves", NaN)];
      mk_row 1 [("Title", Str "B"); ("Bookshelves", Num 2024)] ].

(** A reader that knows one file. *)
Definition one_csv (p : string) : outcome DataFrame :=
  if String.eqb p "books.csv" then Ok nyc else Raise ValueError.

(** A source with both raw shelf columns. *)
Definition with_positions : DataFrame :=
  Frame ["Title"; "Bookshelves"; "Bookshelves with positions"]
    [ mk_row 7 [("Title", Str "A"); ("Bookshelves", Str "nyc, read");
                ("Bookshelves with positions", Str "nyc (#2), read (#10)")];
      mk_row 3 [("Title", Str "B"); ("Bookshelves", NaN);
                ("Bookshelves with positions", NaN)] ].

(** Two books on shelf "x" in a source without page counts. *)
Definition no_pages : DataFrame :=
  Frame ["Title"; "Bookshelves"]
    [ mk_row 0 [("Title", Str "A"); ("Bookshelves", Str "x")];
      mk_row 1 [("Title", Str "B"); ("Bookshelves", Str "x, read")] ].

(** Books of 100, 300 and 200 pages on shelf "x", one of them read. *)
Definition three_on_x : DataFrame :=
  Frame ["Title"; "Number of Pages"; "Bookshelves"]
    [ mk_row 0 [("Title", Str "A"); ("Number of Pages", Num 100);
                ("Bookshelves", Str "x")];
      mk_row 1 [("Title", Str "B"); ("Number of Pages", Num 300);
                ("Bookshelves", Str "x, read")];
      mk_row 2 [("Title", Str "C"); ("Number of Pages", Num 200);
                ("Bookshelves", Str "X")] ].

(** Rated books without the [Title] column. *)
Definition untitled : DataFrame :=
  Frame ["Author"; "My Rating"; "Bookshelves"]
    [ mk_row 0 [("Author", Str "a"); ("My Rating", Num 5); ("Bookshelves", Str "read")];
      mk_row 1 [("Author", Str "b"); ("My Rating", Num 3); ("Bookshelves", Str "x")] ].

(** [s.count(c)] *)
Fixpoint count_char (c : ascii) (s : string) : nat :=
  match s with
  | EmptyString => 0
  | String d t => (if Ascii.eqb d c then 1 else 0) + count_char c t
  end.

(** A shelf name as the normalizer leaves it: no comma in it and no white
    space at its ends. *)
Definition clean_name (s : string) : Prop :=
  Str.contains_char "," s = false
  /\ Str.starts_space s = false /\ Str.ends_space s = false.

(** Books with pages and ratings on the shelves "nyc", "read" and
    "to-read". *)
Definition library : DataFrame :=
  Frame ["Title"; "Number of Pages"; "My Rating"; "Bookshelves"]
    [ mk_row 0 [("Title", Str "A"); ("Number of Pages", Num 100);
                ("My Rating", Num 4); ("Bookshelves", Str "nyc, read")];
      mk_row 1 [("Title", Str "B"); ("Number of Pages", Num 300);
                ("My Rating", Num 0); ("Bookshelves", Str "NYC, to-read")];
      mk_row 2 [("Title", Str "C"); ("Number of Pages", NaN);
                ("My Rating", Num 5); ("Bookshelves", Str "read")] ].

(** The cell is one that line 35 can take after [fillna('')]: text, a
    missing value, or a falsy value, on which [x.split] is not called. *)
Definition splittable (name : string) (r : row) : Prop :=
  textual name r \/ truthy (cell_of name r) = false.

(** The raw text is not empty and one of the pieces between its commas,
    before the first or behind the last is empty or white space only. *)
Definition has_blank_token (x : string) : bool :=
  negb (String.eqb x "") && existsb Str.all_space (Str.split "," x).

(** The raw text has a trailing comma, two commas in a row, or white
    space only between two commas. *)
Definition blank_between_commas (x : string) : Prop :=
  (exists a, x = a +:+ ",")
  \/ (exists a b, x = a +:+ ",," +:+ b)
  \/ (exists a w b, x = a +:+ "," +:+ w +:+ "," +:+ b /\ Str.all_space w = true).

(** Twenty-five books on shelf "a", the first seven of them on "b" too. *)
Definition seven_of_25 : DataFrame :=
  Frame ["Title"; "Bookshelves"]
    (map (fun i => mk_row i [("Title", Str "T");
                             ("Bookshelves", Str (if i <? 7 then "a, b" else "a"))])
         (seq 0 25)).

(** Raw texts with a leading comma, of white space alone, and without a
    blank piece. *)
Definition odd_commas : DataFrame :=
  Frame ["Title"; "Bookshelves"]
    [ mk_row 0 [("Title", Str "A"); ("Bookshelves", Str ",a")];
      mk_row 1 [("Title", Str "B"); ("Bookshelves", Str " ")];
      mk_row 2 [("Title", Str "C"); ("Bookshelves", Str "b")] ].

(** No shelf column, and positions that were read as numbers. *)
Definition numeric_positions : DataFrame :=
  Frame ["Title"; "Bookshelves with positions"]
    [ mk_row 0 [("Title", Str "A"); ("Bookshelves with positions", Num 0)];
      mk_row 1 [("Title", Str "B"); ("Bookshelves with positions", Num 7)] ].

(** * Part III: lemmas and theorems *)

(** ** Facts about strings *)

Module StrFacts.

Import Str.

(** *** Unfolding [sub_marker] *)

Lemma sub_marker_step s :
  sub_marker s =
  match match_marker s with
  | Some rest => sub_marker rest
  | None =>
      match s with
      | EmptyString => EmptyString
      | String c t => String c (sub_marker t)
      end
  end.
Proof.
  funelim (sub_marker s).
  all: try match goal with e : match_marker _ = _ |- _ => rewrite e end.
  all: reflexivity.
Qed.


Lemma sub_marker_nomatch c t :
  match_marker (String c t) = None ->
  sub_marker (String c t) = String c (sub_marker t).
Proof. intros H. by rewrite sub_marker_step, H. Qed.

Lemma sub_marker_empty : sub_marker "" = "".
Proof. reflexivity. Qed.

(** *** Concatenation *)

Lemma app_cons c (s t : string) : String c s +:+ t = String c (s +:+ t).
Proof. reflexivity. Qed.

Lemma app_nil_l (s : string) : "" +:+ s = s.
Proof. reflexivity. Qed.

Lemma app_nil_r (s : string) : s +:+ "" = s.
Proof. induction s as [|c s IH]; [done|by rewrite app_cons, IH]. Qed.

Lemma app_assoc (a b c : string) : (a +:+ b) +:+ c = a +:+ (b +:+ c).
Proof. induction a as [|x a IH]; [done|by rewrite !app_cons, IH]. Qed.


Lemma length_zero (s : string) : String.length s = 0 -> s = "".
Proof. by destruct s. Qed.

Lemma length_ind (P : string -> Prop) :
  (forall s, (forall t, String.length t < String.length s -> P t) -> P s) ->
  forall s, P s.
Proof.
  intros H s. remember (String.length s) as n eqn:Hn.
  revert s Hn. induction (lt_wf n) as [n _ IH]. intros s ->.
  apply H. intros t Ht. by apply (IH (String.length t)).
Qed.

(** *** [split] and [join] *)

Lemma split_nonempty sep s : split sep s <> [].
Proof.
  destruct s as [|c t]; simpl; [done|].
  destruct (Ascii.eqb c sep); [done|]. by destruct (split sep t).
Qed.

Lemma join_split sep s : join (String sep "") (split sep s) = s.
Proof.
  induction s as [|c t IH]; [done|]. simpl.
  pose proof (split_nonempty sep t) as Hne.
  destruct (Ascii.eqb c sep) eqn:E.
  - apply Ascii.eqb_eq in E as ->.
    destruct (split sep t) as [|h r]; [done|].
    change (join (String sep "") ("" :: h :: r))
      with ("" +:+ String sep "" +:+ join (String sep "") (h :: r)).
    by rewrite IH.
  - destruct (split sep t) as [|h r]; [done|].
    destruct r as [|h' r].
    + simpl in *. by rewrite IH.
    + change (join (String sep "") (String c h :: h' :: r))
        with (String c h +:+ String sep "" +:+ join (String sep "") (h' :: r)).
      change (join (String sep "") (h :: h' :: r))
        with (h +:+ String sep "" +:+ join (String sep "") (h' :: r)) in IH.
      by rewrite app_cons, IH.
Qed.

Lemma split_no_sep sep s :
  Forall (fun t => contains_char sep t = false) (split sep s).
Proof.
  induction s as [|c t IH]; simpl.
  - by constructor.
  - destruct (Ascii.eqb c sep) eqn:E.
    + by constructor.
    + destruct (split sep t) as [|h r]; [by repeat constructor; simpl; rewrite E|].
      inversion IH as [|? ? Hh Hr]; subst. constructor; [|done].
      simpl. by rewrite E, Hh.
Qed.

Lemma split_app_sep sep a b :
  split sep (a +:+ String sep b) = split sep a ++ split sep b.
Proof.
  induction a as [|c a IH].
  - rewrite app_nil_l. simpl. by rewrite Ascii.eqb_refl.
  - rewrite app_cons. simpl. rewrite IH.
    destruct (Ascii.eqb c sep); [done|].
    pose proof (split_nonempty sep a).
    by destruct (split sep a).
Qed.

Lemma split_single sep s : contains_char sep s = false -> split sep s = [s].
Proof.
  induction s as [|c t IH]; [done|]. simpl.
  destruct (Ascii.eqb c sep); [done|]. simpl. intros H. by rewrite IH.
Qed.

(** *** [strip] *)

Lemma lstrip_spec s :
  exists l, s = l +:+ lstrip s /\ all_space l = true
            /\ starts_space (lstrip s) = false.
Proof.
  induction s as [|c t (l & Hl & Hs & Hn)]; [by exists ""|]. simpl.
  destruct (isspace c) eqn:E.
  - exists (String c l). rewrite app_cons, <- Hl. simpl. by rewrite E, Hs.
  - exists "". simpl. by rewrite E.
Qed.

Lemma rstrip_spec s :
  exists r, s = rstrip s +:+ r /\ all_space r = true
            /\ ends_space (rstrip s) = false.
Proof.
  induction s as [|c t (r & Hr & Hs & Hn)]; [by exists ""|]. simpl.
  destruct (rstrip t) as [|d u] eqn:Et.
  - rewrite app_nil_l in Hr. subst r.
    destruct (isspace c) eqn:E.
    + exists (String c t). simpl. by rewrite E, Hs.
    + exists t. simpl. by rewrite E.
  - exists r. by rewrite app_cons, <- Hr.
Qed.

Lemma rstrip_starts s : starts_space s = false -> starts_space (rstrip s) = false.
Proof.
  destruct s as [|c t]; [done|]. simpl. intros E.
  destruct (rstrip t); [|done]. by rewrite E.
Qed.

Lemma strip_spec s :
  exists l r, s = l +:+ strip s +:+ r
              /\ all_space l = true /\ all_space r = true
              /\ starts_space (strip s) = false /\ ends_space (strip s) = false.
Proof.
  destruct (lstrip_spec s) as (l & Hl & Hls & Hln).
  destruct (rstrip_spec (lstrip s)) as (r & Hr & Hrs & Hrn).
  exists l, r. unfold strip. rewrite <- Hr, <- Hl.
  repeat split; try done. by apply rstrip_starts.
Qed.

Lemma lstrip_all_space s : all_space s = true -> lstrip s = "".
Proof.
  induction s as [|c t IH]; [done|]. simpl.
  destruct (isspace c); [|done]. simpl. apply IH.
Qed.

Lemma strip_all_space s : all_space s = true -> strip s = "".
Proof. intros H. unfold strip. by rewrite lstrip_all_space. Qed.

Lemma all_space_no_comma s : all_space s = true -> contains_char "," s = false.
Proof.
  induction s as [|c t IH]; [done|]. simpl.
  destruct (isspace c) eqn:E; [|done]. simpl. intros H. rewrite (IH H).
  destruct (Ascii.eqb c ",") eqn:Ec; [|done].
  apply Ascii.eqb_eq in Ec. subst c. discriminate E.
Qed.

(** *** [lower] *)

Lemma lower_empty_iff s : lower s = "" <-> s = "".
Proof. by destruct s. Qed.

(** *** The position marker *)

Lemma skip_digits_spec s :
  exists ds, s = ds +:+ skip_digits s /\ all_digits ds = true
             /\ starts_digit (skip_digits s) = false.
Proof.
  induction s as [|c t (ds & Hd & Ha & Hn)]; [by exists ""|]. simpl.
  destruct (isdigit c) eqn:E.
  - exists (String c ds). rewrite app_cons, <- Hd. simpl. by rewrite E, Ha.
  - exists "". simpl. by rewrite E.
Qed.

Lemma skip_digits_app ds r :
  all_digits ds = true -> starts_digit r = false -> skip_digits (ds +:+ r) = r.
Proof.
  induction ds as [|c t IH]; intros Ha Hr.
  - rewrite app_nil_l. destruct r as [|d r]; [done|]. simpl in *. by rewrite Hr.
  - rewrite app_cons. simpl in *.
    destruct (isdigit c); [|done]. by apply IH.
Qed.

Lemma match_marker_intro ds rest :
  ds <> "" -> all_digits ds = true -> match_marker (marker ds +:+ rest) = Some rest.
Proof.
  intros Hne Ha. destruct ds as [|d ds]; [done|].
  simpl in Ha. destruct (isdigit d) eqn:Ed; [|done]. simpl in Ha.
  unfold marker. rewrite !app_assoc.
  change (match_marker (String " " (String "(" (String "#"
            (String d (ds +:+ String ")" rest))))) = Some rest).
  unfold match_marker. rewrite Ed.
  by rewrite (skip_digits_app ds (String ")" rest)).
Qed.

Lemma match_marker_elim s rest :
  match_marker s = Some rest ->
  exists ds, ds <> "" /\ all_digits ds = true /\ s = marker ds +:+ rest.
Proof.
  unfold match_marker.
  repeat (match goal with
          | |- context [match ?x with _ => _ end] => destruct x eqn:?
          end; try discriminate).
  intros [= <-]. subst.
  match goal with
  | H : skip_digits ?r = _, Hd : isdigit ?d = true |- _ =>
      destruct (skip_digits_spec r) as (ds & Hr & Ha & _);
      rewrite H in Hr; exists (String d ds); rewrite Hr
  end.
  split; [done|]. split.
  - simpl. by rewrite Ha, andb_true_r.
  - unfold marker. by rewrite !app_assoc.
Qed.

Lemma match_marker_spec s rest :
  match_marker s = Some rest <->
  exists ds, ds <> "" /\ all_digits ds = true /\ s = marker ds +:+ rest.
Proof.
  split; [apply match_marker_elim|].
  intros (ds & Hne & Ha & ->). by apply match_marker_intro.
Qed.

Lemma has_marker_step s :
  has_marker s =
  match match_marker s with
  | Some _ => true
  | None =>
      match s with
      | EmptyString => false
      | String _ t => has_marker t
      end
  end.
Proof. by destruct s. Qed.

(** A string without a match is left as it is, and only such a string. *)
Lemma sub_marker_no_marker s : has_marker s = false -> sub_marker s = s.
Proof.
  induction s as [|c t IH]; [done|].
  rewrite has_marker_step.
  destruct (match_marker (String c t)) eqn:E; [done|].
  intros H. by rewrite (sub_marker_nomatch _ _ E), IH.
Qed.



Ltac ascii_cases c :=
  destruct c as [[] [] [] [] [] [] [] []]; try reflexivity; try discriminate.


Lemma match_marker_app s rest x :
  match_marker s = Some rest -> match_marker (s +:+ x) = Some (rest +:+ x).
Proof.
  intros (ds & Hne & Ha & ->)%match_marker_elim.
  rewrite app_assoc. by apply match_marker_intro.
Qed.



End StrFacts.

(** ** Running the monad *)

Lemma bind_ok {A B} (m : M A) (k : A -> M B) h a h' :
  m h = (Ok a, h') -> (m ≫= k) h = k a h'.
Proof. intros E. unfold mbind, M_bind. by rewrite E. Qed.

Lemma bind_raise {A B} (m : M A) (k : A -> M B) h e h' :
  m h = (Raise e, h') -> (m ≫= k) h = (Raise e, h').
Proof. intros E. unfold mbind, M_bind. by rewrite E. Qed.

Lemma read_run l h d : h !! l = Some d -> read l h = (Ok d, h).
Proof. intros E. unfold read. by rewrite E. Qed.

Lemma pd_len_run l h d :
  h !! l = Some d -> pd_len l h = (Ok (length (rows d)), h).
Proof. intros E. unfold pd_len. by rewrite (bind_ok _ _ _ _ _ (read_run _ _ _ E)). Qed.

Lemma has_column_run l h d name :
  h !! l = Some d -> has_column l name h = (Ok (bool_decide (name ∈ columns d)), h).
Proof. intros E. unfold has_column. by rewrite (bind_ok _ _ _ _ _ (read_run _ _ _ E)). Qed.

Lemma getitem_run l h d name :
  h !! l = Some d -> name ∈ columns d ->
  getitem l name h = (Ok (map (cell_of name) (rows d)), h).
Proof.
  intros E Hin. unfold getitem.
  rewrite (bind_ok _ _ _ _ _ (read_run _ _ _ E)). by rewrite bool_decide_true.
Qed.

Lemma getitem_missing l h d name :
  h !! l = Some d -> name ∉ columns d ->
  getitem l name h = (Raise (KeyError name), h).
Proof.
  intros E Hin. unfold getitem.
  rewrite (bind_ok _ _ _ _ _ (read_run _ _ _ E)). by rewrite bool_decide_false.
Qed.

Lemma getitem_mask_run l h d mask :
  h !! l = Some d -> mask <> [] ->
  getitem_mask l mask h
  = (Ok (length h), h ++ [Frame (columns d) (select mask (rows d))]).
Proof.
  intros E Hne. unfold getitem_mask.
  rewrite (bind_ok _ _ _ _ _ (read_run _ _ _ E)). by destruct mask.
Qed.

Lemma getitem_mask_empty l h d :
  h !! l = Some d ->
  getitem_mask l [] h
  = (Ok (length h), h ++ [Frame [] (map (fun r => Row (label r) ∅) (rows d))]).
Proof.
  intros E. unfold getitem_mask.
  by rewrite (bind_ok _ _ _ _ _ (read_run _ _ _ E)).
Qed.

Lemma lookup_new (h : heap) (d : DataFrame) : (h ++ [d]) !! length h = Some d.
Proof. by rewrite lookup_app_r, Nat.sub_diag. Qed.

Lemma lookup_old (h : heap) (d d' : DataFrame) l :
  h !! l = Some d -> (h ++ [d']) !! l = Some d.
Proof. intros E. by apply lookup_app_l_Some. Qed.

(** ** Shelf membership *)

Lemma py_in_spec a l : py_in a l = true <-> a ∈ l.
Proof.
  unfold py_in. rewrite existsb_exists. split.
  - intros (x & Hx & ->%String.eqb_eq). by apply list_elem_of_In.
  - intros H. exists a. split; [by apply list_elem_of_In|apply String.eqb_refl].
Qed.

Lemma on_shelfb_spec shelf r : on_shelfb shelf r = true <-> on_shelf shelf r.
Proof.
  unfold on_shelfb, on_shelf. rewrite py_in_spec, list_elem_of_fmap.
  split; intros (s & H1 & H2); exists s; done.
Qed.

Lemma existsb_lower a l :
  existsb (fun s => String.eqb a (Str.lower s)) l = py_in a (map Str.lower l).
Proof. unfold py_in. induction l as [|x l IH]; simpl; [done|by rewrite IH]. Qed.

Lemma apply_ok {A} (f : cell -> outcome A) (g : row -> A) name (rs : list row) :
  Forall (fun r => f (cell_of name r) = Ok (g r)) rs ->
  apply f (map (cell_of name) rs) = Ok (map g rs).
Proof.
  induction 1 as [|r rs Hr _ IH]; simpl; [done|].
  rewrite Hr. simpl. rewrite IH. done.
Qed.

Lemma apply_in_lowered name (rs : list row) :
  Forall (fun r => exists l, cell_of "bookshelves_list" r = Lst l) rs ->
  apply (in_lowered name) (map (cell_of "bookshelves_list") rs)
  = Ok (map (fun r => py_in name (map Str.lower (shelves r))) rs).
Proof.
  intros H. apply apply_ok. eapply Forall_impl; [exact H|].
  intros r [l Hl]. unfold in_lowered, shelves. by rewrite Hl.
Qed.

Lemma apply_in_shelf shelf (rs : list row) :
  Forall (fun r => exists l, cell_of "bookshelves_list" r = Lst l) rs ->
  apply (in_shelf shelf) (map (cell_of "bookshelves_list") rs)
  = Ok (map (on_shelfb shelf) rs).
Proof. apply apply_in_lowered. Qed.

Lemma apply_any_shelf shelf (rs : list row) :
  Forall (fun r => exists l, cell_of "bookshelves_list" r = Lst l) rs ->
  apply (any_shelf shelf) (map (cell_of "bookshelves_list") rs)
  = Ok (map (on_shelfb shelf) rs).
Proof.
  intros H. apply apply_ok. eapply Forall_impl; [exact H|].
  intros r [l Hl]. unfold any_shelf, on_shelfb, shelves. rewrite Hl. simpl.
  by rewrite existsb_lower.
Qed.

(** Selecting with the mask of a predicate is filtering. *)
Lemma select_map {A} (p : A -> bool) (l : list A) :
  select (map p l) l = List.filter p l.
Proof. induction l as [|x l IH]; simpl; [done|]. rewrite IH. done. Qed.

Lemma Forall_filter_bool {A} (P : A -> Prop) (p : A -> bool) (l : list A) :
  Forall P l -> Forall P (List.filter p l).
Proof.
  induction 1 as [|x l Hx _ IH]; simpl; [done|].
  destruct (p x); [by constructor|done].
Qed.

Ltac step E := rewrite (bind_ok _ _ _ _ _ E).

Lemma lift_run {A} (o : outcome A) h : lift o h = (o, h).
Proof. reflexivity. Qed.

Lemma elem_of_shelf_rows shelf d r :
  r ∈ shelf_rows shelf d <-> r ∈ rows d /\ on_shelf shelf r.
Proof.
  unfold shelf_rows. rewrite !list_elem_of_In, filter_In, on_shelfb_spec. done.
Qed.

Lemma shelf_rows_nil shelf d :
  shelf_rows shelf d = [] <-> forall r, r ∈ rows d -> ~ on_shelf shelf r.
Proof.
  split.
  - intros E r Hr Hs.
    assert (r ∈ shelf_rows shelf d) as H by by apply elem_of_shelf_rows.
    rewrite E in H. by apply not_elem_of_nil in H.
  - intros H. destruct (shelf_rows shelf d) as [|r l] eqn:E; [done|].
    assert (r ∈ shelf_rows shelf d) as [Hr Hs]%elem_of_shelf_rows
      by (rewrite E; apply list_elem_of_here).
    by destruct (H r Hr).
Qed.

Lemma selected_rows p d : rows (selected p d) = List.filter p (rows d).
Proof. unfold selected. by destruct (rows d). Qed.

Lemma select_run (f : cell -> outcome bool) (p : row -> bool) {B}
    (k : loc -> M B) l h d :
  h !! l = Some d -> normalized d ->
  (forall rs, Forall (fun r => exists l, cell_of "bookshelves_list" r = Lst l) rs ->
     apply f (map (cell_of "bookshelves_list") rs) = Ok (map p rs)) ->
  (col ← getitem l "bookshelves_list";
   mask ← lift (apply f col);
   s ← getitem_mask l mask; k s) h
  = k (length h) (h ++ [selected p d]).
Proof.
  intros E [Hc Hl] Hf.
  step (getitem_run _ _ _ _ E Hc).
  rewrite (Hf _ Hl). step (lift_run (Ok (map p (rows d))) h).
  unfold selected. destruct (rows d) as [|r rs] eqn:Er.
  - simpl. step (getitem_mask_empty _ _ _ E). by rewrite Er.
  - rewrite (bind_ok _ _ _ _ _ (getitem_mask_run _ _ _ (map p (r :: rs)) E ltac:(done))).
    by rewrite Er, select_map.
Qed.

Lemma normalized_selected p d :
  normalized d -> rows (selected p d) <> [] -> normalized (selected p d).
Proof.
  intros [Hc Hl]. unfold selected. destruct (rows d) as [|r rs]; [done|].
  intros _. split; [done|]. by apply Forall_filter_bool.
Qed.

Lemma inject_nat_nonzero n : n <> 0 -> ~ (inject_Z (Z.of_nat n) == 0)%Q.
Proof. intros Hn. unfold Qeq. simpl. lia. Qed.

Lemma shelf_overlap_percentage_run h self d shelf1 shelf2 :
  h !! df self = Some d -> normalized d ->
  let n1 := length (shelf_rows shelf1 d) in
  let n12 := length (List.filter (on_shelfb shelf2) (shelf_rows shelf1 d)) in
  (shelf_overlap_percentage self shelf1 shelf2 h).1
  = Ok (if n1 =? 0 then 0
        else inject_Z (Z.of_nat n12) / inject_Z (Z.of_nat n1) * 100)%Q.
Proof.
  intros E Hn n1 n12. unfold shelf_overlap_percentage.
  rewrite (select_run _ (on_shelfb shelf1) _ _ _ _ E Hn (apply_any_shelf shelf1)).
  set (h1 := h ++ [selected (on_shelfb shelf1) d]).
  assert (h1 !! length h = Some (selected (on_shelfb shelf1) d)) as E1
    by apply lookup_new.
  step (pd_len_run _ _ _ E1). rewrite selected_rows. fold (shelf_rows shelf1 d).
  fold n1. destruct (n1 =? 0) eqn:En1; [done|].
  apply Nat.eqb_neq in En1.
  assert (rows (selected (on_shelfb shelf1) d) <> []) as Hne.
  { rewrite selected_rows. fold (shelf_rows shelf1 d). subst n1.
    by destruct (shelf_rows shelf1 d). }
  rewrite (select_run _ (on_shelfb shelf2) _ _ _ _ E1
             (normalized_selected _ _ Hn Hne) (apply_any_shelf shelf2)).
  erewrite bind_ok; [|apply pd_len_run, lookup_new].
  by rewrite !selected_rows.
Qed.

(** ** Shelf overlap *)

Lemma shelf_overlap_percentage_f64_run h self d shelf1 shelf2 :
  h !! df self = Some d -> normalized d ->
  let n1 := length (shelf_rows shelf1 d) in
  let n12 := length (List.filter (on_shelfb shelf2) (shelf_rows shelf1 d)) in
  (shelf_overlap_percentage_f64 self shelf1 shelf2 h).1
  = Ok (if n1 =? 0 then F64.of_nat 0
        else F64.mul (F64.true_divide n12 n1) (F64.of_nat 100)).
Proof.
  intros E Hn n1 n12. unfold shelf_overlap_percentage_f64.
  rewrite (select_run _ (on_shelfb shelf1) _ _ _ _ E Hn (apply_any_shelf shelf1)).
  set (h1 := h ++ [selected (on_shelfb shelf1) d]).
  assert (h1 !! length h = Some (selected (on_shelfb shelf1) d)) as E1
    by apply lookup_new.
  step (pd_len_run _ _ _ E1). rewrite selected_rows. fold (shelf_rows shelf1 d).
  fold n1. destruct (n1 =? 0) eqn:En1; [done|].
  apply Nat.eqb_neq in En1.
  assert (rows (selected (on_shelfb shelf1) d) <> []) as Hne.
  { rewrite selected_rows. fold (shelf_rows shelf1 d). subst n1.
    by destruct (shelf_rows shelf1 d). }
  rewrite (select_run _ (on_shelfb shelf2) _ _ _ _ E1
             (normalized_selected _ _ Hn Hne) (apply_any_shelf shelf2)).
  erewrite bind_ok; [|apply pd_len_run, lookup_new].
  by rewrite !selected_rows.
Qed.

(** C4, as the code has it: on a Table with the derived shelf lists (and
    of fewer than 2^53 records, so that the lengths are doubles), the
    result is exactly 0.0 when no record is on [shelf1]; otherwise it is
    the double that line 63 computes: the number of [shelf1] records that
    are also on [shelf2] divided by the number of [shelf1] records, the
    quotient rounded, and that quotient times 100, rounded again. *)
Theorem shelf_overlap_percentage_spec h self d shelf1 shelf2 :
  h !! df self = Some d -> normalized d ->
  (Z.of_nat (length (rows d)) < 2 ^ 53)%Z ->
  exists x,
    (shelf_overlap_percentage_f64 self shelf1 shelf2 h).1 = Ok x
    /\ ((forall r, r ∈ rows d -> ~ on_shelf shelf1 r) -> x = F64.of_nat 0)
    /\ ((exists r, r ∈ rows d /\ on_shelf shelf1 r) ->
        x = F64.mul
              (F64.true_divide
                 (length (List.filter (on_shelfb shelf2) (shelf_rows shelf1 d)))
                 (length (shelf_rows shelf1 d)))
              (F64.of_nat 100)).
Proof.
  intros E Hn _. eexists. split; [by apply shelf_overlap_percentage_f64_run|].
  split.
  - intros ->%shelf_rows_nil. done.
  - intros (r & Hr & Hs).
    assert (r ∈ shelf_rows shelf1 d) as Hin by by apply elem_of_shelf_rows.
    destruct (length (shelf_rows shelf1 d) =? 0) eqn:En; [|done].
    apply Nat.eqb_eq in En. destruct (shelf_rows shelf1 d); [|done].
    by apply not_elem_of_nil in Hin.
Qed.

Lemma shelf_overlap_percentage_spec_witness :
  exists x,
    (shelf_overlap_percentage_f64 (session nyc).1 "NYC" "read" (session nyc).2).1 = Ok x
    /\ ((forall r, r ∈ rows (table_of (session nyc)) -> ~ on_shelf "NYC" r) ->
        x = F64.of_nat 0)
    /\ ((exists r, r ∈ rows (table_of (session nyc)) /\ on_shelf "NYC" r) ->
        x = F64.mul
              (F64.true_divide
                 (length (List.filter (on_shelfb "read")
                            (shelf_rows "NYC" (table_of (session nyc)))))
                 (length (shelf_rows "NYC" (table_of (session nyc)))))
              (F64.of_nat 100)).
Proof.
  apply (shelf_overlap_percentage_spec (session nyc).2 (session nyc).1
           (table_of (session nyc)) "NYC" "read").
  - vm_compute. reflexivity.
  - split.
    + apply (bool_decide_unpack _). vm_compute. exact I.
    + repeat constructor; eexists; vm_compute; reflexivity.
  - vm_compute. reflexivity.
Defined.

(** Seven of twenty-five.  The code returns the double just above 28,
    since 7 / 25 is rounded before it is multiplied by 100, while
    100 * 7 / 25, as the specification has it, is 28.  And on a Table without the
    derived column, where no record is on any shelf, the code raises
    instead of returning 0.0. *)
Lemma overlap_of_seven_in_25 :
  length (shelf_rows "a" (table_of (session seven_of_25))) = 25
  /\ length (List.filter (on_shelfb "b")
               (shelf_rows "a" (table_of (session seven_of_25)))) = 7
  /\ (shelf_overlap_percentage_f64 (session seven_of_25).1 "a" "b"
        (session seven_of_25).2).1
     = Ok (F64.next_up (F64.of_nat 28))
  /\ F64.div (F64.mul (F64.of_nat 100) (F64.of_nat 7)) (F64.of_nat 25) = F64.of_nat 28
  /\ F64.next_up (F64.of_nat 28) <> F64.of_nat 28
  /\ (forall r, r ∈ rows (table_of (session untagged)) -> ~ on_shelf "read" r)
  /\ (shelf_overlap_percentage_f64 (session untagged).1 "read" "nyc"
        (session untagged).2).1
     = Raise (KeyError "bookshelves_list").
Proof.
  split; [vm_compute; reflexivity|].
  split; [vm_compute; reflexivity|].
  split; [vm_compute; reflexivity|].
  split; [vm_compute; reflexivity|].
  split.
  { intros H. apply (f_equal (F64.eqb (F64.of_nat 28))) in H.
    vm_compute in H. discriminate. }
  split; [|vm_compute; reflexivity].
  intros r Hr Hs. apply on_shelfb_spec in Hs.
  apply list_elem_of_In in Hr. vm_compute in Hr.
  destruct Hr as [<-|[]]. vm_compute in Hs. discriminate.
Qed.

(** The scenario of the two books: half of "nyc" is read. *)
Example shelf_overlap_nyc_read :
  exists q, (shelf_overlap_percentage (session nyc).1 "nyc" "read" (session nyc).2).1 = Ok q
            /\ (q == 50)%Q.
Proof. eexists. split; [vm_compute; reflexivity|reflexivity]. Qed.

Lemma filter_idem {A} (p : A -> bool) (l : list A) :
  List.filter p (List.filter p l) = List.filter p l.
Proof.
  induction l as [|x l IH]; simpl; [done|].
  destruct (p x) eqn:E; simpl; [by rewrite E, IH|done].
Qed.

(** C9: a shelf with at least one record overlaps itself by exactly 100,
    in a Table where no record lists a shelf twice. *)
Theorem shelf_overlap_percentage_self h self d shelf :
  h !! df self = Some d -> normalized d ->
  Forall (fun r => NoDup (shelves r)) (rows d) ->
  (exists r, r ∈ rows d /\ on_shelf shelf r) ->
  exists q, (shelf_overlap_percentage self shelf shelf h).1 = Ok q /\ (q == 100)%Q.
Proof.
  intros E Hn _ (r & Hr & Hs).
  eexists. split; [by apply shelf_overlap_percentage_run|].
  unfold shelf_rows. rewrite filter_idem. fold (shelf_rows shelf d).
  assert (r ∈ shelf_rows shelf d) as Hin by by apply elem_of_shelf_rows.
  destruct (length (shelf_rows shelf d) =? 0) eqn:En.
  - apply Nat.eqb_eq in En. destruct (shelf_rows shelf d); [|done].
    by apply not_elem_of_nil in Hin.
  - apply Nat.eqb_neq, inject_nat_nonzero in En. by field.
Qed.

Lemma shelf_overlap_percentage_self_witness :
  exists q, (shelf_overlap_percentage (session nyc).1 "nyc" "nyc" (session nyc).2).1 = Ok q
            /\ (q == 100)%Q.
Proof.
  apply (shelf_overlap_percentage_self (session nyc).2 (session nyc).1
           (table_of (session nyc)) "nyc").
  - vm_compute. reflexivity.
  - split.
    + apply (bool_decide_unpack _). vm_compute. exact I.
    + repeat constructor; eexists; vm_compute; reflexivity.
  - repeat constructor; apply (bool_decide_unpack _); vm_compute; exact I.
  - exists (default (Row 0 ∅) (rows (table_of (session nyc)) !! 0)).
    split.
    + apply list_elem_of_lookup. exists 0. vm_compute. reflexivity.
    + apply on_shelfb_spec. vm_compute. reflexivity.
Defined.

(** ** Frames that a method leaves alone *)

Lemma keeps_ret {A} h0 (a : A) (post : A -> Prop) :
  post a -> keeps h0 (mret a) post.
Proof. intros Hp h Hh. split; [exact Hh|]. cbv. by intros ? [= <-]. Qed.

Lemma keeps_raise {A} h0 e (post : A -> Prop) : keeps h0 (raise e) post.
Proof. intros h Hh. split; [exact Hh|]. by intros ? [=]. Qed.

Lemma keeps_lift {A} h0 (o : outcome A) : keeps h0 (lift o) (fun _ => True).
Proof. intros h Hh. split; [exact Hh|done]. Qed.

Lemma keeps_bind {A B} h0 (m : M A) (k : A -> M B) P Q :
  keeps h0 m P -> (forall a, P a -> keeps h0 (k a) Q) -> keeps h0 (m ≫= k) Q.
Proof.
  intros Hm Hk h Hh. destruct (Hm h Hh) as [Hp Ha].
  unfold mbind, M_bind. destruct (m h) as [[a|e] h']; simpl in *; [|done].
  by apply Hk; [apply Ha|].
Qed.

Lemma keeps_weaken {A} h0 (m : M A) (P Q : A -> Prop) :
  keeps h0 m P -> (forall a, P a -> Q a) -> keeps h0 m Q.
Proof. intros Hm HPQ h Hh. destruct (Hm h Hh) as [? Ha]. split; [done|]. auto. Qed.

Lemma keeps_read h0 l : keeps h0 (read l) (fun _ => True).
Proof. intros h Hh. unfold read. destruct (h !! l); (split; [exact Hh|done]). Qed.

Lemma keeps_alloc h0 d : keeps h0 (alloc d) (fresh h0).
Proof.
  intros h Hh. unfold alloc. simpl. split.
  - by apply prefix_app_r.
  - intros a [= <-]. by apply prefix_length.
Qed.

Lemma keeps_write h0 l d : fresh h0 l -> keeps h0 (write l d) (fun _ => True).
Proof.
  intros Hl h [k ->]. unfold write. simpl. split; [|done].
  rewrite insert_app_r_alt by done. by apply prefix_app_r.
Qed.

Create HintDb keeps.
#[local] Hint Resolve keeps_ret keeps_raise keeps_lift keeps_read keeps_alloc
  keeps_write : keeps.

Ltac keeps_bind P := eapply (keeps_bind _ _ _ P); [|intros ? ?].

Lemma keeps_pd_len h0 l : keeps h0 (pd_len l) (fun _ => True).
Proof. unfold pd_len. keeps_bind (fun _ : DataFrame => True); auto with keeps. Qed.

Lemma keeps_getitem h0 l name : keeps h0 (getitem l name) (fun _ => True).
Proof.
  unfold getitem. keeps_bind (fun _ : DataFrame => True); [auto with keeps|].
  case_bool_decide; auto with keeps.
Qed.

Lemma keeps_getitem_mask h0 l mask : keeps h0 (getitem_mask l mask) (fresh h0).
Proof.
  unfold getitem_mask. keeps_bind (fun _ : DataFrame => True); [auto with keeps|].
  destruct mask; auto with keeps.
Qed.

Lemma keeps_setitem h0 l name s :
  fresh h0 l -> keeps h0 (setitem l name s) (fun _ => True).
Proof.
  intros Hl. unfold setitem.
  keeps_bind (fun _ : DataFrame => True); [auto with keeps|].
  destruct (_ =? _); auto with keeps.
Qed.

#[local] Hint Resolve keeps_pd_len keeps_getitem keeps_getitem_mask
  keeps_setitem : keeps.

(** A selection by shelf makes a new frame. *)
Lemma keeps_select h0 l (f : cell -> outcome bool) :
  keeps h0 (col ← getitem l "bookshelves_list";
            mask ← lift (apply f col);
            getitem_mask l mask) (fresh h0).
Proof.
  keeps_bind (fun _ : list cell => True); [auto with keeps|].
  keeps_bind (fun _ : list bool => True); auto with keeps.
Qed.

Lemma keeps_get_shelf_books h0 self shelf :
  keeps h0 (get_shelf_books self shelf) (fresh h0).
Proof. apply keeps_select. Qed.

Lemma keeps_shelf_overlap_percentage h0 self shelf1 shelf2 :
  keeps h0 (shelf_overlap_percentage self shelf1 shelf2) (fun _ => True).
Proof.
  unfold shelf_overlap_percentage.
  keeps_bind (fun _ : list cell => True); [auto with keeps|].
  keeps_bind (fun _ : list bool => True); [auto with keeps|].
  keeps_bind (fresh h0); [auto with keeps|].
  keeps_bind (fun _ : nat => True); [auto with keeps|].
  destruct (_ =? _); [auto with keeps|].
  keeps_bind (fun _ : list cell => True); [auto with keeps|].
  keeps_bind (fun _ : list bool => True); [auto with keeps|].
  keeps_bind (fresh h0); [auto with keeps|].
  keeps_bind (fun _ : nat => True); auto with keeps.
Qed.

Lemma keeps_frames_kept {A} (m : M A) P h : keeps h m P -> frames_kept h (m h).2.
Proof.
  intros Hm l d E. destruct (Hm h (reflexivity _)) as [[k ->] _].
  by apply lookup_app_l_Some.
Qed.

Section LibraryFrames.

Variable str_to_float : string -> float.
Variable argsort : list Q -> list nat.

Lemma keeps_average_pages_on_shelf h0 self shelf only_read :
  keeps h0 (average_pages_on_shelf str_to_float self shelf only_read)
    (fun _ => True).
Proof.
  unfold average_pages_on_shelf.
  keeps_bind (fun _ : list cell => True); [auto with keeps|].
  keeps_bind (fun _ : list bool => True); [auto with keeps|].
  keeps_bind (fresh h0); [auto with keeps|].
  keeps_bind (fresh h0).
  { destruct only_read; [apply keeps_select|auto with keeps]. }
  keeps_bind (fun _ : nat => True); [auto with keeps|].
  destruct (_ =? _); [auto with keeps|].
  keeps_bind (fun _ : list cell => True); [auto with keeps|].
  destruct (_ =? _); auto with keeps.
Qed.

Lemma keeps_sort_values h0 l name :
  keeps h0 (sort_values argsort l name) (fresh h0).
Proof.
  unfold sort_values. keeps_bind (fun _ : DataFrame => True); [auto with keeps|].
  case_bool_decide; auto with keeps.
Qed.

Lemma keeps_head h0 l n : keeps h0 (head l n) (fresh h0).
Proof.
  unfold head. keeps_bind (fun _ : DataFrame => True); auto with keeps.
Qed.

Lemma keeps_empty h0 l : keeps h0 (empty l) (fun _ => True).
Proof.
  unfold empty. keeps_bind (fun _ : DataFrame => True); auto with keeps.
Qed.

Lemma keeps_getitem_columns h0 l names :
  keeps h0 (getitem_columns l names) (fresh h0).
Proof.
  unfold getitem_columns.
  keeps_bind (fun _ : DataFrame => True); [auto with keeps|].
  destruct (List.find _ _); auto with keeps.
Qed.

(** The column assignment of [top_rated_books_on_shelf] goes to the frame
    that [get_shelf_books] has just made. *)
Lemma keeps_top_rated_books_on_shelf h0 self shelf n :
  keeps h0 (top_rated_books_on_shelf str_to_float argsort self shelf n)
    (fresh h0).
Proof.
  unfold top_rated_books_on_shelf.
  keeps_bind (fresh h0); [apply keeps_get_shelf_books|].
  keeps_bind (fun _ : list cell => True); [auto with keeps|].
  keeps_bind (fun _ : unit => True); [auto with keeps|].
  keeps_bind (fresh h0); [apply keeps_sort_values|].
  keeps_bind (fresh h0); [apply keeps_head|].
  keeps_bind (fun _ : bool => True); [apply keeps_empty|].
  destruct (negb _); [apply keeps_getitem_columns|].
  unfold new_frame. auto with keeps.
Qed.

Lemma keeps_reading_stats h0 self :
  keeps h0 (reading_stats str_to_float self) (fun _ => True).
Proof.
  unfold reading_stats.
  keeps_bind (fun _ : list cell => True); [auto with keeps|].
  keeps_bind (fun _ : list bool => True); [auto with keeps|].
  keeps_bind (fresh h0); [auto with keeps|].
  keeps_bind (fun _ : list cell => True); [auto with keeps|].
  keeps_bind (fun _ : list bool => True); [auto with keeps|].
  keeps_bind (fresh h0); [auto with keeps|].
  keeps_bind (fun _ : list cell => True); [auto with keeps|].
  keeps_bind (fun _ : nat => True); [auto with keeps|].
  keeps_bind (fun _ : nat => True); [auto with keeps|].
  keeps_bind (fun _ : nat => True); auto with keeps.
Qed.

(** C8: after each of the five queries every frame that existed before
    the call, the Table of [self] among them, has the rows and columns it
    had before. *)
Theorem queries_keep_table h self :
  (forall shelf1 shelf2,
     frames_kept h (shelf_overlap_percentage self shelf1 shelf2 h).2)
  /\ (forall shelf only_read,
        frames_kept h (average_pages_on_shelf str_to_float self shelf only_read h).2)
  /\ (forall shelf, frames_kept h (get_shelf_books self shelf h).2)
  /\ (forall shelf n,
        frames_kept h (top_rated_books_on_shelf str_to_float argsort self shelf n h).2)
  /\ frames_kept h (reading_stats str_to_float self h).2.
Proof.
  repeat split; intros.
  - eapply keeps_frames_kept, keeps_shelf_overlap_percentage.
  - eapply keeps_frames_kept, keeps_average_pages_on_shelf.
  - eapply keeps_frames_kept, keeps_get_shelf_books.
  - eapply keeps_frames_kept, keeps_top_rated_books_on_shelf.
  - eapply keeps_frames_kept, keeps_reading_stats.
Qed.

End LibraryFrames.

(** ** Construction *)

Lemma zip_with_set_cell name (f : row -> cell) (rs : list row) :
  zip_with (set_cell name) rs (map f rs) = map (fun r => set_cell name r (f r)) rs.
Proof. induction rs as [|r rs IH]; simpl; [done|by rewrite IH]. Qed.

Lemma setitem_run l h d name (f : row -> cell) :
  h !! l = Some d ->
  setitem l name (map f (rows d)) h = (Ok tt, <[l := with_column name f d]> h).
Proof.
  intros E. unfold setitem. step (read_run _ _ _ E).
  rewrite length_map, Nat.eqb_refl. unfold write, with_column.
  by rewrite zip_with_set_cell.
Qed.

Lemma apply_fillna (f : cell -> outcome cell) (g : row -> cell) name (rs : list row) :
  Forall (fun r => f (fill (Str "") (cell_of name r))
                   = Ok (g r)) rs ->
  apply f (fillna (Str "") (map (cell_of name) rs)) = Ok (map g rs).
Proof.
  unfold fillna. induction 1 as [|r rs Hr _ IH]; simpl; [done|].
  rewrite Hr. simpl. by rewrite IH.
Qed.

Lemma split_shelves_textual name r :
  textual name r ->
  split_shelves (fill (Str "") (cell_of name r))
  = Ok (Lst (normalize (raw name r))).
Proof.
  unfold textual, raw, normalize, split_shelves.
  intros [->|[s ->]]; [done|]. simpl. by destruct (String.eqb s "").
Qed.

Lemma split_positions_textual name r :
  textual name r ->
  split_positions (fill (Str "") (cell_of name r))
  = Ok (Lst (normalize_positions (raw name r))).
Proof.
  unfold textual, raw, normalize_positions, split_positions.
  intros [->|[s ->]]; [done|]. simpl. by destruct (String.eqb s "").
Qed.

Lemma cell_of_set_cell name name' r c :
  cell_of name (set_cell name' r c) = if decide (name' = name) then c else cell_of name r.
Proof.
  unfold cell_of, set_cell. simpl. rewrite lookup_insert.
  by destruct (decide (name' = name)).
Qed.

Lemma clean_column_run l h d (f : cell -> outcome cell) (g : row -> list string)
    raw_name name {B} (k : unit -> M B) :
  h !! l = Some d ->
  (raw_name ∈ columns d ->
   Forall (fun r => f (fill (Str "") (cell_of raw_name r))
                    = Ok (Lst (g r))) (rows d)) ->
  (b ← has_column l raw_name;
   (if b : bool then
      s ← getitem l raw_name;
      v ← lift (apply f (fillna (Str "") s));
      setitem l name v
    else mret tt) ≫= k) h
  = k tt (<[l := if bool_decide (raw_name ∈ columns d)
                 then with_column name (fun r => Lst (g r)) d else d]> h).
Proof.
  intros E Hf. step (has_column_run _ _ _ raw_name E).
  case_bool_decide as Hin.
  - erewrite bind_ok; [reflexivity|].
    step (getitem_run _ _ _ _ E Hin).
    rewrite (apply_fillna f (fun r => Lst (g r)) _ _ (Hf Hin)).
    step (lift_run (Ok (map (fun r => Lst (g r)) (rows d))) h).
    by apply setitem_run.
  - erewrite bind_ok; [|reflexivity]. by rewrite list_insert_id.
Qed.

Lemma clean_last_column_run l h d (f : cell -> outcome cell)
    (g : row -> list string) raw_name name :
  h !! l = Some d ->
  (raw_name ∈ columns d ->
   Forall (fun r => f (fill (Str "") (cell_of raw_name r))
                    = Ok (Lst (g r))) (rows d)) ->
  (b ← has_column l raw_name;
   if b : bool then
     s ← getitem l raw_name;
     v ← lift (apply f (fillna (Str "") s));
     setitem l name v
   else mret tt) h
  = (Ok tt, <[l := if bool_decide (raw_name ∈ columns d)
                   then with_column name (fun r => Lst (g r)) d else d]> h).
Proof.
  intros E Hf. step (has_column_run _ _ _ raw_name E).
  case_bool_decide as Hin.
  - step (getitem_run _ _ _ _ E Hin).
    rewrite (apply_fillna f (fun r => Lst (g r)) _ _ (Hf Hin)).
    step (lift_run (Ok (map (fun r => Lst (g r)) (rows d))) h).
    by apply setitem_run.
  - by rewrite list_insert_id.
Qed.

Lemma raw_set_cell name name' r c :
  name' <> name -> raw name (set_cell name' r c) = raw name r.
Proof.
  intros Hne. unfold raw. rewrite cell_of_set_cell. by destruct (decide _).
Qed.

Lemma textual_set_cell name name' r c :
  name' <> name -> textual name r -> textual name (set_cell name' r c).
Proof.
  intros Hne. unfold textual. rewrite cell_of_set_cell. by destruct (decide _).
Qed.

Lemma _clean_bookshelves_run l h d :
  h !! l = Some d ->
  ("Bookshelves" ∈ columns d -> Forall (textual "Bookshelves") (rows d)) ->
  ("Bookshelves with positions" ∈ columns d ->
   Forall (textual "Bookshelves with positions") (rows d)) ->
  _clean_bookshelves {| df := l |} h = (Ok tt, <[l := cleaned d]> h).
Proof.
  intros E H1 H2. unfold _clean_bookshelves. simpl.
  rewrite (clean_column_run l h d split_shelves
             (fun r => normalize (raw "Bookshelves" r)) _ _ _ E).
  2:{ intros Hin. eapply Forall_impl; [exact (H1 Hin)|].
      intros r Hr. by apply split_shelves_textual. }
  set (d1 := if bool_decide ("Bookshelves" ∈ columns d) then _ else d).
  assert (<[l := d1]> h !! l = Some d1) as E1.
  { apply list_lookup_insert_eq. by eapply lookup_lt_Some. }
  assert ("Bookshelves with positions" ∈ columns d1 ->
          "Bookshelves with positions" ∈ columns d
          /\ Forall (textual "Bookshelves with positions") (rows d1)) as H2'.
  { subst d1. case_bool_decide; [|by auto].
    unfold with_column. simpl. intros Hin.
    assert ("Bookshelves with positions" ∈ columns d) as Hin'.
    { revert Hin. case_bool_decide; [done|].
      rewrite elem_of_app, list_elem_of_singleton. by intros [?|?]. }
    split; [done|]. apply Forall_map.
    eapply Forall_impl; [exact (H2 Hin')|].
    intros r Hr. by apply textual_set_cell. }
  rewrite (clean_last_column_run l _ d1 split_positions
             (fun r => normalize_positions (raw "Bookshelves with positions" r))
             _ _ E1).
  2:{ intros Hin. destruct (H2' Hin) as [_ Hf].
      eapply Forall_impl; [exact Hf|].
      intros r Hr. by apply split_positions_textual. }
  by rewrite list_insert_insert_eq.
Qed.

Section Construction.

Variable read_csv : string -> outcome DataFrame.

Lemma __init___run h0 src d0 :
  h0 !! src = Some d0 ->
  ("Bookshelves" ∈ columns d0 -> Forall (textual "Bookshelves") (rows d0)) ->
  ("Bookshelves with positions" ∈ columns d0 ->
   Forall (textual "Bookshelves with positions") (rows d0)) ->
  __init__ read_csv (Table src) h0
  = (Ok {| df := length h0 |}, h0 ++ [cleaned d0]).
Proof.
  intros E H1 H2. unfold __init__.
  erewrite bind_ok; [|unfold copy; step (read_run _ _ _ E); reflexivity].
  erewrite bind_ok; [|by apply (_clean_bookshelves_run _ _ d0); [apply lookup_new|..]].
  rewrite insert_app_r_alt, Nat.sub_diag by done. done.
Qed.

End Construction.

Lemma cleaned_rows d :
  exists f, rows (cleaned d) = map f (rows d)
    /\ (forall r, label (f r) = label r)
    /\ (forall r name, name <> "bookshelves_list" ->
          name <> "bookshelves_positions_list" -> cell_of name (f r) = cell_of name r)
    /\ (forall r, "Bookshelves" ∈ columns d ->
          cell_of "bookshelves_list" (f r) = Lst (normalize (raw "Bookshelves" r)))
    /\ (forall r, "Bookshelves" ∉ columns d ->
          cell_of "bookshelves_list" (f r) = cell_of "bookshelves_list" r).
Proof.
  unfold cleaned.
  destruct (bool_decide ("Bookshelves" ∈ columns d)) eqn:E1;
    [apply bool_decide_eq_true in E1|apply bool_decide_eq_false in E1];
    (match goal with
     | |- context [bool_decide (?x ∈ columns ?d1)] =>
         destruct (bool_decide (x ∈ columns d1))
     end);
    unfold with_column; simpl; rewrite ?map_map;
    (eexists; split; [first [reflexivity|symmetry; apply List.map_id]|]); simpl;
    repeat split; intros; rewrite ?cell_of_set_cell;
    repeat (destruct (decide _); try done).
  all: by rewrite ?raw_set_cell.
Qed.

Lemma cleaned_has_list d :
  "Bookshelves" ∈ columns d -> "bookshelves_list" ∈ columns (cleaned d).
Proof.
  intros Hin. unfold cleaned. rewrite (bool_decide_true _ Hin).
  assert ("bookshelves_list" ∈ columns
            (with_column "bookshelves_list"
               (fun r => Lst (normalize (raw "Bookshelves" r))) d)) as H.
  { unfold with_column. simpl. case_bool_decide; [done|].
    apply elem_of_app. right. apply list_elem_of_here. }
  case_bool_decide; [|done].
  unfold with_column at 1. simpl. case_bool_decide; [done|].
  apply elem_of_app. by left.
Qed.

Lemma cleaned_lacks_list d :
  "Bookshelves" ∉ columns d -> "bookshelves_list" ∉ columns d ->
  "bookshelves_list" ∉ columns (cleaned d).
Proof.
  intros H1 H2. unfold cleaned. rewrite (bool_decide_false _ H1).
  case_bool_decide; [|done]. unfold with_column. simpl.
  case_bool_decide; [done|].
  rewrite elem_of_app, list_elem_of_singleton. by intros [?|?].
Qed.

Lemma normalized_cleaned d : "Bookshelves" ∈ columns d -> normalized (cleaned d).
Proof.
  intros Hin. split; [by apply cleaned_has_list|].
  destruct (cleaned_rows d) as (f & -> & _ & _ & Hf & _).
  apply Forall_map, Forall_forall. intros r _. eexists. by apply Hf.
Qed.

(** ** The shelf normalizer *)

Lemma Forall2_map_trimmed (l : list string) :
  Forall2 trimmed l (map Str.strip l).
Proof.
  induction l as [|t l IH]; simpl; constructor; [|done].
  destruct (StrFacts.strip_spec t) as (a & b & ? & ? & ? & ? & ?). by exists a, b.
Qed.

Lemma normalize_spec x :
  (x = "" -> normalize x = [])
  /\ (x <> "" ->
      exists tokens, comma_tokens x tokens /\ Forall2 trimmed tokens (normalize x)).
Proof.
  unfold normalize. split.
  - by intros ->.
  - intros Hne. destruct (String.eqb x "") eqn:E; [by apply String.eqb_eq in E|].
    exists (Str.split "," x). split; [|apply Forall2_map_trimmed].
    split; [apply StrFacts.split_nonempty|].
    split; [apply StrFacts.join_split|apply StrFacts.split_no_sep].
Qed.

Section Normalizer.

Variable read_csv : string -> outcome DataFrame.

(** C7: the raw text is split on the commas and nothing else, each
    piece is trimmed, and the empty text and a missing value give the
    empty list. *)
Theorem normalizer_splits_on_commas h0 src d0 :
  h0 !! src = Some d0 ->
  "Bookshelves" ∈ columns d0 ->
  Forall (textual "Bookshelves") (rows d0) ->
  ("Bookshelves with positions" ∈ columns d0 ->
   Forall (textual "Bookshelves with positions") (rows d0)) ->
  exists self h d,
    __init__ read_csv (Table src) h0 = (Ok self, h)
    /\ h !! df self = Some d
    /\ normalized d
    /\ Forall2 (fun r0 r =>
         label r = label r0
         /\ (cell_of "Bookshelves" r0 = NaN \/ cell_of "Bookshelves" r0 = Str ""
             -> shelves r = [])
         /\ (forall x, cell_of "Bookshelves" r0 = Str x -> x <> "" ->
             exists tokens, comma_tokens x tokens
                            /\ Forall2 trimmed tokens (shelves r)))
         (rows d0) (rows d).
Proof.
  intros E Hin Ht Hp.
  exists {| df := length h0 |}, (h0 ++ [cleaned d0]), (cleaned d0).
  split; [by apply __init___run|].
  split; [apply lookup_new|].
  split; [by apply normalized_cleaned|].
  destruct (cleaned_rows d0) as (f & -> & Hl & _ & Hf & _).
  apply Forall2_fmap_r, Forall_Forall2_diag, Forall_forall.
  intros r _. split; [apply Hl|].
  unfold shelves. rewrite (Hf r Hin). unfold raw. split.
  - by intros [->| ->].
  - intros x -> Hx. by apply normalize_spec.
Qed.

End Normalizer.

Lemma normalizer_splits_on_commas_witness :
  exists self h d,
    __init__ no_csv (Table 0) [three_raw] = (Ok self, h)
    /\ h !! df self = Some d
    /\ normalized d
    /\ Forall2 (fun r0 r =>
         label r = label r0
         /\ (cell_of "Bookshelves" r0 = NaN \/ cell_of "Bookshelves" r0 = Str ""
             -> shelves r = [])
         /\ (forall x, cell_of "Bookshelves" r0 = Str x -> x <> "" ->
             exists tokens, comma_tokens x tokens
                            /\ Forall2 trimmed tokens (shelves r)))
         (rows three_raw) (rows d).
Proof.
  apply (normalizer_splits_on_commas no_csv [three_raw] 0 three_raw).
  - reflexivity.
  - apply (bool_decide_unpack _). vm_compute. exact I.
  - repeat (apply List.Forall_cons;
            [first [left; vm_compute; reflexivity
                   |right; eexists; vm_compute; reflexivity]|]).
    apply List.Forall_nil.
  - intros H. apply (bool_decide_pack _) in H. vm_compute in H. destruct H.
Defined.

Example normalizer_three_raw :
  map shelves (rows (table_of (session three_raw))) = [["to-read"; "x"]; []; []].
Proof. vm_compute. reflexivity. Qed.

(** ** The empty shelf name *)

Lemma get_shelf_books_run h self d shelf :
  h !! df self = Some d -> normalized d ->
  get_shelf_books self shelf h
  = (Ok (length h), h ++ [selected (on_shelfb shelf) d]).
Proof.
  intros E [Hc Hl]. unfold get_shelf_books.
  step (getitem_run _ _ _ _ E Hc).
  rewrite (apply_in_shelf shelf _ Hl).
  step (lift_run (Ok (map (on_shelfb shelf) (rows d))) h).
  unfold selected. destruct (rows d) as [|r rs] eqn:Er.
  - simpl. rewrite (getitem_mask_empty _ _ _ E). by rewrite Er.
  - rewrite (getitem_mask_run _ _ _ (map (on_shelfb shelf) (r :: rs)) E ltac:(done)).
    by rewrite Er, select_map.
Qed.

Lemma on_shelfb_empty r : on_shelfb "" r = bool_decide ("" ∈ shelves r).
Proof.
  apply eq_true_iff_eq. rewrite on_shelfb_spec, bool_decide_eq_true.
  unfold on_shelf. split.
  - intros (s & Hs & ->%StrFacts.lower_empty_iff). done.
  - intros H. by exists "".
Qed.

Lemma append_comma_nonempty a c : String.eqb (a +:+ String "," c) "" = false.
Proof. by destruct a. Qed.

(** A piece of white space only, or of nothing, behind a comma and before
    the next comma or the end, leaves the empty name in the shelf list. *)
Lemma normalize_blank a w c :
  Str.all_space w = true -> (c = "" \/ exists b, c = "," +:+ b) ->
  "" ∈ normalize (a +:+ "," +:+ w +:+ c).
Proof.
  intros Hw Hc. unfold normalize.
  change ("," +:+ w +:+ c) with (String "," (w +:+ c)).
  rewrite append_comma_nonempty, StrFacts.split_app_sep, map_app, elem_of_app. right.
  assert (w ∈ Str.split "," (w +:+ c)) as Hin.
  { destruct Hc as [->|[b ->]].
    - rewrite StrFacts.app_nil_r, StrFacts.split_single by by apply StrFacts.all_space_no_comma.
      apply list_elem_of_here.
    - change ("," +:+ b) with (String "," b).
      rewrite StrFacts.split_app_sep, StrFacts.split_single
        by by apply StrFacts.all_space_no_comma.
      apply list_elem_of_here. }
  apply list_elem_of_fmap. exists w. by rewrite StrFacts.strip_all_space.
Qed.

Lemma last_char_app s c : last_char (s +:+ String c "") = Some c.
Proof.
  induction s as [|x s IH]; [done|]. rewrite StrFacts.app_cons. simpl.
  rewrite IH. by destruct s.
Qed.

Lemma all_space_app a b :
  Str.all_space (a +:+ b) = Str.all_space a && Str.all_space b.
Proof.
  induction a as [|c a IH]; [done|].
  rewrite StrFacts.app_cons. simpl. by rewrite IH, andb_assoc.
Qed.

(** [t.strip() == ''] exactly when [t] is white space only. *)
Lemma strip_empty_iff t : Str.strip t = "" <-> Str.all_space t = true.
Proof.
  split; [|apply StrFacts.strip_all_space].
  intros H. destruct (StrFacts.strip_spec t) as (l & r & Ht & Hl & Hr & _).
  rewrite H, StrFacts.app_nil_l in Ht. by rewrite Ht, all_space_app, Hl, Hr.
Qed.

Lemma has_blank_token_spec x : "" ∈ normalize x <-> has_blank_token x = true.
Proof.
  unfold normalize, has_blank_token.
  destruct (String.eqb x ""); simpl; [by rewrite elem_of_nil|].
  rewrite list_elem_of_fmap, existsb_exists. split.
  - intros (t & Ht & Hin). exists t.
    split; [by apply list_elem_of_In|]. by apply strip_empty_iff.
  - intros (t & Hin & Ht). exists t.
    split; [symmetry; by apply strip_empty_iff|by apply list_elem_of_In].
Qed.

Lemma blank_between_commas_blank x :
  blank_between_commas x -> has_blank_token x = true.
Proof.
  intros Hx. apply has_blank_token_spec.
  destruct Hx as [[a ->]|[(a & b & ->)|(a & w & b & -> & Hw)]].
  - apply (normalize_blank a "" ""); [done|by left].
  - apply (normalize_blank a "" ("," +:+ b)); [done|right; by exists b].
  - apply (normalize_blank a w ("," +:+ b)); [done|right; by exists b].
Qed.

Lemma count_char_app c a b :
  count_char c (a +:+ b) = count_char c a + count_char c b.
Proof.
  induction a as [|x a IH]; [done|].
  rewrite StrFacts.app_cons. simpl. rewrite IH. lia.
Qed.

(** A text of one of the three forms ends in a comma or has two commas. *)
Lemma blank_between_commas_commas x :
  blank_between_commas x ->
  last_char x = Some ","%char \/ 2 <= count_char "," x.
Proof.
  intros [[a ->]|[(a & b & ->)|(a & w & b & -> & _)]].
  - left. apply last_char_app.
  - right. rewrite count_char_app.
    change (",," +:+ b) with (String "," (String "," b)). simpl. lia.
  - right. rewrite count_char_app.
    change ("," +:+ w +:+ "," +:+ b) with (String "," (w +:+ String "," b)).
    simpl. rewrite count_char_app. simpl. lia.
Qed.

Section EmptyName.

Variable read_csv : string -> outcome DataFrame.

(** C10, as the code has it: a raw text with a trailing comma, with two
    commas in a row or with white space only between two commas gives a
    shelf list that holds the empty name.  The shelf list of a raw text
    holds the empty name exactly when the text is not empty and one of
    its pieces (between commas, before the first, behind the last) is
    empty or white space only; and [get_shelf_books("")] returns exactly
    the records of such a text, in Table order. *)
Theorem empty_name_is_a_shelf h0 src d0 :
  h0 !! src = Some d0 ->
  "Bookshelves" ∈ columns d0 ->
  Forall (textual "Bookshelves") (rows d0) ->
  ("Bookshelves with positions" ∈ columns d0 ->
   Forall (textual "Bookshelves with positions") (rows d0)) ->
  (forall x, blank_between_commas x ->
     split_shelves (Str x) = Ok (Lst (normalize x)) /\ "" ∈ normalize x)
  /\ (forall x, split_shelves (Str x) = Ok (Lst (normalize x))
                /\ ("" ∈ normalize x <-> has_blank_token x = true))
  /\ exists self h d out,
       __init__ read_csv (Table src) h0 = (Ok self, h)
       /\ h !! df self = Some d
       /\ get_shelf_books self "" h = (Ok (length h), h ++ [out])
       /\ rows out = List.filter (fun r => bool_decide ("" ∈ shelves r)) (rows d)
       /\ Forall2 (fun r0 r =>
            label r = label r0
            /\ shelves r = normalize (raw "Bookshelves" r0)
            /\ (r ∈ rows out <-> has_blank_token (raw "Bookshelves" r0) = true))
            (rows d0) (rows d).
Proof.
  intros E Hc Ht Hp.
  assert (forall x, split_shelves (Str x) = Ok (Lst (normalize x))) as Hsplit.
  { intros x. unfold split_shelves, normalize. simpl. by destruct (String.eqb x ""). }
  split.
  { intros x Hx. split; [apply Hsplit|].
    by apply has_blank_token_spec, blank_between_commas_blank. }
  split.
  { intros x. split; [apply Hsplit|apply has_blank_token_spec]. }
  pose proof (normalized_cleaned d0 Hc) as Hn.
  pose proof (lookup_new h0 (cleaned d0)) as El.
  exists {| df := length h0 |}, (h0 ++ [cleaned d0]), (cleaned d0),
    (selected (on_shelfb "") (cleaned d0)).
  split; [by apply __init___run|].
  split; [done|].
  split; [by apply (get_shelf_books_run _ {| df := length h0 |})|].
  rewrite selected_rows.
  split; [apply filter_ext; intros r; apply on_shelfb_empty|].
  destruct (cleaned_rows d0) as (f & Hrows & Hl & _ & Hf & _).
  rewrite Hrows. apply Forall2_fmap_r, Forall_Forall2_diag, Forall_forall.
  intros r0 Hr0. unfold compose.
  assert (shelves (f r0) = normalize (raw "Bookshelves" r0)) as Hs.
  { unfold shelves. by rewrite (Hf r0 Hc). }
  split; [apply Hl|]. split; [done|].
  rewrite <- has_blank_token_spec, <- Hs.
  rewrite list_elem_of_In, filter_In, on_shelfb_empty, bool_decide_eq_true.
  split; [by intros [_ ?]|]. intros H. split; [|done].
  apply in_map, list_elem_of_In, Hr0.
Qed.

End EmptyName.

Lemma empty_name_is_a_shelf_witness :
  (forall x, blank_between_commas x ->
     split_shelves (Str x) = Ok (Lst (normalize x)) /\ "" ∈ normalize x)
  /\ (forall x, split_shelves (Str x) = Ok (Lst (normalize x))
                /\ ("" ∈ normalize x <-> has_blank_token x = true))
  /\ exists self h d out,
       __init__ no_csv (Table 0) [trailing_comma] = (Ok self, h)
       /\ h !! df self = Some d
       /\ get_shelf_books self "" h = (Ok (length h), h ++ [out])
       /\ rows out = List.filter (fun r => bool_decide ("" ∈ shelves r)) (rows d)
       /\ Forall2 (fun r0 r =>
            label r = label r0
            /\ shelves r = normalize (raw "Bookshelves" r0)
            /\ (r ∈ rows out <-> has_blank_token (raw "Bookshelves" r0) = true))
            (rows trailing_comma) (rows d).
Proof.
  apply (empty_name_is_a_shelf no_csv [trailing_comma] 0 trailing_comma).
  - reflexivity.
  - apply (bool_decide_unpack _). vm_compute. exact I.
  - repeat (apply List.Forall_cons;
            [first [left; vm_compute; reflexivity
                   |right; eexists; vm_compute; reflexivity]|]).
    apply List.Forall_nil.
  - intros H. apply (bool_decide_pack _) in H. vm_compute in H. destruct H.
Defined.

(** A text with a leading comma and a text of white space alone are none
    of the three forms, and [get_shelf_books("")] returns their
    records. *)
Lemma leading_comma_is_returned :
  exists l h out,
    get_shelf_books (session odd_commas).1 "" (session odd_commas).2 = (Ok l, h)
    /\ h !! l = Some out
    /\ map (cell_of "Bookshelves") (rows out) = [Str ",a"; Str " "]
    /\ ~ blank_between_commas ",a"
    /\ ~ blank_between_commas " ".
Proof.
  do 3 eexists.
  split; [vm_compute; reflexivity|].
  split; [vm_compute; reflexivity|].
  split; [vm_compute; reflexivity|].
  split; intros H; apply blank_between_commas_commas in H;
    vm_compute in H; destruct H as [H|H]; [discriminate H|lia|discriminate H|lia].
Qed.

Example get_shelf_books_trailing_comma :
  exists l h out,
    get_shelf_books (session trailing_comma).1 "" (session trailing_comma).2 = (Ok l, h)
    /\ h !! l = Some out
    /\ map (cell_of "Title") (rows out) = [Str "A"].
Proof. do 3 eexists. split; [|split]; vm_compute; reflexivity. Qed.

(** ** Position markers *)






(** ** A source without the Bookshelves column *)

Lemma split_shelves_outcome x :
  (exists c, split_shelves x = Ok c) \/ split_shelves x = Raise AttributeError.
Proof.
  unfold split_shelves. destruct (truthy x); [|by left; eexists].
  destruct x; first [by left; eexists|by right].
Qed.

Lemma apply_raise {A} (f : cell -> outcome A) e (s : list cell) :
  (forall c, (exists a, f c = Ok a) \/ f c = Raise e) ->
  Exists (fun c => f c = Raise e) s -> apply f s = Raise e.
Proof.
  intros Hf. induction 1 as [c t Hc|c t _ IH]; simpl.
  - by rewrite Hc.
  - destruct (Hf c) as [[a ->]| ->]; [|done]. simpl. by rewrite IH.
Qed.

Lemma split_positions_outcome x :
  (exists c, split_positions x = Ok c) \/ split_positions x = Raise AttributeError.
Proof.
  unfold split_positions. destruct (truthy x); [|by left; eexists].
  destruct x; first [by left; eexists|by right].
Qed.

Lemma split_positions_splittable name r :
  splittable name r ->
  split_positions (fill (Str "") (cell_of name r))
  = Ok (Lst (normalize_positions (raw name r))).
Proof.
  intros [Ht|Hf]; [by apply split_positions_textual|].
  unfold split_positions, normalize_positions, raw.
  destruct (cell_of name r) as [|x|q|l]; simpl in *; try done.
  - rewrite Hf. apply negb_false_iff in Hf. by rewrite Hf.
  - by rewrite Hf.
  - by rewrite Hf.
Qed.

Lemma split_positions_fails name r :
  ~ splittable name r ->
  split_positions (fill (Str "") (cell_of name r)) = Raise AttributeError.
Proof.
  unfold splittable, textual, split_positions. intros H.
  destruct (cell_of name r) as [|x|q|l]; simpl in *.
  - destruct H. by left; left.
  - destruct H. left. right. by eexists.
  - destruct (negb (Qeq_bool q 0)); [done|]. destruct H. by right.
  - destruct (negb (bool_decide (l = []))); [done|]. destruct H. by right.
Qed.

(** Every row can be split, or some row cannot. *)
Lemma splittable_rows name (rs : list row) :
  Forall (splittable name) rs \/ Exists (fun r => ~ splittable name r) rs.
Proof.
  induction rs as [|r rs IH]; [by left|].
  assert (splittable name r \/ ~ splittable name r) as [Hr|Hr].
  { unfold splittable, textual.
    destruct (cell_of name r) as [|x|q|l]; simpl.
    - left. by left; left.
    - left. left. right. by eexists.
    - destruct (negb (Qeq_bool q 0)); [right|left; by right].
      intros [[?|[? ?]]|?]; done.
    - destruct (negb (bool_decide (l = []))); [right|left; by right].
      intros [[?|[? ?]]|?]; done. }
  - destruct IH as [IH|IH]; [left; by constructor|right; by apply Exists_cons_tl].
  - right. by apply Exists_cons_hd.
Qed.

(** [_clean_bookshelves] on a frame without the [Bookshelves] column. *)
Lemma _clean_bookshelves_positions_run l h d :
  h !! l = Some d ->
  "Bookshelves" ∉ columns d ->
  ("Bookshelves with positions" ∈ columns d ->
   Forall (splittable "Bookshelves with positions") (rows d)) ->
  _clean_bookshelves {| df := l |} h = (Ok tt, <[l := cleaned d]> h).
Proof.
  intros E Hb Hp. unfold _clean_bookshelves. simpl.
  rewrite (clean_column_run l h d split_shelves
             (fun r => normalize (raw "Bookshelves" r)) _ _ _ E) by done.
  rewrite (bool_decide_false _ Hb), (list_insert_id _ _ _ E).
  rewrite (clean_last_column_run l h d split_positions
             (fun r => normalize_positions (raw "Bookshelves with positions" r))
             _ _ E).
  2:{ intros Hin. eapply Forall_impl; [exact (Hp Hin)|].
      intros r Hr. by apply split_positions_splittable. }
  unfold cleaned. by rewrite (bool_decide_false _ Hb).
Qed.

Section Absent.

Variable read_csv : string -> outcome DataFrame.
Variable str_to_float : string -> float.
Variable argsort : list Q -> list nat.

(** C3, as the code has it.  For a source without the [Bookshelves]
    column, construction fails or skips the derived column.  It raises
    [AttributeError] when some cell of [Bookshelves with positions] is
    neither text nor missing nor falsy, and only then; otherwise it
    succeeds, the Table has no derived shelf lists, and each of the five
    queries raises [KeyError] on them. *)
Theorem queries_raise_without_bookshelves h0 src d0 :
  h0 !! src = Some d0 ->
  "Bookshelves" ∉ columns d0 ->
  "bookshelves_list" ∉ columns d0 ->
  let splits :=
    "Bookshelves with positions" ∈ columns d0 ->
    Forall (splittable "Bookshelves with positions") (rows d0) in
  let fails :=
    "Bookshelves with positions" ∈ columns d0
    /\ Exists (fun r => ~ splittable "Bookshelves with positions" r) (rows d0) in
  (splits \/ fails)
  /\ (fails ->
      __init__ read_csv (Table src) h0 = (Raise AttributeError, h0 ++ [d0]))
  /\ (splits ->
      exists self h,
        __init__ read_csv (Table src) h0 = (Ok self, h)
        /\ (forall shelf1 shelf2,
              shelf_overlap_percentage self shelf1 shelf2 h
              = (Raise (KeyError "bookshelves_list"), h))
        /\ (forall shelf only_read,
              average_pages_on_shelf str_to_float self shelf only_read h
              = (Raise (KeyError "bookshelves_list"), h))
        /\ (forall shelf,
              get_shelf_books self shelf h = (Raise (KeyError "bookshelves_list"), h))
        /\ (forall shelf n,
              top_rated_books_on_shelf str_to_float argsort self shelf n h
              = (Raise (KeyError "bookshelves_list"), h))
        /\ reading_stats str_to_float self h
           = (Raise (KeyError "bookshelves_list"), h)).
Proof.
  intros E H1 H2 splits fails.
  pose proof (lookup_new h0 d0) as E'.
  assert (copy src h0 = (Ok (length h0), h0 ++ [d0])) as Ecopy.
  { unfold copy. by step (read_run _ _ _ E). }
  split; [|split].
  - subst splits fails.
    destruct (decide ("Bookshelves with positions" ∈ columns d0)) as [Hin|Hin];
      [|by left].
    destruct (splittable_rows "Bookshelves with positions" (rows d0)) as [H|H];
      [by left|by right].
  - intros [Hin Hex]. unfold __init__. step Ecopy.
    erewrite bind_raise; [done|].
    unfold _clean_bookshelves. simpl.
    rewrite (clean_column_run _ _ d0 split_shelves
               (fun r => normalize (raw "Bookshelves" r)) _ _ _ E') by done.
    rewrite (bool_decide_false _ H1), (list_insert_id _ _ _ E').
    step (has_column_run _ _ _ "Bookshelves with positions" E').
    rewrite (bool_decide_true _ Hin).
    step (getitem_run _ _ _ _ E' Hin).
    erewrite bind_raise; [done|]. rewrite lift_run. f_equal.
    apply apply_raise; [apply split_positions_outcome|].
    unfold fillna. rewrite map_map. apply Exists_exists.
    apply Exists_exists in Hex as (r & Hr & Hbad).
    exists (fill (Str "") (cell_of "Bookshelves with positions" r)).
    split; [apply list_elem_of_fmap; by exists r|].
    by apply split_positions_fails.
  - intros Hp.
    exists {| df := length h0 |}, (h0 ++ [cleaned d0]).
    assert (__init__ read_csv (Table src) h0
            = (Ok {| df := length h0 |}, h0 ++ [cleaned d0])) as Hinit.
    { unfold __init__. step Ecopy.
      erewrite bind_ok;
        [|by apply (_clean_bookshelves_positions_run _ _ d0)].
      rewrite insert_app_r_alt, Nat.sub_diag by done. done. }
    split; [done|].
    pose proof (lookup_new h0 (cleaned d0)) as El.
    pose proof (cleaned_lacks_list d0 H1 H2) as Hc.
    pose proof (getitem_missing _ _ _ _ El Hc) as Hg.
    repeat split; intros.
    + unfold shelf_overlap_percentage. by rewrite (bind_raise _ _ _ _ _ Hg).
    + unfold average_pages_on_shelf. by rewrite (bind_raise _ _ _ _ _ Hg).
    + unfold get_shelf_books. by rewrite (bind_raise _ _ _ _ _ Hg).
    + unfold top_rated_books_on_shelf, get_shelf_books.
      erewrite bind_raise; [done|]. by rewrite (bind_raise _ _ _ _ _ Hg).
    + unfold reading_stats. by rewrite (bind_raise _ _ _ _ _ Hg).
Qed.

End Absent.

Lemma queries_raise_without_bookshelves_witness :
  let splits :=
    "Bookshelves with positions" ∈ columns untagged ->
    Forall (splittable "Bookshelves with positions") (rows untagged) in
  let fails :=
    "Bookshelves with positions" ∈ columns untagged
    /\ Exists (fun r => ~ splittable "Bookshelves with positions" r) (rows untagged) in
  (splits \/ fails)
  /\ (fails ->
      __init__ no_csv (Table 0) [untagged] = (Raise AttributeError, [untagged] ++ [untagged]))
  /\ (splits ->
      exists self h,
        __init__ no_csv (Table 0) [untagged] = (Ok self, h)
        /\ (forall shelf1 shelf2,
              shelf_overlap_percentage self shelf1 shelf2 h
              = (Raise (KeyError "bookshelves_list"), h))
        /\ (forall shelf only_read,
              average_pages_on_shelf no_float self shelf only_read h
              = (Raise (KeyError "bookshelves_list"), h))
        /\ (forall shelf,
              get_shelf_books self shelf h = (Raise (KeyError "bookshelves_list"), h))
        /\ (forall shelf n,
              top_rated_books_on_shelf no_float stable_argsort self shelf n h
              = (Raise (KeyError "bookshelves_list"), h))
        /\ reading_stats no_float self h
           = (Raise (KeyError "bookshelves_list"), h)).
Proof.
  apply (queries_raise_without_bookshelves no_csv no_float stable_argsort
           [untagged] 0 untagged).
  - reflexivity.
  - apply (bool_decide_unpack _). vm_compute. exact I.
  - apply (bool_decide_unpack _). vm_compute. exact I.
Defined.

(** The two cases at work: [untagged] has no positions column and its
    session answers every query with [KeyError]; [numeric_positions]
    holds the number 7 in that column and has no session. *)
Example construction_without_bookshelves :
  (exists self h,
     __init__ no_csv (Table 0) [untagged] = (Ok self, h)
     /\ get_shelf_books self "read" h = (Raise (KeyError "bookshelves_list"), h))
  /\ __init__ no_csv (Table 0) [numeric_positions]
     = (Raise AttributeError, [numeric_positions] ++ [numeric_positions]).
Proof. split; [do 2 eexists; split|]; vm_compute; reflexivity. Qed.

(** Without the column the query raises; with the column present and
    empty it returns 0. *)
Lemma absent_column_is_not_empty_column :
  (shelf_overlap_percentage (session untagged).1 "read" "nyc" (session untagged).2).1
  = Raise (KeyError "bookshelves_list")
  /\ (shelf_overlap_percentage (session empty_tags).1 "read" "nyc"
        (session empty_tags).2).1
     = Ok 0%Q
  /\ (reading_stats no_float (session untagged).1 (session untagged).2).1
     = Raise (KeyError "bookshelves_list")
  /\ (reading_stats no_float (session empty_tags).1 (session empty_tags).2).1
     = Ok (Stats 1 0 0 None [] 0%Q).
Proof. repeat split; vm_compute; reflexivity. Qed.

(** ** The Table without rows *)

Section EmptyTable.

Variable str_to_float : string -> float.
Variable argsort : list Q -> list nat.

(** With no rows the selection [self.df[mask]] is a frame without columns,
    and the column that is read from it next is missing. *)
Lemma reading_stats_no_rows h self d :
  h !! df self = Some d -> normalized d -> rows d = [] ->
  (reading_stats str_to_float self h).1 = Raise (KeyError "My Rating").
Proof.
  intros E Hn Hr. unfold reading_stats.
  rewrite (select_run _ (fun r => py_in "read" (map Str.lower (shelves r)))
             _ _ _ _ E Hn (apply_in_lowered "read")).
  set (h1 := h ++ _).
  assert (h1 !! df self = Some d) as E1 by by apply lookup_old.
  rewrite (select_run _ (fun r => py_in "to-read" (map Str.lower (shelves r)))
             _ _ _ _ E1 Hn (apply_in_lowered "to-read")).
  set (h2 := h1 ++ _).
  assert (h2 !! length h = Some (Frame [] [])) as E2.
  { subst h2. apply lookup_old. subst h1. unfold selected. rewrite Hr.
    apply lookup_new. }
  by rewrite (bind_raise _ _ _ _ _
                (getitem_missing _ _ _ "My Rating" E2 ltac:(apply not_elem_of_nil))).
Qed.

Lemma average_pages_on_shelf_no_rows h self d shelf :
  h !! df self = Some d -> normalized d -> rows d = [] ->
  (average_pages_on_shelf str_to_float self shelf true h).1
  = Raise (KeyError "bookshelves_list").
Proof.
  intros E Hn Hr. unfold average_pages_on_shelf.
  rewrite (select_run _ (on_shelfb shelf) _ _ _ _ E Hn (apply_in_shelf shelf)).
  set (h1 := h ++ _).
  assert (h1 !! length h = Some (Frame [] [])) as E1.
  { subst h1. unfold selected. rewrite Hr. apply lookup_new. }
  erewrite bind_raise; [done|].
  by rewrite (bind_raise _ _ _ _ _
                (getitem_missing _ _ _ "bookshelves_list" E1
                   ltac:(apply not_elem_of_nil))).
Qed.

End EmptyTable.

(** C6 at the Table without rows: [reading_stats] does not reach
    [percent_read]; it raises where it reads the ratings of the read
    books. *)
Theorem reading_stats_header_only :
  (reading_stats no_float (session header_only).1 (session header_only).2).1
  = Raise (KeyError "My Rating").
Proof. vm_compute. reflexivity. Qed.

(** C5 at the Table without rows, with [only_read]: the selection is
    empty, and the call raises instead of returning the zero statistics. *)
Theorem average_pages_on_shelf_header_only :
  (average_pages_on_shelf no_float (session header_only).1 "x" true
     (session header_only).2).1
  = Raise (KeyError "bookshelves_list")
  /\ (average_pages_on_shelf no_float (session header_only).1 "x" false
        (session header_only).2).1
     = Ok (Some 0%Q, Pages.Stats (Some 0%Q) (Some 0%Q) (Some 0%Q) 0 0%Q).
Proof. split; vm_compute; reflexivity. Qed.

(** ** Insertion sort *)

Section Isort.

Context {A : Type} (le : A -> A -> bool).

Lemma insert_sorted_perm x l : Permutation (insert_sorted le x l) (x :: l).
Proof.
  induction l as [|y l IH]; simpl; [done|].
  destruct (le y x); [|done].
  rewrite IH. apply perm_swap.
Qed.

Lemma isort_from_perm l acc :
  Permutation (fold_left (fun acc x => insert_sorted le x acc) l acc) (acc ++ l).
Proof.
  revert acc. induction l as [|x l IH]; intros acc; simpl.
  - by rewrite app_nil_r.
  - rewrite IH, insert_sorted_perm. simpl. apply Permutation_middle.
Qed.

Lemma isort_perm l : Permutation (isort le l) l.
Proof. apply (isort_from_perm l []). Qed.

Lemma isort_length l : length (isort le l) = length l.
Proof. apply Permutation_length, isort_perm. Qed.

Variable R : A -> A -> Prop.
Hypothesis le_R : forall a b, le a b = true -> R a b.
Hypothesis not_le_R : forall a b, le a b = false -> R b a.

Lemma insert_sorted_hd a x l :
  R a x -> HdRel R a l -> HdRel R a (insert_sorted le x l).
Proof.
  intros Hax Hl. destruct l as [|y l]; simpl; [by constructor|].
  inversion Hl; subst. destruct (le y x); by constructor.
Qed.

Lemma insert_sorted_sorted x l : Sorted R l -> Sorted R (insert_sorted le x l).
Proof.
  induction 1 as [|y l Hs IH Hh]; simpl; [by repeat constructor|].
  destruct (le y x) eqn:E.
  - constructor; [done|]. apply insert_sorted_hd; [by apply le_R|done].
  - constructor; [by constructor|]. constructor. by apply not_le_R.
Qed.

Lemma isort_from_sorted l acc :
  Sorted R acc -> Sorted R (fold_left (fun acc x => insert_sorted le x acc) l acc).
Proof.
  revert acc. induction l as [|x l IH]; intros acc Hs; simpl; [done|].
  by apply IH, insert_sorted_sorted.
Qed.

Lemma isort_sorted l : Sorted R (isort le l).
Proof. apply isort_from_sorted. constructor. Qed.

End Isort.

Lemma Sorted_weaken {A} (R1 R2 : A -> A -> Prop) (l : list A) :
  (forall a b, R1 a b -> R2 a b) -> Sorted R1 l -> Sorted R2 l.
Proof.
  intros HR. induction 1 as [|a l Hs IH Hh]; constructor; [done|].
  destruct Hh; constructor. by apply HR.
Qed.

(** ** Statistics of a Series *)

Lemma Qle_bool_total a b : Qle_bool a b = true \/ Qle_bool b a = true.
Proof.
  rewrite !Qle_bool_iff. destruct (Qlt_le_dec a b) as [H|H]; [left|by right].
  by apply Qlt_le_weak.
Qed.






(** ** Page statistics *)




Lemma selected_columns_rows p d : rows d <> [] -> columns (selected p d) = columns d.
Proof. unfold selected. by destruct (rows d). Qed.

Section PageStatistics.

Variable str_to_float : string -> float.



End PageStatistics.

Example average_pages_two_on_x :
  (average_pages_on_shelf no_float (session two_on_x).1 "x" false
     (session two_on_x).2).1
  = Ok (Some 100%Q, Pages.Stats (Some 100%Q) (Some 100%Q) (Some 100%Q) 2 100%Q).
Proof. vm_compute. reflexivity. Qed.

(** ** The distribution of ratings *)















(** ** Reading statistics *)

Section ReadingStatistics.

Variable str_to_float : string -> float.




End ReadingStatistics.

Example reading_stats_three_read :
  exists st,
    (reading_stats no_float (session three_read).1 (session three_read).2).1 = Ok st
    /\ (exists a, avg_rating st = Some a /\ (a == (14 # 3))%Q)
    /\ rating_distribution st = [(4%Q, 1); (5%Q, 2)]
    /\ (percent_read st == 100)%Q.
Proof.
  eexists. split; [vm_compute; reflexivity|]. simpl.
  split; [eexists; split; reflexivity|]. split; reflexivity.
Qed.

(** ** Sorting by rating *)

Lemma non_nan_idx keys i :
  nonzero (map negb (map isna keys)) i = map fst (non_nan keys i).
Proof.
  revert i. induction keys as [|[q|] t IH]; intros i; simpl; [done|..];
    by rewrite IH.
Qed.

Lemma non_nan_vals keys i : dropna keys = map snd (non_nan keys i).
Proof.
  revert i. unfold dropna.
  induction keys as [|[q|] t IH]; intros i; simpl; [done|..];
    by rewrite <- IH.
Qed.

Lemma non_nan_lookup keys i j q :
  In (j, q) (non_nan keys i) -> i <= j /\ keys !! (j - i) = Some (Some q).
Proof.
  revert i. induction keys as [|[x|] t IH]; intros i; simpl; [done|..].
  - intros [[= <- <-]|H].
    + split; [lia|]. by rewrite Nat.sub_diag.
    + destruct (IH _ H) as [Hle Hl]. split; [lia|].
      by replace (j - i) with (S (j - S i)) by lia.
  - intros H. destruct (IH _ H) as [Hle Hl]. split; [lia|].
    by replace (j - i) with (S (j - S i)) by lia.
Qed.

Lemma nan_idx_lookup keys i j :
  In j (nonzero (map isna keys) i) -> i <= j /\ keys !! (j - i) = Some None.
Proof.
  revert i. induction keys as [|[x|] t IH]; intros i; simpl; [done|..].
  - intros H. destruct (IH _ H) as [Hle Hl]. split; [lia|].
    by replace (j - i) with (S (j - S i)) by lia.
  - intros [<-|H].
    + split; [lia|]. by rewrite Nat.sub_diag.
    + destruct (IH _ H) as [Hle Hl]. split; [lia|].
      by replace (j - i) with (S (j - S i)) by lia.
Qed.

Lemma nonzero_ge mask i j : In j (nonzero mask i) -> i <= j.
Proof.
  revert i. induction mask as [|[] m IH]; intros i; simpl; [done|..].
  - intros [<-|H]; [lia|]. apply IH in H. lia.
  - intros H. apply IH in H. lia.
Qed.

Lemma nonzero_sorted mask i : StronglySorted lt (nonzero mask i).
Proof.
  revert i. induction mask as [|[] m IH]; intros i; simpl; [constructor|..].
  - constructor; [apply IH|]. apply Forall_forall.
    intros j Hj%list_elem_of_In%nonzero_ge. lia.
  - apply IH.
Qed.

Lemma nonzero_partition keys i :
  Permutation (map fst (non_nan keys i) ++ nonzero (map isna keys) i)
    (seq i (length keys)).
Proof.
  revert i. induction keys as [|[x|] t IH]; intros i; simpl; [done|..].
  - by rewrite IH.
  - rewrite <- Permutation_middle. by rewrite IH.
Qed.

Lemma map_nth_seq {A} (l : list A) (dflt : A) :
  map (fun j => nth j l dflt) (seq 0 (length l)) = l.
Proof.
  induction l as [|x l IH]; simpl; [done|].
  by rewrite <- seq_shift, map_map, IH.
Qed.

Lemma permutation_of_positions {A} (l : list A) (dflt : A) (o : list nat) :
  Permutation o (seq 0 (length l)) -> Permutation (map (fun j => nth j l dflt) o) l.
Proof.
  intros H. etransitivity; [apply Permutation_map, H|]. by rewrite map_nth_seq.
Qed.

Lemma StronglySorted_flip_rev {A} (R : A -> A -> Prop) (l : list A) :
  StronglySorted R l -> StronglySorted (flip R) (rev l).
Proof.
  induction 1 as [|x l Hs IH Hx]; simpl; [constructor|].
  apply StronglySorted_app_2; [|done|repeat constructor].
  intros a b Ha%list_elem_of_In%in_rev%list_elem_of_In ->%list_elem_of_singleton.
  rewrite Forall_forall in Hx. by apply Hx.
Qed.

Lemma Sorted_Qle_strongly (l : list Q) : Sorted Qle l -> StronglySorted Qle l.
Proof. apply Sorted.Sorted_StronglySorted. intros x y z. apply Qle_trans. Qed.

Section Nargsort.

Variable argsort : list Q -> list nat.

Lemma nargsort_ordered keys :
  nargsort argsort keys
  = map fst (rev (ordered argsort keys)) ++ nonzero (map isna keys) 0.
Proof.
  unfold nargsort, ordered. f_equal.
  rewrite non_nan_idx, <- !map_rev, map_map.
  apply map_ext. intros j.
  by rewrite <- (map_nth fst (rev (non_nan keys 0)) (0, 0%Q)).
Qed.

Lemma ordered_values keys :
  map snd (ordered argsort keys)
  = map (fun j => nth j (rev (dropna keys)) 0%Q) (argsort (rev (dropna keys))).
Proof.
  unfold ordered. rewrite map_map. apply map_ext. intros j.
  rewrite (non_nan_vals keys 0), <- map_rev.
  by rewrite <- (map_nth snd (rev (non_nan keys 0)) (0, 0%Q)).
Qed.

Lemma ordered_perm keys :
  sorts argsort (rev (dropna keys)) ->
  Permutation (ordered argsort keys) (non_nan keys 0).
Proof.
  intros [Hp _]. unfold ordered.
  rewrite (permutation_of_positions (rev (non_nan keys 0))).
  - by rewrite <- Permutation_rev.
  - revert Hp. by rewrite (non_nan_vals keys 0), !length_rev, !length_map.
Qed.

Lemma nargsort_perm keys :
  sorts argsort (rev (dropna keys)) ->
  Permutation (nargsort argsort keys) (seq 0 (length keys)).
Proof.
  intros H. rewrite nargsort_ordered, <- nonzero_partition.
  apply Permutation_app_tail, Permutation_map.
  by rewrite <- Permutation_rev, ordered_perm.
Qed.

Lemma key_at_ordered keys p :
  sorts argsort (rev (dropna keys)) ->
  In p (ordered argsort keys) -> keys !! p.1 = Some (Some p.2).
Proof.
  intros H Hin. apply (Permutation_in _ (ordered_perm keys H)) in Hin.
  destruct p as [j q]. apply non_nan_lookup in Hin as [_ Hl].
  by rewrite Nat.sub_0_r in Hl.
Qed.

(** The key of the row at each position of the order. *)
Lemma nargsort_keys keys :
  sorts argsort (rev (dropna keys)) ->
  map (fun i => default None (keys !! i)) (nargsort argsort keys)
  = map Some (map snd (rev (ordered argsort keys)))
    ++ replicate (length (nonzero (map isna keys) 0)) None.
Proof.
  intros H. rewrite nargsort_ordered, map_app. f_equal.
  - rewrite !map_map. apply map_ext_in. intros p Hp%in_rev.
    by rewrite (key_at_ordered keys p H Hp).
  - generalize (nan_idx_lookup keys 0).
    induction (nonzero (map isna keys) 0) as [|j l IH]; intros Hl; simpl; [done|].
    destruct (Hl j ltac:(by left)) as [_ Hj]. rewrite Nat.sub_0_r in Hj.
    rewrite Hj. simpl. f_equal. apply IH. intros j' Hj'. apply Hl. by right.
Qed.

Lemma nargsort_descending keys :
  sorts argsort (rev (dropna keys)) ->
  descending_nan_last
    (map (fun i => default None (keys !! i)) (nargsort argsort keys)).
Proof.
  intros H. eexists _, _. split; [by apply nargsort_keys|].
  rewrite map_rev. apply StronglySorted_flip_rev, Sorted_Qle_strongly.
  rewrite ordered_values. apply H.
Qed.

End Nargsort.

(** ** The top rated books *)

Lemma cell_of_project names name r :
  name ∈ names -> cell_of name (project names r) = cell_of name r.
Proof.
  intros Hin. unfold cell_of, project. simpl.
  destruct (cells r !! name) as [c|] eqn:E.
  - by rewrite (map_lookup_filter_Some_2 _ _ name c).
  - rewrite map_lookup_filter_None_2; [done|]. by left.
Qed.

Lemma cell_float_cell x : cell_float (float_cell x) = x.
Proof. by destruct x. Qed.

Lemma sort_values_run argsort l h d name :
  h !! l = Some d -> name ∈ columns d ->
  sort_values argsort l name h
  = (Ok (length h),
     h ++ [Frame (columns d)
             (omap (fun i => rows d !! i)
                (nargsort argsort
                   (map (fun r => cell_float (cell_of name r)) (rows d))))]).
Proof.
  intros E Hin. unfold sort_values. step (read_run _ _ _ E).
  by rewrite bool_decide_true.
Qed.

Lemma head_run l h d n :
  h !! l = Some d ->
  head l n h = (Ok (length h), h ++ [Frame (columns d) (head_rows n (rows d))]).
Proof. intros E. unfold head. by step (read_run _ _ _ E). Qed.

Lemma empty_run l h d :
  h !! l = Some d ->
  empty l h = (Ok ((length (rows d) =? 0) || (length (columns d) =? 0)), h).
Proof. intros E. unfold empty. by step (read_run _ _ _ E). Qed.

Lemma getitem_columns_run l h d names :
  h !! l = Some d -> Forall (fun c => c ∈ columns d) names ->
  getitem_columns l names h
  = (Ok (length h), h ++ [Frame names (map (project names) (rows d))]).
Proof.
  intros E Hin. unfold getitem_columns. step (read_run _ _ _ E).
  destruct (List.find _ names) as [c|] eqn:Ef; [|done].
  apply find_some in Ef as [Hc Hn]. apply negb_true_iff in Hn.
  rewrite Forall_forall in Hin. apply list_elem_of_In, Hin in Hc.
  by rewrite bool_decide_true in Hn.
Qed.

Section TopRated.

Variable str_to_float : string -> float.
Variable argsort : list Q -> list nat.

Lemma rated_rows_ratings shelf d :
  map rating_of (rated_rows str_to_float shelf d) = shelf_ratings str_to_float shelf d.
Proof.
  unfold rated_rows, shelf_ratings, to_numeric. rewrite !map_map.
  apply map_ext. intros r. unfold rating_of.
  rewrite cell_of_set_cell. destruct (decide _); [|done].
  apply cell_float_cell.
Qed.

Lemma top_rated_books_on_shelf_run h self d shelf n :
  h !! df self = Some d -> normalized d -> rows d <> [] ->
  "Title" ∈ columns d -> "Author" ∈ columns d -> "My Rating" ∈ columns d ->
  exists h',
    top_rated_books_on_shelf str_to_float argsort self shelf n h
    = (Ok (length h'),
       h' ++ [Frame ["Title"; "Author"; "My Rating"]
                (map (project ["Title"; "Author"; "My Rating"])
                   (head_rows n
                      (omap (fun i => rated_rows str_to_float shelf d !! i)
                         (nargsort argsort (shelf_ratings str_to_float shelf d)))))]).
Proof.
  intros E Hn Hr Ht Ha Hm. unfold top_rated_books_on_shelf.
  step (get_shelf_books_run _ _ _ shelf E Hn).
  set (s1 := selected (on_shelfb shelf) d).
  assert (columns s1 = columns d) as Hc1 by by apply selected_columns_rows.
  assert (rows s1 = shelf_rows shelf d) as Hr1 by apply selected_rows.
  erewrite bind_ok;
    [|apply (getitem_run _ _ s1); [apply lookup_new|by rewrite Hc1]].
  unfold to_numeric. rewrite !map_map.
  erewrite bind_ok; [|apply (setitem_run _ _ s1); apply lookup_new].
  rewrite insert_app_r_alt, Nat.sub_diag by done. simpl.
  set (s2 := with_column _ _ s1).
  assert (columns s2 = columns d) as Hc2.
  { subst s2. unfold with_column. simpl. by rewrite Hc1, bool_decide_true. }
  assert (rows s2 = rated_rows str_to_float shelf d) as Hr2.
  { subst s2. unfold with_column, rated_rows. simpl. by rewrite Hr1. }
  erewrite bind_ok;
    [|apply (sort_values_run _ _ _ s2); [apply lookup_new|by rewrite Hc2]].
  rewrite Hr2, Hc2.
  change (map (fun r => cell_float (cell_of "My Rating" r)) (rated_rows str_to_float shelf d))
    with (map rating_of (rated_rows str_to_float shelf d)).
  rewrite rated_rows_ratings.
  erewrite bind_ok; [|apply head_run, lookup_new]. simpl.
  erewrite bind_ok; [|apply empty_run, lookup_new]. simpl.
  assert ((length (columns d) =? 0) = false) as ->.
  { destruct (columns d); [|done]. by apply not_elem_of_nil in Hm. }
  rewrite orb_false_r.
  set (top := head_rows n _).
  destruct (length top =? 0) eqn:Et; simpl.
  - apply Nat.eqb_eq, length_zero_iff_nil in Et. rewrite Et.
    eexists. reflexivity.
  - rewrite (getitem_columns_run _ _ (Frame (columns d) top));
      [by eexists|apply lookup_new|by repeat constructor].
Qed.

End TopRated.

(** ** The order of the sorted rows *)

Lemma StronglySorted_map_inv {A B} (f : A -> B) (R : B -> B -> Prop) (l : list A) :
  StronglySorted R (map f l) -> StronglySorted (fun a b => R (f a) (f b)) l.
Proof.
  induction l as [|x l IH]; simpl; [constructor|].
  intros H. apply StronglySorted_inv in H as [Hs Hx].
  constructor; [by apply IH|]. rewrite List.Forall_forall in *.
  intros y Hy. apply Hx. by apply in_map.
Qed.

Lemma StronglySorted_and_Forall {A} (R : A -> A -> Prop) (P : A -> Prop) (l : list A) :
  StronglySorted R l -> Forall P l ->
  StronglySorted (fun a b => R a b /\ P a /\ P b) l.
Proof.
  induction 1 as [|x l Hs IH Hx]; intros Hp; [constructor|].
  apply Forall_cons in Hp as [Hpx Hpl]. constructor; [by apply IH|].
  rewrite Forall_forall in *. intros y Hy. auto.
Qed.

Lemma StronglySorted_weaken {A} (R1 R2 : A -> A -> Prop) (l : list A) :
  (forall a b, R1 a b -> R2 a b) -> StronglySorted R1 l -> StronglySorted R2 l.
Proof.
  intros HR. induction 1 as [|x l Hs IH Hx]; constructor; [done|].
  eapply Forall_impl; [exact Hx|]. auto.
Qed.

Lemma StronglySorted_lookup {A} (R : A -> A -> Prop) (l : list A) i j a b :
  StronglySorted R l -> i < j -> l !! i = Some a -> l !! j = Some b -> R a b.
Proof.
  intros Hs. revert i j. induction Hs as [|x l Hs IH Hx]; intros i j Hij Ha Hb;
    [done|].
  destruct j as [|j]; [lia|]. simpl in Hb. destruct i as [|i].
  - simpl in Ha. injection Ha as ->. rewrite Forall_forall in Hx.
    apply Hx. by eapply list_elem_of_lookup_2.
  - simpl in Ha. apply (IH i j); [lia|done..].
Qed.

Lemma StronglySorted_take {A} (R : A -> A -> Prop) (l : list A) n :
  StronglySorted R l -> StronglySorted R (take n l).
Proof.
  intros H. rewrite <- (take_drop n l) in H. by apply StronglySorted_app_1_l in H.
Qed.

(** *** Positions and values of a list *)

Lemma enumerate_fst {A} (l : list A) i : map fst (enumerate i l) = seq i (length l).
Proof. revert i. induction l as [|x l IH]; intros i; simpl; [done|by rewrite IH]. Qed.

Lemma enumerate_snd {A} (l : list A) i : map snd (enumerate i l) = l.
Proof. revert i. induction l as [|x l IH]; intros i; simpl; [done|by rewrite IH]. Qed.

Lemma enumerate_lookup {A} (l : list A) i j x :
  In (j, x) (enumerate i l) -> i <= j /\ l !! (j - i) = Some x.
Proof.
  revert i. induction l as [|y l IH]; intros i; simpl; [done|].
  intros [[= <- <-]|H].
  - split; [lia|]. by rewrite Nat.sub_diag.
  - destruct (IH _ H) as [Hle Hl]. split; [lia|].
    by replace (j - i) with (S (j - S i)) by lia.
Qed.

Lemma enumerate_sorted {A} (l : list A) i :
  StronglySorted (fun a b => a.1 < b.1) (enumerate i l).
Proof.
  revert i. induction l as [|y l IH]; intros i; simpl; [constructor|].
  constructor; [apply IH|]. apply Forall_forall.
  intros [j x] Hj%list_elem_of_In%enumerate_lookup. simpl. lia.
Qed.

Lemma non_nan_sorted keys i : StronglySorted (fun a b => a.1 < b.1) (non_nan keys i).
Proof.
  revert i. induction keys as [|[x|] t IH]; intros i; simpl; [constructor| |apply IH].
  constructor; [apply IH|]. apply Forall_forall.
  intros [j q] Hj%list_elem_of_In%non_nan_lookup. simpl. lia.
Qed.

(** *** Any argsort by insertion keeps the promise of numpy *)

Section ArgsortBy.

Variable le : Q -> Q -> bool.
Hypothesis le_Qle : forall a b, le a b = true -> (a <= b)%Q.
Hypothesis not_le_Qle : forall a b, le a b = false -> (b <= a)%Q.

Lemma argsort_by_sorts vals : sorts (argsort_by le) vals.
Proof.
  unfold sorts, argsort_by.
  set (S := isort (fun a b : nat * Q => le a.2 b.2) (enumerate 0 vals)).
  assert (Permutation S (enumerate 0 vals)) as Hp by apply isort_perm.
  split.
  - rewrite <- (enumerate_fst vals 0). by apply Permutation_map.
  - assert (map (fun j => nth j vals 0%Q) (map fst S) = map snd S) as ->.
    { rewrite map_map. apply map_ext_in. intros [j x] Hin. simpl.
      apply (Permutation_in _ Hp) in Hin.
      apply enumerate_lookup in Hin as [_ Hl]. rewrite Nat.sub_0_r in Hl.
      by apply nth_lookup_Some. }
    apply (Sorted_fmap snd (fun a b => (a.2 <= b.2)%Q)); [done|].
    apply (isort_sorted (fun a b : nat * Q => le a.2 b.2)).
    + intros a b. apply le_Qle.
    + intros a b. apply not_le_Qle.
Qed.

End ArgsortBy.

Lemma stable_argsort_sorts vals : sorts stable_argsort vals.
Proof.
  apply argsort_by_sorts.
  - intros a b. apply Qle_bool_iff.
  - intros a b Hab. destruct (Qle_bool_total a b) as [?|?]; [congruence|].
    by apply Qle_bool_iff.
Qed.

Lemma reversing_argsort_sorts vals : sorts reversing_argsort vals.
Proof.
  apply argsort_by_sorts.
  - intros a b Hab%negb_true_iff.
    destruct (Qle_bool_total a b) as [?|?]; [|congruence]. by apply Qle_bool_iff.
  - intros a b Hab%negb_false_iff. by apply Qle_bool_iff.
Qed.

(** *** Insertion behind equal values is stable *)

Lemma lex_Qle a b : lex a b -> (a.2 <= b.2)%Q.
Proof. intros [H|[H _]]; [by apply Qlt_le_weak|by rewrite H; apply Qle_refl]. Qed.

Lemma insert_sorted_In {A} (le : A -> A -> bool) x l a :
  In a (insert_sorted le x l) <-> a = x \/ In a l.
Proof.
  split.
  - intros H. apply (Permutation_in _ (insert_sorted_perm le x l)) in H.
    destruct H as [->|H]; auto.
  - intros H. apply (Permutation_in _ (Permutation_sym (insert_sorted_perm le x l))).
    destruct H as [->|H]; [by left|by right].
Qed.

Lemma insert_sorted_lex x acc :
  StronglySorted lex acc -> Forall (fun a => a.1 < x.1) acc ->
  StronglySorted lex (insert_sorted (fun a b : nat * Q => Qle_bool a.2 b.2) x acc).
Proof.
  induction 1 as [|y t Hs IH Hy]; intros Hlt; simpl; [repeat constructor|].
  apply Forall_cons in Hlt as [Hyx Ht].
  destruct (Qle_bool y.2 x.2) eqn:E.
  - apply Qle_bool_iff in E. constructor; [by apply IH|].
    apply List.Forall_forall. intros a [->|Ha]%insert_sorted_In.
    + destruct (Qle_lt_or_eq _ _ E) as [?|?]; [by left|by right].
    + rewrite List.Forall_forall in Hy. by apply Hy.
  - assert (x.2 < y.2)%Q as Hxy.
    { apply Qnot_le_lt. intros H%Qle_bool_iff. congruence. }
    constructor; [by constructor|].
    constructor; [by left|].
    rewrite List.Forall_forall in *. intros z Hz. left.
    eapply Qlt_le_trans; [exact Hxy|]. by apply lex_Qle, Hy.
Qed.

Lemma isort_from_lex ps acc :
  StronglySorted lex acc ->
  StronglySorted (fun a b : nat * Q => a.1 < b.1) ps ->
  (forall a b, In a acc -> In b ps -> a.1 < b.1) ->
  StronglySorted lex
    (fold_left (fun acc x => insert_sorted (fun a b : nat * Q => Qle_bool a.2 b.2) x acc)
       ps acc).
Proof.
  revert acc. induction ps as [|x ps IH]; intros acc Hacc Hps Hlt; simpl; [done|].
  apply StronglySorted_inv in Hps as [Hps Hx].
  apply IH; [|done|].
  - apply insert_sorted_lex; [done|]. apply List.Forall_forall.
    intros a Ha. apply Hlt; [done|by left].
  - intros a b [->|Ha]%insert_sorted_In Hb.
    + rewrite List.Forall_forall in Hx. by apply Hx.
    + apply Hlt; [done|by right].
Qed.

Lemma isort_enumerate_lex (vals : list Q) :
  StronglySorted lex
    (isort (fun a b : nat * Q => Qle_bool a.2 b.2) (enumerate 0 vals)).
Proof.
  apply isort_from_lex; [constructor|apply enumerate_sorted|by intros ? ? []].
Qed.

(** *** The order that [nargsort] gives *)

Section NargsortOrder.

Variable argsort : list Q -> list nat.

Lemma keyed_nargsort keys :
  sorts argsort (rev (dropna keys)) ->
  keyed keys (nargsort argsort keys)
  = map (fun p => (p.1, Some p.2)) (rev (ordered argsort keys))
    ++ map (fun j => (j, None)) (nonzero (map isna keys) 0).
Proof.
  intros H. unfold keyed. rewrite nargsort_ordered, map_app. f_equal.
  - rewrite !map_map. apply map_ext_in. intros p Hp%in_rev.
    by rewrite (key_at_ordered argsort keys p H Hp).
  - apply map_ext_in. intros j Hj%nan_idx_lookup. destruct Hj as [_ Hj].
    rewrite Nat.sub_0_r in Hj. by rewrite Hj.
Qed.

Lemma keyed_sorted tie keys :
  sorts argsort (rev (dropna keys)) ->
  StronglySorted (fun p1 p2 : nat * Q =>
                    precedes tie (p1.1, Some p1.2) (p2.1, Some p2.2))
    (rev (ordered argsort keys)) ->
  StronglySorted (precedes tie) (keyed keys (nargsort argsort keys)).
Proof.
  intros H Hs. rewrite (keyed_nargsort keys H). apply StronglySorted_app_2.
  - intros a b (p & -> & _)%list_elem_of_fmap (j & -> & _)%list_elem_of_fmap. done.
  - by apply (StronglySorted_fmap (fun p : nat * Q => (p.1, Some p.2)) _ _ _
                (fun x y Hxy => Hxy)).
  - apply (StronglySorted_fmap (fun j : nat => (j, @None Q)) lt);
      [done|apply nonzero_sorted].
Qed.

(** Whatever the sort does with equal values: ratings descend, and the
    NaN follow in the order of their positions. *)
Lemma nargsort_any_order keys :
  sorts argsort (rev (dropna keys)) ->
  StronglySorted (precedes any_order) (keyed keys (nargsort argsort keys)).
Proof.
  intros H. apply keyed_sorted; [done|].
  apply (StronglySorted_weaken (flip (fun p1 p2 : nat * Q => (p1.2 <= p2.2)%Q))).
  { intros a b Hab. unfold flip in Hab. unfold precedes. simpl.
    destruct (Qle_lt_or_eq _ _ Hab) as [?|Heq]; [by left|right].
    split; [by symmetry|done]. }
  apply StronglySorted_flip_rev.
  apply (StronglySorted_map_inv snd Qle), Sorted_Qle_strongly.
  rewrite ordered_values. apply H.
Qed.

(** When the sort is the stable one, rows of equal rating stand in the
    order of their positions. *)
Lemma nargsort_stable keys :
  argsort (rev (dropna keys)) = stable_argsort (rev (dropna keys)) ->
  StronglySorted (precedes lt) (keyed keys (nargsort argsort keys)).
Proof.
  intros Heq.
  assert (sorts argsort (rev (dropna keys))) as H.
  { unfold sorts. rewrite Heq. apply stable_argsort_sorts. }
  apply keyed_sorted; [done|].
  set (R := rev (non_nan keys 0)).
  set (vals := rev (dropna keys)) in *.
  set (S := isort (fun a b : nat * Q => Qle_bool a.2 b.2) (enumerate 0 vals)).
  set (f := fun jv : nat * Q => nth jv.1 R (0, 0%Q)).
  assert (vals = map snd R) as Hvals.
  { subst vals R. by rewrite (non_nan_vals keys 0), map_rev. }
  assert (ordered argsort keys = map f S) as ->.
  { unfold ordered. fold vals R. rewrite Heq. unfold stable_argsort, argsort_by.
    fold S. by rewrite map_map. }
  assert (StronglySorted (fun a b : nat * Q => b.1 < a.1) R) as HR.
  { subst R. apply (StronglySorted_flip_rev (fun a b : nat * Q => a.1 < b.1)).
    apply non_nan_sorted. }
  assert (Forall (fun jv => R !! jv.1 = Some (f jv) /\ (f jv).2 = jv.2) S) as Hvalid.
  { apply List.Forall_forall. intros [j v] Hin.
    apply (Permutation_in _ (isort_perm _ _)) in Hin.
    apply enumerate_lookup in Hin as [_ Hl]. rewrite Nat.sub_0_r in Hl.
    rewrite Hvals, list_lookup_fmap in Hl.
    destruct (R !! j) as [p|] eqn:Ep; [|done]. simpl in Hl. injection Hl as Hl.
    unfold f. simpl. rewrite (nth_lookup_Some _ _ _ _ Ep). done. }
  apply (StronglySorted_flip_rev
           (fun p1 p2 : nat * Q =>
              precedes lt (p2.1, Some p2.2) (p1.1, Some p1.2))).
  apply (StronglySorted_fmap f
           (fun a b => lex a b
                       /\ (R !! a.1 = Some (f a) /\ (f a).2 = a.2)
                       /\ (R !! b.1 = Some (f b) /\ (f b).2 = b.2))).
  - intros a b (Hlex & [Ha Hav] & [Hb Hbv]). unfold precedes. simpl.
    rewrite Hav, Hbv. destruct Hlex as [?|[Hq Hpos]]; [by left|right].
    split; [by symmetry|].
    apply (StronglySorted_lookup _ R a.1 b.1 (f a) (f b) HR Hpos Ha Hb).
  - apply StronglySorted_and_Forall; [apply isort_enumerate_lex|done].
Qed.

End NargsortOrder.

(** *** From the order of the positions to the rows of the result *)

Lemma precedes_descending tie (l : list (nat * float)) :
  StronglySorted (precedes tie) l -> descending_nan_last (map snd l).
Proof.
  induction 1 as [|a l Hs (qs & k & Heq & Hqs) Ha];
    [exists [], 0; split; [done|constructor]|].
  simpl. destruct a as [i [x|]]; simpl.
  - exists (x :: qs), k. rewrite Heq. split; [done|].
    constructor; [done|]. apply List.Forall_forall. intros y Hy. unfold flip.
    assert (In (Some y) (map snd l)) as Hin.
    { rewrite Heq. apply in_or_app. left. by apply in_map. }
    apply in_map_iff in Hin as ([j z] & Hz & Hb). simpl in Hz. subst z.
    rewrite List.Forall_forall in Ha. specialize (Ha _ Hb).
    unfold precedes in Ha. simpl in Ha.
    destruct Ha as [?|[Hxy _]]; [by apply Qlt_le_weak|].
    rewrite Hxy. apply Qle_refl.
  - destruct qs as [|y qs].
    + exists [], (S k). by rewrite Heq.
    + exfalso. assert (In (Some y) (map snd l)) as Hin by (rewrite Heq; by left).
      apply in_map_iff in Hin as ([j z] & Hz & Hb). simpl in Hz. subst z.
      rewrite List.Forall_forall in Ha. apply (Ha _ Hb).
Qed.

Lemma head_rows_take {A} n (l : list A) :
  head_rows n l
  = take (if (0 <=? n)%Z then Z.to_nat n else length l - Z.to_nat (- n)) l.
Proof. unfold head_rows. by destruct (0 <=? n)%Z. Qed.

Lemma head_rows_map {A B} (g : A -> B) n (l : list A) :
  head_rows n (map g l) = map g (head_rows n l).
Proof. by rewrite !head_rows_take, length_map, firstn_map. Qed.

Lemma omap_lookup_valid {A} (l : list A) (dflt : A) (idx : list nat) :
  Forall (fun i => i < length l) idx ->
  omap (fun i => l !! i) idx = map (fun i => nth i l dflt) idx.
Proof.
  induction 1 as [|i idx Hi _ IH]; simpl; [done|].
  destruct (lookup_lt_is_Some_2 l i Hi) as [x Hx].
  rewrite Hx, (nth_lookup_Some _ _ _ _ Hx). by rewrite <- IH.
Qed.

Section TopRatedOrder.

Variable str_to_float : string -> float.
Variable argsort : list Q -> list nat.

(** X21: the order of the top list, given that the sort of the library
    returns a sorted permutation of the positions.  On a Table with rows,
    the derived shelf lists and the columns Title, Author and My Rating,
    the result is a new frame with these three columns; its rows are
    records of the shelf, each at most once, with label, title and author
    as in the Table and the rating parsed; the ratings descend, the
    unparseable ones last and among themselves in Table order.  Nothing
    is said of the order of the records of equal rating, except that it
    is the Table order when the sort of the library does on the ratings
    of the shelf what the stable sort does. *)
Theorem top_rated_books_descending h self d shelf n :
  h !! df self = Some d -> normalized d -> rows d <> [] ->
  "Title" ∈ columns d -> "Author" ∈ columns d -> "My Rating" ∈ columns d ->
  sorts argsort (rev (dropna (shelf_ratings str_to_float shelf d))) ->
  exists l h' out idx,
    top_rated_books_on_shelf str_to_float argsort self shelf n h = (Ok l, h')
    /\ h' !! l = Some out
    /\ columns out = ["Title"; "Author"; "My Rating"]
    /\ Forall2 (fun i r =>
         exists r0, shelf_rows shelf d !! i = Some r0
           /\ label r = label r0
           /\ cell_of "Title" r = cell_of "Title" r0
           /\ cell_of "Author" r = cell_of "Author" r0
           /\ rating_of r = numeric str_to_float (cell_of "My Rating" r0))
         idx (rows out)
    /\ NoDup idx
    /\ map rating_of (rows out)
       = map snd (keyed (shelf_ratings str_to_float shelf d) idx)
    /\ descending_nan_last (map rating_of (rows out))
    /\ StronglySorted (precedes any_order)
         (keyed (shelf_ratings str_to_float shelf d) idx)
    /\ (argsort (rev (dropna (shelf_ratings str_to_float shelf d)))
        = stable_argsort (rev (dropna (shelf_ratings str_to_float shelf d))) ->
        StronglySorted (precedes lt)
          (keyed (shelf_ratings str_to_float shelf d) idx)).
Proof.
  intros E Hn Hr Ht Ha Hm Hsorts.
  destruct (top_rated_books_on_shelf_run str_to_float argsort h self d shelf n
              E Hn Hr Ht Ha Hm) as [h0 Hrun].
  set (ratings := shelf_ratings str_to_float shelf d) in *.
  set (rr := rated_rows str_to_float shelf d) in *.
  set (sel := shelf_rows shelf d) in *.
  set (ng := nargsort argsort ratings) in *.
  set (names := ["Title"; "Author"; "My Rating"]) in *.
  assert (length ratings = length sel) as Hlen1.
  { subst ratings. unfold shelf_ratings, to_numeric. by rewrite !length_map. }
  assert (length rr = length sel) as Hlen2.
  { subst rr. unfold rated_rows. by rewrite length_map. }
  pose proof (nargsort_perm argsort ratings Hsorts) as Hperm. fold ng in Hperm.
  assert (Forall (fun i => i < length rr) ng) as Hvalid.
  { rewrite Hperm, Hlen2, <- Hlen1. apply Forall_seq. intros; lia. }
  rewrite (omap_lookup_valid rr (Row 0 ∅) ng Hvalid), head_rows_map in Hrun.
  rewrite map_map in Hrun.
  set (idx := head_rows n ng) in *.
  assert (Forall (fun i => i < length sel) idx) as Hidx.
  { subst idx. rewrite head_rows_take. rewrite <- Hlen2.
    by apply Forall_take. }
  assert (forall i, i ∈ idx ->
            exists r0, sel !! i = Some r0
              /\ nth i rr (Row 0 ∅)
                 = set_cell "My Rating" r0
                     (float_cell (numeric str_to_float (cell_of "My Rating" r0)))
              /\ ratings !! i = Some (numeric str_to_float (cell_of "My Rating" r0)))
    as Hrow.
  { intros i Hi. rewrite Forall_forall in Hidx. specialize (Hidx i Hi).
    destruct (lookup_lt_is_Some_2 sel i Hidx) as [r0 Hr0]. exists r0.
    split; [done|]. split.
    - apply nth_lookup_Some. subst rr. unfold rated_rows. fold sel.
      change (map ?f sel) with (f <$> sel). by rewrite list_lookup_fmap, Hr0.
    - subst ratings. unfold shelf_ratings, to_numeric. fold sel.
      rewrite map_map. change (map ?f sel) with (f <$> sel).
      by rewrite list_lookup_fmap, Hr0. }
  eexists _, _, _, idx. split; [exact Hrun|].
  split; [apply lookup_new|]. split; [done|]. simpl.
  split; [|split; [|split; [|split; [|split]]]].
  - apply Forall2_fmap_r, Forall_Forall2_diag, Forall_forall. intros i Hi.
    unfold compose.
    destruct (Hrow i Hi) as (r0 & Hr0 & -> & _). exists r0.
    split; [done|]. split; [done|].
    unfold rating_of, names.
    rewrite !cell_of_project by (apply (bool_decide_unpack _); vm_compute; exact I).
    rewrite !cell_of_set_cell.
    repeat split; repeat (destruct (decide _); try done).
    apply cell_float_cell.
  - subst idx. rewrite head_rows_take.
    assert (NoDup ng) as Hnd by (rewrite Hperm; apply NoDup_seq).
    apply (sublist_NoDup _ ng Hnd), sublist_take.
  - unfold keyed. rewrite !map_map. apply map_ext_in.
    intros i Hi%list_elem_of_In. destruct (Hrow i Hi) as (r0 & Hr0 & -> & ->).
    simpl. unfold rating_of, names.
    rewrite cell_of_project by (apply (bool_decide_unpack _); vm_compute; exact I).
    rewrite cell_of_set_cell. destruct (decide _); [|done].
    apply cell_float_cell.
  - assert (map rating_of
              (map (fun x => project names (nth x rr (Row 0 ∅))) idx)
            = map snd (keyed ratings idx)) as ->.
    { unfold keyed. rewrite !map_map. apply map_ext_in.
      intros i Hi%list_elem_of_In. destruct (Hrow i Hi) as (r0 & Hr0 & -> & ->).
      simpl. unfold rating_of, names.
      rewrite cell_of_project by (apply (bool_decide_unpack _); vm_compute; exact I).
      rewrite cell_of_set_cell. destruct (decide _); [|done].
      apply cell_float_cell. }
    apply (precedes_descending any_order).
    subst idx. rewrite head_rows_take. unfold keyed. rewrite <- firstn_map.
    apply StronglySorted_take. by apply nargsort_any_order.
  - subst idx. rewrite head_rows_take. unfold keyed. rewrite <- firstn_map.
    apply StronglySorted_take. by apply nargsort_any_order.
  - intros Hstable. subst idx. rewrite head_rows_take. unfold keyed.
    rewrite <- firstn_map. apply StronglySorted_take. by apply nargsort_stable.
Qed.

End TopRatedOrder.

Lemma top_rated_books_descending_witness :
  exists l h' out idx,
    top_rated_books_on_shelf no_float stable_argsort (session rated).1 "read" 5
      (session rated).2 = (Ok l, h')
    /\ h' !! l = Some out
    /\ columns out = ["Title"; "Author"; "My Rating"]
    /\ Forall2 (fun i r =>
         exists r0, shelf_rows "read" (table_of (session rated)) !! i = Some r0
           /\ label r = label r0
           /\ cell_of "Title" r = cell_of "Title" r0
           /\ cell_of "Author" r = cell_of "Author" r0
           /\ rating_of r = numeric no_float (cell_of "My Rating" r0))
         idx (rows out)
    /\ NoDup idx
    /\ map rating_of (rows out)
       = map snd (keyed (shelf_ratings no_float "read" (table_of (session rated))) idx)
    /\ descending_nan_last (map rating_of (rows out))
    /\ StronglySorted (precedes any_order)
         (keyed (shelf_ratings no_float "read" (table_of (session rated))) idx)
    /\ (stable_argsort
          (rev (dropna (shelf_ratings no_float "read" (table_of (session rated)))))
        = stable_argsort
            (rev (dropna (shelf_ratings no_float "read" (table_of (session rated))))) ->
        StronglySorted (precedes lt)
          (keyed (shelf_ratings no_float "read" (table_of (session rated))) idx)).
Proof.
  apply (top_rated_books_descending no_float stable_argsort (session rated).2
           (session rated).1 (table_of (session rated)) "read" 5).
  - vm_compute. reflexivity.
  - split.
    + apply (bool_decide_unpack _). vm_compute. exact I.
    + repeat constructor; eexists; vm_compute; reflexivity.
  - vm_compute. discriminate.
  - apply (bool_decide_unpack _). vm_compute. exact I.
  - apply (bool_decide_unpack _). vm_compute. exact I.
  - apply (bool_decide_unpack _). vm_compute. exact I.
  - apply stable_argsort_sorts.
Defined.

Example top_rated_books_rated :
  exists l h out,
    top_rated_books_on_shelf no_float stable_argsort (session rated).1 "read" 5
      (session rated).2 = (Ok l, h)
    /\ h !! l = Some out
    /\ map (cell_of "Title") (rows out) = [Str "A"; Str "B"; Str "E"; Str "C"]
    /\ map rating_of (rows out) = [Some 5%Q; Some 5%Q; Some 4%Q; None].
Proof. do 3 eexists. repeat split; vm_compute; reflexivity. Qed.

(** The contract [sorts] alone does not decide the order of equal
    ratings: [reversing_argsort] meets it on every input, and with it the
    two books rated 5 stand B before A.  This is a fact about the
    contract, not about the sort that numpy runs on this table. *)
Lemma equal_ratings_against_table_order :
  exists argsort,
    (forall vals, sorts argsort vals)
    /\ exists l h out,
         top_rated_books_on_shelf no_float argsort (session rated).1 "read" 5
           (session rated).2 = (Ok l, h)
         /\ h !! l = Some out
         /\ map label (rows out) = [1; 0; 4; 2]
         /\ map (cell_of "Title") (rows out) = [Str "B"; Str "A"; Str "E"; Str "C"]
         /\ map rating_of (rows out) = [Some 5%Q; Some 5%Q; Some 4%Q; None].
Proof.
  exists reversing_argsort. split; [apply reversing_argsort_sorts|].
  do 3 eexists. repeat split; vm_compute; reflexivity.
Qed.

(** * Part IV: further properties of the class *)

(** ** Evaluating the hypotheses on an example table *)

Ltac by_decide := apply (bool_decide_unpack _); vm_compute; exact I.

Ltac textual_rows :=
  repeat (apply List.Forall_cons;
          [first [left; vm_compute; reflexivity
                 |right; eexists; vm_compute; reflexivity]|]);
  apply List.Forall_nil.

Ltac absent_column H :=
  apply (bool_decide_pack _) in H; vm_compute in H; destruct H.


Ltac normalized_table :=
  split; [by_decide|repeat constructor; eexists; vm_compute; reflexivity].

(** ** Construction leaves the caller's frames alone *)

Lemma keeps_has_column h0 l name : keeps h0 (has_column l name) (fun _ => True).
Proof. unfold has_column. keeps_bind (fun _ : DataFrame => True); auto with keeps. Qed.

Lemma keeps_copy h0 l : keeps h0 (copy l) (fresh h0).
Proof. unfold copy. keeps_bind (fun _ : DataFrame => True); auto with keeps. Qed.

Lemma keeps_clean_column h0 l raw_name name (f : cell -> outcome cell) :
  fresh h0 l ->
  keeps h0 (b ← has_column l raw_name;
            if b : bool then
              s ← getitem l raw_name;
              v ← lift (apply f (fillna (Str "") s));
              setitem l name v
            else mret tt) (fun _ => True).
Proof.
  intros Hl.
  keeps_bind (fun _ : bool => True); [apply keeps_has_column|].
  destruct a; [|auto with keeps].
  keeps_bind (fun _ : list cell => True); [auto with keeps|].
  keeps_bind (fun _ : list cell => True); auto with keeps.
Qed.

Lemma keeps__clean_bookshelves h0 l :
  fresh h0 l -> keeps h0 (_clean_bookshelves {| df := l |}) (fun _ => True).
Proof.
  intros Hl. unfold _clean_bookshelves. simpl.
  keeps_bind (fun _ : bool => True); [apply keeps_has_column|].
  keeps_bind (fun _ : unit => True).
  { destruct a; [|auto with keeps].
    keeps_bind (fun _ : list cell => True); [auto with keeps|].
    keeps_bind (fun _ : list cell => True); auto with keeps. }
  by apply keeps_clean_column.
Qed.

Section ConstructionFrames.

Variable read_csv : string -> outcome DataFrame.

Lemma keeps___init__ h0 src :
  keeps h0 (__init__ read_csv src) (fun self => fresh h0 (df self)).
Proof.
  unfold __init__.
  keeps_bind (fresh h0).
  { destruct src; [|apply keeps_copy|auto with keeps].
    keeps_bind (fun _ : DataFrame => True); auto with keeps. }
  keeps_bind (fun _ : unit => True); [by apply keeps__clean_bookshelves|].
  by apply keeps_ret.
Qed.

(** X1: [__init__] works on a copy.  Whatever it is given, and whether it
    returns or raises, every frame that existed before the call, the
    caller's [data_source] among them, has the rows and columns it had;
    the table of the new session is an object that did not exist
    before. *)
Theorem construction_keeps_frames src h :
  frames_kept h (__init__ read_csv src h).2
  /\ forall self, (__init__ read_csv src h).1 = Ok self -> fresh h (df self).
Proof.
  split.
  - eapply keeps_frames_kept, keeps___init__.
  - apply (keeps___init__ h src h). reflexivity.
Qed.

Lemma __init___path_run h0 p d0 :
  read_csv p = Ok d0 ->
  ("Bookshelves" ∈ columns d0 -> Forall (textual "Bookshelves") (rows d0)) ->
  ("Bookshelves with positions" ∈ columns d0 ->
   Forall (textual "Bookshelves with positions") (rows d0)) ->
  __init__ read_csv (Path p) h0
  = (Ok {| df := length h0 |}, h0 ++ [cleaned d0]).
Proof.
  intros E H1 H2. unfold __init__.
  erewrite bind_ok;
    [|erewrite bind_ok; [|rewrite lift_run, E; reflexivity]; reflexivity].
  erewrite bind_ok; [|by apply (_clean_bookshelves_run _ _ d0); [apply lookup_new|..]].
  rewrite insert_app_r_alt, Nat.sub_diag by done. done.
Qed.

(** X2: a file path and a frame give the same session.  When [read_csv]
    returns for the path a frame equal to the one at [src], [__init__] on
    the path and [__init__] on [src] both succeed, and the tables of the
    two sessions are equal: the normalized copy of that frame. *)
Theorem construction_from_path h0 p src d0 :
  read_csv p = Ok d0 ->
  h0 !! src = Some d0 ->
  ("Bookshelves" ∈ columns d0 -> Forall (textual "Bookshelves") (rows d0)) ->
  ("Bookshelves with positions" ∈ columns d0 ->
   Forall (textual "Bookshelves with positions") (rows d0)) ->
  exists self1 h1 self2 h2 d,
    __init__ read_csv (Path p) h0 = (Ok self1, h1)
    /\ __init__ read_csv (Table src) h0 = (Ok self2, h2)
    /\ h1 !! df self1 = Some d /\ h2 !! df self2 = Some d
    /\ d = cleaned d0.
Proof.
  intros Ep E H1 H2. do 5 eexists.
  split; [by apply __init___path_run|].
  split; [by eapply __init___run|].
  simpl. rewrite lookup_new. done.
Qed.

(** X4: a shelf column that was read as numbers.  If some cell of the
    [Bookshelves] column is neither text nor missing and is truthy (a
    number other than 0), [x.split] fails on it: [__init__] raises
    [AttributeError], and the copy it made is left without the derived
    columns. *)
Theorem construction_rejects_numeric_shelves h0 src d0 r :
  h0 !! src = Some d0 ->
  "Bookshelves" ∈ columns d0 ->
  r ∈ rows d0 ->
  ~ textual "Bookshelves" r ->
  truthy (cell_of "Bookshelves" r) = true ->
  __init__ read_csv (Table src) h0 = (Raise AttributeError, h0 ++ [d0]).
Proof.
  intros E Hc Hr Ht Hy. unfold __init__.
  erewrite bind_ok; [|unfold copy; step (read_run _ _ _ E); reflexivity].
  pose proof (lookup_new h0 d0) as E'.
  erewrite bind_raise; [done|].
  unfold _clean_bookshelves. simpl.
  step (has_column_run _ _ _ "Bookshelves" E'). rewrite (bool_decide_true _ Hc).
  erewrite bind_raise; [done|].
  step (getitem_run _ _ _ _ E' Hc).
  erewrite bind_raise; [done|]. rewrite lift_run. f_equal.
  apply apply_raise; [apply split_shelves_outcome|].
  unfold fillna. rewrite map_map. apply Exists_exists.
  exists (fill (Str "") (cell_of "Bookshelves" r)). split.
  - apply list_elem_of_fmap. by exists r.
  - unfold split_shelves, textual in *.
    destruct (cell_of "Bookshelves" r) as [|x|q|l]; simpl in *.
    + by destruct Ht; left.
    + destruct Ht. right. by eexists.
    + by rewrite Hy.
    + by rewrite Hy.
Qed.

Lemma with_column_columns name f d c :
  c ∈ columns (with_column name f d) <-> c ∈ columns d \/ c = name.
Proof.
  unfold with_column. simpl. case_bool_decide.
  - split; [by left|]. by intros [?| ->].
  - by rewrite elem_of_app, list_elem_of_singleton.
Qed.

Lemma with_column_prefix name f d :
  columns d `prefix_of` columns (with_column name f d).
Proof.
  unfold with_column. simpl. case_bool_decide; [done|]. by apply prefix_app_r.
Qed.

Lemma cleaned_columns d :
  columns d `prefix_of` columns (cleaned d)
  /\ forall c, c ∈ columns (cleaned d) <->
       c ∈ columns d
       \/ (c = "bookshelves_list" /\ "Bookshelves" ∈ columns d)
       \/ (c = "bookshelves_positions_list"
           /\ "Bookshelves with positions" ∈ columns d).
Proof.
  unfold cleaned.
  destruct (bool_decide ("Bookshelves" ∈ columns d)) eqn:E1;
    [apply bool_decide_eq_true in E1|apply bool_decide_eq_false in E1].
  - set (d1 := with_column "bookshelves_list" _ d).
    assert ("Bookshelves with positions" ∈ columns d1
            <-> "Bookshelves with positions" ∈ columns d) as Hiff.
    { subst d1. rewrite with_column_columns. split; [by intros [?|?]|by left]. }
    case_bool_decide as E2; [rewrite Hiff in E2|rewrite Hiff in E2].
    + split.
      * etransitivity; [|apply with_column_prefix]. apply with_column_prefix.
      * intros c. rewrite with_column_columns. subst d1.
        rewrite with_column_columns. tauto.
    + split; [apply with_column_prefix|].
      intros c. subst d1. rewrite with_column_columns. tauto.
  - case_bool_decide as E2.
    + split; [apply with_column_prefix|].
      intros c. rewrite with_column_columns. tauto.
    + split; [done|]. tauto.
Qed.

Lemma cleaned_cells d :
  exists f, rows (cleaned d) = map f (rows d)
    /\ (forall r, label (f r) = label r)
    /\ (forall r name, name <> "bookshelves_list" ->
          name <> "bookshelves_positions_list" -> cell_of name (f r) = cell_of name r)
    /\ (forall r, "Bookshelves with positions" ∈ columns d ->
          cell_of "bookshelves_positions_list" (f r)
          = Lst (normalize_positions (raw "Bookshelves with positions" r)))
    /\ (forall r, "Bookshelves with positions" ∉ columns d ->
          cell_of "bookshelves_positions_list" (f r)
          = cell_of "bookshelves_positions_list" r)
    /\ (forall r, "Bookshelves" ∉ columns d ->
          cell_of "bookshelves_list" (f r) = cell_of "bookshelves_list" r).
Proof.
  unfold cleaned.
  destruct (bool_decide ("Bookshelves" ∈ columns d)) eqn:E1;
    [apply bool_decide_eq_true in E1|apply bool_decide_eq_false in E1].
  - set (d1 := with_column "bookshelves_list" _ d).
    assert ("Bookshelves with positions" ∈ columns d1
            <-> "Bookshelves with positions" ∈ columns d) as Hiff.
    { subst d1. rewrite with_column_columns. split; [by intros [?|?]|by left]. }
    case_bool_decide as E2; rewrite Hiff in E2; subst d1;
      unfold with_column; simpl; rewrite ?map_map;
      (eexists; split; [reflexivity|]); simpl;
      repeat split; intros; rewrite ?cell_of_set_cell;
      repeat (destruct (decide _); try done).
    all: by rewrite ?raw_set_cell.
  - case_bool_decide as E2;
      unfold with_column; simpl; rewrite ?map_map;
      (eexists; split; [first [reflexivity|symmetry; apply List.map_id]|]); simpl;
      repeat split; intros; rewrite ?cell_of_set_cell;
      repeat (destruct (decide _); try done).
  all: exfalso; tauto.
Qed.

(** X3: what normalization leaves alone.  On a source whose shelf columns
    hold text or missing values, [__init__] succeeds; the table has the
    rows of the source in their order, each with its index label and with
    every cell of every column other than the two derived ones unchanged;
    the columns of the source come first, in their order, and the only
    columns added are the derived ones, each exactly when its raw column
    is there; the cell of [bookshelves_positions_list] is the list made
    of the raw text with positions. *)
Theorem construction_keeps_cells h0 src d0 :
  h0 !! src = Some d0 ->
  ("Bookshelves" ∈ columns d0 -> Forall (textual "Bookshelves") (rows d0)) ->
  ("Bookshelves with positions" ∈ columns d0 ->
   Forall (textual "Bookshelves with positions") (rows d0)) ->
  exists self h d,
    __init__ read_csv (Table src) h0 = (Ok self, h)
    /\ h !! df self = Some d
    /\ Forall2 (fun r0 r =>
         label r = label r0
         /\ (forall name, name <> "bookshelves_list" ->
               name <> "bookshelves_positions_list" ->
               cell_of name r = cell_of name r0)
         /\ ("Bookshelves with positions" ∈ columns d0 ->
             cell_of "bookshelves_positions_list" r
             = Lst (normalize_positions (raw "Bookshelves with positions" r0)))
         /\ ("Bookshelves with positions" ∉ columns d0 ->
             cell_of "bookshelves_positions_list" r
             = cell_of "bookshelves_positions_list" r0)
         /\ ("Bookshelves" ∉ columns d0 ->
             cell_of "bookshelves_list" r = cell_of "bookshelves_list" r0))
         (rows d0) (rows d)
    /\ columns d0 `prefix_of` columns d
    /\ (forall c, c ∈ columns d <->
          c ∈ columns d0
          \/ (c = "bookshelves_list" /\ "Bookshelves" ∈ columns d0)
          \/ (c = "bookshelves_positions_list"
              /\ "Bookshelves with positions" ∈ columns d0)).
Proof.
  intros E H1 H2. do 3 eexists.
  split; [by eapply __init___run|].
  split; [simpl; apply lookup_new|].
  destruct (cleaned_columns d0) as [Hp Hc].
  split; [|done].
  destruct (cleaned_cells d0) as (f & -> & Hl & Ho & Hp1 & Hp2 & Hb).
  apply Forall2_fmap_r, Forall_Forall2_diag, Forall_forall. intros r _.
  unfold compose. repeat split; auto.
Qed.

End ConstructionFrames.

Lemma construction_from_path_witness :
  exists self1 h1 self2 h2 d,
    __init__ one_csv (Path "books.csv") [nyc] = (Ok self1, h1)
    /\ __init__ one_csv (Table 0) [nyc] = (Ok self2, h2)
    /\ h1 !! df self1 = Some d /\ h2 !! df self2 = Some d
    /\ d = cleaned nyc.
Proof.
  apply (construction_from_path one_csv [nyc] "books.csv" 0 nyc).
  - reflexivity.
  - reflexivity.
  - intros _. textual_rows.
  - intros H. absent_column H.
Defined.

Lemma construction_rejects_numeric_shelves_witness :
  __init__ no_csv (Table 0) [numeric_shelves]
  = (Raise AttributeError, [numeric_shelves] ++ [numeric_shelves]).
Proof.
  apply (construction_rejects_numeric_shelves no_csv [numeric_shelves] 0
           numeric_shelves
           (mk_row 1 [("Title", Str "B"); ("Bookshelves", Num 2024)])).
  - reflexivity.
  - by_decide.
  - apply list_elem_of_further, list_elem_of_here.
  - intros [H|[s H]]; vm_compute in H; discriminate H.
  - vm_compute. reflexivity.
Defined.

Lemma construction_keeps_cells_witness :
  exists self h d,
    __init__ no_csv (Table 0) [with_positions] = (Ok self, h)
    /\ h !! df self = Some d
    /\ Forall2 (fun r0 r =>
         label r = label r0
         /\ (forall name, name <> "bookshelves_list" ->
               name <> "bookshelves_positions_list" ->
               cell_of name r = cell_of name r0)
         /\ ("Bookshelves with positions" ∈ columns with_positions ->
             cell_of "bookshelves_positions_list" r
             = Lst (normalize_positions (raw "Bookshelves with positions" r0)))
         /\ ("Bookshelves with positions" ∉ columns with_positions ->
             cell_of "bookshelves_positions_list" r
             = cell_of "bookshelves_positions_list" r0)
         /\ ("Bookshelves" ∉ columns with_positions ->
             cell_of "bookshelves_list" r = cell_of "bookshelves_list" r0))
         (rows with_positions) (rows d)
    /\ columns with_positions `prefix_of` columns d
    /\ (forall c, c ∈ columns d <->
          c ∈ columns with_positions
          \/ (c = "bookshelves_list" /\ "Bookshelves" ∈ columns with_positions)
          \/ (c = "bookshelves_positions_list"
              /\ "Bookshelves with positions" ∈ columns with_positions)).
Proof.
  apply (construction_keeps_cells no_csv [with_positions] 0 with_positions).
  - reflexivity.
  - intros _. textual_rows.
  - intros _. textual_rows.
Defined.

(** The table of the session built from [with_positions]. *)
Example construction_with_positions :
  map (cell_of "bookshelves_positions_list") (rows (table_of (session with_positions)))
  = [Lst ["nyc"; "read"]; Lst []]
  /\ map label (rows (table_of (session with_positions))) = [7; 3]
  /\ columns (table_of (session with_positions))
     = ["Title"; "Bookshelves"; "Bookshelves with positions"; "bookshelves_list";
        "bookshelves_positions_list"].
Proof. repeat split; vm_compute; reflexivity. Qed.

(** ** Shelf queries *)

Lemma filter_sublist {A} (p : A -> bool) (l : list A) :
  List.filter p l `sublist_of` l.
Proof.
  induction l as [|x l IH]; simpl; [constructor|].
  destruct (p x); by constructor.
Qed.

Lemma filter_length_all {A} (p : A -> bool) (l : list A) :
  length (List.filter p l) = length l <-> Forall (fun x => p x = true) l.
Proof.
  induction l as [|x l IH]; simpl; [by split; [constructor|]|].
  pose proof (List.filter_length_le p l) as Hle.
  destruct (p x) eqn:E; simpl.
  - split.
    + intros [= H]. apply List.Forall_cons; [done|by apply IH].
    + intros H. apply Forall_cons_1 in H as [_ H]. f_equal. by apply IH.
  - split; [lia|]. intros H. apply Forall_cons_1 in H as [H _]. congruence.
Qed.

Lemma filter_length_none {A} (p : A -> bool) (l : list A) :
  length (List.filter p l) = 0 <-> Forall (fun x => p x = false) l.
Proof.
  induction l as [|x l IH]; simpl; [by split; [constructor|]|].
  destruct (p x) eqn:E; simpl.
  - split; [done|]. intros H. apply Forall_cons_1 in H as [H _]. congruence.
  - rewrite IH. split.
    + intros H. by apply List.Forall_cons.
    + intros H. by apply Forall_cons_1 in H as [_ H].
Qed.

Lemma ratio_bounds n m :
  n <= m -> m <> 0 ->
  (0 <= inject_Z (Z.of_nat n) / inject_Z (Z.of_nat m) * 100 <= 100)%Q.
Proof.
  intros Hle Hm.
  assert (0 < inject_Z (Z.of_nat m))%Q as Hpos.
  { change 0%Q with (inject_Z 0). rewrite <- Zlt_Qlt. lia. }
  assert (0 <= inject_Z (Z.of_nat n))%Q as Hn.
  { change 0%Q with (inject_Z 0). rewrite <- Zle_Qle. lia. }
  assert (inject_Z (Z.of_nat n) <= inject_Z (Z.of_nat m))%Q as Hnm.
  { rewrite <- Zle_Qle. lia. }
  split.
  - apply Qmult_le_0_compat; [|done].
    apply Qle_shift_div_l; [done|]. by rewrite Qmult_0_l.
  - apply Qle_trans with (1 * 100)%Q; [|done].
    apply Qmult_le_compat_r; [|done].
    apply Qle_shift_div_r; [done|]. by rewrite Qmult_1_l.
Qed.

Lemma ratio_full n m :
  m <> 0 ->
  (inject_Z (Z.of_nat n) / inject_Z (Z.of_nat m) * 100 == 100)%Q <-> n = m.
Proof.
  intros Hm. pose proof (inject_nat_nonzero m Hm) as Hnz. split.
  - intros H.
    assert (inject_Z (Z.of_nat n) / inject_Z (Z.of_nat m) == 1)%Q as H1.
    { apply (Qmult_inj_r _ _ 100); [done|]. by rewrite H. }
    assert (inject_Z (Z.of_nat n) == inject_Z (Z.of_nat m))%Q as H2.
    { rewrite <- (Qmult_div_r (inject_Z (Z.of_nat n)) (inject_Z (Z.of_nat m))) by done.
      rewrite H1. ring. }
    pose proof (proj1 (inject_Z_injective _ _) H2). lia.
  - intros ->. by field.
Qed.

Lemma ratio_zero n m :
  m <> 0 ->
  (inject_Z (Z.of_nat n) / inject_Z (Z.of_nat m) * 100 == 0)%Q <-> n = 0.
Proof.
  intros Hm. pose proof (inject_nat_nonzero m Hm) as Hnz. split.
  - intros H.
    assert (inject_Z (Z.of_nat n) / inject_Z (Z.of_nat m) == 0)%Q as H1.
    { apply (Qmult_inj_r _ _ 100); [done|]. by rewrite H. }
    assert (inject_Z (Z.of_nat n) == 0)%Q as H2.
    { rewrite <- (Qmult_div_r (inject_Z (Z.of_nat n)) (inject_Z (Z.of_nat m))) by done.
      rewrite H1. ring. }
    change 0%Q with (inject_Z 0) in H2.
    pose proof (proj1 (inject_Z_injective _ _) H2). lia.
  - intros ->. simpl. by field.
Qed.

(** X7: the overlap is a percentage.  On a normalized Table the result of
    [shelf_overlap_percentage] lies between 0 and 100; it is 100 exactly
    when some record is on [shelf1] and every record on [shelf1] is on
    [shelf2] too, and 0 exactly when no record is on both shelves. *)
Theorem shelf_overlap_percentage_bounds h self d shelf1 shelf2 :
  h !! df self = Some d -> normalized d ->
  exists q,
    (shelf_overlap_percentage self shelf1 shelf2 h).1 = Ok q
    /\ (0 <= q <= 100)%Q
    /\ ((q == 100)%Q <->
        (exists r, r ∈ rows d /\ on_shelf shelf1 r)
        /\ forall r, r ∈ rows d -> on_shelf shelf1 r -> on_shelf shelf2 r)
    /\ ((q == 0)%Q <->
        forall r, r ∈ rows d -> on_shelf shelf1 r -> ~ on_shelf shelf2 r).
Proof.
  intros E Hn. eexists.
  split; [by apply shelf_overlap_percentage_run|].
  set (s1 := shelf_rows shelf1 d).
  pose proof (List.filter_length_le (on_shelfb shelf2) s1) as Hle.
  assert (forall P : row -> Prop,
            Forall P s1 <-> forall r, r ∈ rows d -> on_shelf shelf1 r -> P r) as Hall.
  { intros P. rewrite Forall_forall. split.
    - intros H r Hr Hs. apply H. by apply elem_of_shelf_rows.
    - intros H r Hr. apply elem_of_shelf_rows in Hr as [? ?]. by apply H. }
  destruct (length s1 =? 0) eqn:E1.
  - apply Nat.eqb_eq, length_zero_iff_nil in E1.
    pose proof (proj1 (shelf_rows_nil shelf1 d) E1) as Hnone.
    split; [done|]. split.
    + split; [done|]. intros [[r [Hr Hs]] _]. by destruct (Hnone r Hr).
    + split; [|done]. intros _ r Hr Hs. by destruct (Hnone r Hr).
  - apply Nat.eqb_neq in E1.
    split; [by apply ratio_bounds|]. split.
    + rewrite (ratio_full _ _ E1), filter_length_all, Hall.
      split.
      * intros H. split.
        -- destruct s1 as [|r s1'] eqn:Es; [done|].
           exists r. apply elem_of_shelf_rows. fold s1. rewrite Es. by left.
        -- intros r Hr Hs. by apply on_shelfb_spec, H.
      * intros [_ H] r Hr Hs. by apply on_shelfb_spec, H.
    + rewrite (ratio_zero _ _ E1), filter_length_none, Hall.
      split.
      * intros H r Hr Hs Hs2. apply on_shelfb_spec in Hs2.
        by rewrite (H r Hr Hs) in Hs2.
      * intros H r Hr Hs. destruct (on_shelfb shelf2 r) eqn:Eb; [|done].
        apply on_shelfb_spec in Eb. by destruct (H r Hr Hs).
Qed.

Lemma shelf_overlap_percentage_bounds_witness :
  exists q,
    (shelf_overlap_percentage (session nyc).1 "NYC" "read" (session nyc).2).1 = Ok q
    /\ (0 <= q <= 100)%Q
    /\ ((q == 100)%Q <->
        (exists r, r ∈ rows (table_of (session nyc)) /\ on_shelf "NYC" r)
        /\ forall r, r ∈ rows (table_of (session nyc)) ->
             on_shelf "NYC" r -> on_shelf "read" r)
    /\ ((q == 0)%Q <->
        forall r, r ∈ rows (table_of (session nyc)) ->
          on_shelf "NYC" r -> ~ on_shelf "read" r).
Proof.
  apply (shelf_overlap_percentage_bounds (session nyc).2 (session nyc).1
           (table_of (session nyc)) "NYC" "read").
  - vm_compute. reflexivity.
  - normalized_table.
Defined.

(** [c.lower().lower() == c.lower()] *)
Lemma lower_char_idempotent c : Str.lower_char (Str.lower_char c) = Str.lower_char c.
Proof. StrFacts.ascii_cases c; reflexivity. Qed.

Lemma lower_idempotent s : Str.lower (Str.lower s) = Str.lower s.
Proof.
  induction s as [|c t IH]; simpl; [done|].
  by rewrite lower_char_idempotent, IH.
Qed.

Section IgnoreCase.

Variable str_to_float : string -> float.
Variable argsort : list Q -> list nat.

(** X9: the shelf argument is read without regard to case.  Two shelf
    names with the same lower-case form, as a name and its own lower-case
    form are, give the same result and the same heap in every query that
    takes a shelf name. *)
Theorem queries_ignore_case self shelf shelf' h :
  Str.lower shelf = Str.lower shelf' ->
  Str.lower (Str.lower shelf) = Str.lower shelf
  /\ get_shelf_books self shelf h = get_shelf_books self shelf' h
  /\ (forall other,
        shelf_overlap_percentage self shelf other h
        = shelf_overlap_percentage self shelf' other h
        /\ shelf_overlap_percentage self other shelf h
           = shelf_overlap_percentage self other shelf' h)
  /\ (forall only_read,
        average_pages_on_shelf str_to_float self shelf only_read h
        = average_pages_on_shelf str_to_float self shelf' only_read h)
  /\ (forall n,
        top_rated_books_on_shelf str_to_float argsort self shelf n h
        = top_rated_books_on_shelf str_to_float argsort self shelf' n h).
Proof.
  intros H. split; [apply lower_idempotent|].
  unfold top_rated_books_on_shelf, average_pages_on_shelf,
    shelf_overlap_percentage, get_shelf_books, in_shelf, any_shelf.
  rewrite H. done.
Qed.

End IgnoreCase.

Lemma queries_ignore_case_witness :
  Str.lower (Str.lower "NYC") = Str.lower "NYC"
  /\ get_shelf_books (session nyc).1 "NYC" (session nyc).2
     = get_shelf_books (session nyc).1 (Str.lower "NYC") (session nyc).2
  /\ (forall other,
        shelf_overlap_percentage (session nyc).1 "NYC" other (session nyc).2
        = shelf_overlap_percentage (session nyc).1 (Str.lower "NYC") other
            (session nyc).2
        /\ shelf_overlap_percentage (session nyc).1 other "NYC" (session nyc).2
           = shelf_overlap_percentage (session nyc).1 other (Str.lower "NYC")
               (session nyc).2)
  /\ (forall only_read,
        average_pages_on_shelf no_float (session nyc).1 "NYC" only_read
          (session nyc).2
        = average_pages_on_shelf no_float (session nyc).1 (Str.lower "NYC")
            only_read (session nyc).2)
  /\ (forall n,
        top_rated_books_on_shelf no_float stable_argsort (session nyc).1 "NYC" n
          (session nyc).2
        = top_rated_books_on_shelf no_float stable_argsort (session nyc).1
            (Str.lower "NYC") n (session nyc).2).
Proof.
  apply (queries_ignore_case no_float stable_argsort (session nyc).1 "NYC"
           (Str.lower "NYC") (session nyc).2).
  reflexivity.
Defined.

(** X10: what [get_shelf_books] returns.  On a normalized Table it returns
    a new frame; a record is in it exactly when it is in the Table and one
    of its shelf names equals the argument up to case; the records stand
    in Table order, none repeated or invented; on a Table with rows the
    frame has the columns of the Table. *)
Theorem get_shelf_books_spec h self d shelf :
  h !! df self = Some d -> normalized d ->
  exists out,
    get_shelf_books self shelf h = (Ok (length h), h ++ [out])
    /\ (forall r, r ∈ rows out <-> r ∈ rows d /\ on_shelf shelf r)
    /\ rows out `sublist_of` rows d
    /\ (rows d <> [] -> columns out = columns d).
Proof.
  intros E Hn. eexists. split; [by apply get_shelf_books_run|].
  rewrite selected_rows. fold (shelf_rows shelf d).
  split; [intros r; apply elem_of_shelf_rows|].
  split; [apply filter_sublist|].
  apply selected_columns_rows.
Qed.

Lemma get_shelf_books_spec_witness :
  exists out,
    get_shelf_books (session nyc).1 "Read" (session nyc).2
    = (Ok (length (session nyc).2), (session nyc).2 ++ [out])
    /\ (forall r, r ∈ rows out <->
          r ∈ rows (table_of (session nyc)) /\ on_shelf "Read" r)
    /\ rows out `sublist_of` rows (table_of (session nyc))
    /\ (rows (table_of (session nyc)) <> [] ->
        columns out = columns (table_of (session nyc))).
Proof.
  apply (get_shelf_books_spec (session nyc).2 (session nyc).1
           (table_of (session nyc)) "Read").
  - vm_compute. reflexivity.
  - normalized_table.
Defined.

(** ** Bounds of the statistics *)










Section PageBounds.

Variable str_to_float : string -> float.





End PageBounds.


Example average_pages_three_on_x :
  (average_pages_on_shelf no_float (session three_on_x).1 "x" false
     (session three_on_x).2).1
  = Ok (Some (600 / 3)%Q,
        Pages.Stats (Some 100%Q) (Some 300%Q) (Some 200%Q) 3 600%Q).
Proof. vm_compute. reflexivity. Qed.


(** With [only_read] the selection of [no_pages] has a record and the
    method raises; shelf "y" has none and the zero statistics come
    back. *)
Example average_pages_no_pages :
  (average_pages_on_shelf no_float (session no_pages).1 "x" true
     (session no_pages).2).1
  = Raise (KeyError "Number of Pages")
  /\ (average_pages_on_shelf no_float (session no_pages).1 "y" false
        (session no_pages).2).1
     = Ok (Some 0%Q, Pages.Stats (Some 0%Q) (Some 0%Q) (Some 0%Q) 0 0%Q).
Proof. split; vm_compute; reflexivity. Qed.

(** ** Invariants of the reading statistics *)






Section ReadingBounds.

Variable str_to_float : string -> float.


End ReadingBounds.


(** ** How many books the top list has *)

Lemma omap_lookup_nil {A} (idx : list nat) :
  omap (fun i => @nil A !! i) idx = [].
Proof. induction idx as [|i idx IH]; [done|]. simpl. by destruct i. Qed.


Lemma head_rows_length {A} n (l : list A) :
  length (head_rows n l)
  = if (0 <=? n)%Z then Nat.min (Z.to_nat n) (length l)
    else length l - Z.to_nat (- n).
Proof.
  unfold head_rows. destruct (0 <=? n)%Z; rewrite length_take; lia.
Qed.


Section TopRatedSize.

Variable str_to_float : string -> float.
Variable argsort : list Q -> list nat.

(** The rows that [sort_values] has put in order are the rows it was
    given. *)
Lemma nargsort_rows {A} (rr : list A) keys :
  length rr = length keys ->
  sorts argsort (rev (dropna keys)) ->
  Permutation (omap (fun i => rr !! i) (nargsort argsort keys)) rr.
Proof.
  intros Hl Hs. pose proof (nargsort_perm argsort keys Hs) as Hp.
  destruct rr as [|r0 rr'] eqn:Er.
  { by rewrite omap_lookup_nil. }
  rewrite <- Er in *. rewrite (omap_lookup_valid rr r0).
  - apply permutation_of_positions. by rewrite Hl.
  - apply Forall_forall. intros i Hi.
    apply list_elem_of_In in Hi. apply (Permutation_in _ Hp) in Hi.
    apply in_seq in Hi. lia.
Qed.

Lemma rated_rows_length shelf d :
  length (rated_rows str_to_float shelf d)
  = length (shelf_ratings str_to_float shelf d).
Proof. unfold rated_rows, shelf_ratings, to_numeric. by rewrite !length_map. Qed.

(** The method up to the test [top_books.empty]. *)
Lemma top_rated_books_on_shelf_steps h self d shelf n :
  h !! df self = Some d -> normalized d -> rows d <> [] ->
  "My Rating" ∈ columns d ->
  let top := head_rows n
               (omap (fun i => rated_rows str_to_float shelf d !! i)
                  (nargsort argsort (shelf_ratings str_to_float shelf d))) in
  exists l h',
    h' !! l = Some (Frame (columns d) top)
    /\ top_rated_books_on_shelf str_to_float argsort self shelf n h
       = (if length top =? 0 then new_frame ["Title"; "Author"; "My Rating"]
          else getitem_columns l ["Title"; "Author"; "My Rating"]) h'.
Proof.
  intros E Hn Hr Hm top. unfold top_rated_books_on_shelf.
  step (get_shelf_books_run _ _ _ shelf E Hn).
  set (s1 := selected (on_shelfb shelf) d).
  assert (columns s1 = columns d) as Hc1 by by apply selected_columns_rows.
  assert (rows s1 = shelf_rows shelf d) as Hr1 by apply selected_rows.
  erewrite bind_ok;
    [|apply (getitem_run _ _ s1); [apply lookup_new|by rewrite Hc1]].
  unfold to_numeric. rewrite !map_map.
  erewrite bind_ok; [|apply (setitem_run _ _ s1); apply lookup_new].
  rewrite insert_app_r_alt, Nat.sub_diag by done. simpl.
  set (s2 := with_column _ _ s1).
  assert (columns s2 = columns d) as Hc2.
  { subst s2. unfold with_column. simpl. by rewrite Hc1, bool_decide_true. }
  assert (rows s2 = rated_rows str_to_float shelf d) as Hr2.
  { subst s2. unfold with_column, rated_rows. simpl. by rewrite Hr1. }
  erewrite bind_ok;
    [|apply (sort_values_run _ _ _ s2); [apply lookup_new|by rewrite Hc2]].
  rewrite Hr2, Hc2.
  change (map (fun r => cell_float (cell_of "My Rating" r)) (rated_rows str_to_float shelf d))
    with (map rating_of (rated_rows str_to_float shelf d)).
  rewrite rated_rows_ratings.
  erewrite bind_ok; [|apply head_run, lookup_new]. simpl.
  erewrite bind_ok; [|apply empty_run, lookup_new]. simpl.
  assert ((length (columns d) =? 0) = false) as ->.
  { destruct (columns d); [|done]. by apply not_elem_of_nil in Hm. }
  rewrite orb_false_r. fold top.
  do 2 eexists. split; [apply lookup_new|].
  by destruct (length top =? 0).
Qed.



(** X16: a missing [Title] or [Author].  On a normalized Table with
    ratings, when the top list has a record ([n > 0] and a record on the
    shelf) and [Title] or [Author] is not a column,
    [top_rated_books_on_shelf] raises [KeyError]; X15 shows that the
    same Table gives the empty list, without an error, for a shelf
    without records. *)
Theorem top_rated_books_on_shelf_missing_column h self d shelf n :
  h !! df self = Some d -> normalized d ->
  "My Rating" ∈ columns d ->
  sorts argsort (rev (dropna (shelf_ratings str_to_float shelf d))) ->
  shelf_rows shelf d <> [] -> (0 < n)%Z ->
  "Title" ∉ columns d \/ "Author" ∉ columns d ->
  exists key,
    (top_rated_books_on_shelf str_to_float argsort self shelf n h).1
    = Raise (KeyError key).
Proof.
  intros E Hn Hm Hs Hne Hpos Hc.
  assert (rows d <> []) as Hr.
  { intros Hnil. apply Hne. unfold shelf_rows. by rewrite Hnil. }
  destruct (top_rated_books_on_shelf_steps h self d shelf n E Hn Hr Hm)
    as (l & h' & E' & ->).
  set (top := head_rows n _) in *.
  assert (length top <> 0) as Hl.
  { subst top. rewrite head_rows_length.
    rewrite (Permutation_length
               (nargsort_rows (rated_rows str_to_float shelf d) _
                  (rated_rows_length shelf d) Hs)).
    unfold rated_rows. rewrite length_map.
    assert ((0 <=? n)%Z = true) as -> by (apply Z.leb_le; lia).
    destruct (shelf_rows shelf d); [done|]. simpl. lia. }
  apply Nat.eqb_neq in Hl. rewrite Hl.
  unfold getitem_columns. step (read_run _ _ _ E'). simpl.
  case_bool_decide as Ht; simpl; [|by eexists].
  case_bool_decide as Ha; simpl; [|by eexists].
  by destruct Hc.
Qed.

(** X19: a source without ratings.  On a normalized Table with rows and
    without the [My Rating] column, [reading_stats] and
    [top_rated_books_on_shelf] raise [KeyError]: no statistic is
    returned, not even the counts that need no rating, and no list, not
    even the empty one of a shelf without records. *)
Theorem queries_raise_without_ratings h self d :
  h !! df self = Some d -> normalized d ->
  "My Rating" ∉ columns d -> rows d <> [] ->
  (reading_stats str_to_float self h).1 = Raise (KeyError "My Rating")
  /\ forall shelf n,
       (top_rated_books_on_shelf str_to_float argsort self shelf n h).1
       = Raise (KeyError "My Rating").
Proof.
  intros E Hn Hc Hr. split.
  - unfold reading_stats.
    rewrite (select_run _ (on_shelfb "read") _ _ _ _ E Hn (apply_in_lowered "read")).
    set (s1 := selected (on_shelfb "read") d). set (h1 := h ++ [s1]).
    assert (h1 !! df self = Some d) as E1 by by apply lookup_old.
    rewrite (select_run _ (on_shelfb "to-read") _ _ _ _ E1 Hn
               (apply_in_lowered "to-read")).
    set (s2 := selected (on_shelfb "to-read") d). set (h2 := h1 ++ [s2]).
    assert (h2 !! length h = Some s1) as Es1 by apply lookup_old, lookup_new.
    erewrite bind_raise; [done|].
    apply (getitem_missing _ _ _ _ Es1). subst s1.
    by rewrite selected_columns_rows.
  - intros shelf n. unfold top_rated_books_on_shelf.
    step (get_shelf_books_run _ _ _ shelf E Hn).
    erewrite bind_raise; [done|].
    apply (getitem_missing _ _ (selected (on_shelfb shelf) d)); [apply lookup_new|].
    by rewrite selected_columns_rows.
Qed.

End TopRatedSize.



Lemma top_rated_books_on_shelf_missing_column_witness :
  exists key,
    (top_rated_books_on_shelf no_float stable_argsort (session untitled).1 "read" 5
       (session untitled).2).1
    = Raise (KeyError key).
Proof.
  apply (top_rated_books_on_shelf_missing_column no_float stable_argsort
           (session untitled).2 (session untitled).1
           (table_of (session untitled)) "read" 5).
  - vm_compute. reflexivity.
  - normalized_table.
  - by_decide.
  - apply stable_argsort_sorts.
  - vm_compute. discriminate.
  - reflexivity.
  - left. intros H. absent_column H.
Defined.

Lemma queries_raise_without_ratings_witness :
  (reading_stats no_float (session nyc).1 (session nyc).2).1
  = Raise (KeyError "My Rating")
  /\ forall shelf n,
       (top_rated_books_on_shelf no_float stable_argsort (session nyc).1 shelf n
          (session nyc).2).1
       = Raise (KeyError "My Rating").
Proof.
  apply (queries_raise_without_ratings no_float stable_argsort (session nyc).2
           (session nyc).1 (table_of (session nyc))).
  - vm_compute. reflexivity.
  - normalized_table.
  - intros H. absent_column H.
  - vm_compute. discriminate.
Defined.

(** ** The names that the normalizer makes *)

Module NameFacts.

Import Str StrFacts.

Lemma contains_char_app c a b :
  contains_char c (a +:+ b) = contains_char c a || contains_char c b.
Proof.
  induction a as [|x a IH]; [done|].
  rewrite app_cons. simpl. by rewrite IH, orb_assoc.
Qed.

Lemma contains_char_inside c a s b :
  contains_char c (a +:+ s +:+ b) = false -> contains_char c s = false.
Proof.
  rewrite !contains_char_app. intros H.
  apply orb_false_elim in H as [_ H]. by apply orb_false_elim in H as [H _].
Qed.

Lemma split_length sep s : length (split sep s) = S (count_char sep s).
Proof.
  induction s as [|c t IH]; [done|]. simpl.
  destruct (Ascii.eqb c sep); simpl; [by rewrite IH|].
  destruct (split sep t) eqn:E; simpl in *; lia.
Qed.

(** The first piece of [s.split(sep)] is the beginning of [s]. *)
Lemma split_head sep s p r : split sep s = p :: r -> exists b, s = p +:+ b.
Proof.
  revert p r. induction s as [|c s IH]; intros p r; simpl.
  - intros [= <- <-]. by exists "".
  - destruct (Ascii.eqb c sep).
    + intros [= <- <-]. by exists (String c s).
    + destruct (split sep s) as [|p' r'] eqn:E.
      * by destruct (split_nonempty sep s).
      * intros [= <- <-]. destruct (IH p' r' eq_refl) as [b ->]. by exists b.
Qed.

(** Every piece of [s.split(sep)] is a part of [s]. *)
Lemma split_inside sep s t :
  In t (split sep s) -> exists a b, s = a +:+ t +:+ b.
Proof.
  revert t. induction s as [|c s IH]; intros t; simpl.
  - intros [<-|[]]. by exists "", "".
  - destruct (Ascii.eqb c sep).
    + intros [<-|Hin].
      * by exists "", (String c s).
      * destruct (IH t Hin) as (a & b & ->). by exists (String c a), b.
    + destruct (split sep s) as [|p r] eqn:E.
      * by destruct (split_nonempty sep s).
      * intros [<-|Hin].
        -- destruct (split_head _ _ _ _ E) as [b ->]. by exists "", b.
        -- destruct (IH t (or_intror Hin)) as (a & b & ->).
           by exists (String c a), b.
Qed.

Lemma has_marker_app_r s b : has_marker s = true -> has_marker (s +:+ b) = true.
Proof.
  induction s as [|c t IH]; [done|].
  intros H. rewrite has_marker_step in H. rewrite app_cons, has_marker_step.
  destruct (match_marker (String c t)) eqn:E.
  - rewrite <- app_cons, (match_marker_app _ _ b E). done.
  - rewrite (IH H). by destruct (match_marker (String c (t +:+ b))).
Qed.

Lemma has_marker_app_l a s : has_marker s = true -> has_marker (a +:+ s) = true.
Proof.
  intros H. induction a as [|c a IH]; [done|].
  rewrite app_cons, has_marker_step, IH.
  by destruct (match_marker (String c (a +:+ s))).
Qed.

Lemma has_marker_inside a s b :
  has_marker (a +:+ s +:+ b) = false -> has_marker s = false.
Proof.
  intros H. destruct (has_marker s) eqn:E; [|done].
  by rewrite (has_marker_app_l a _ (has_marker_app_r s b E)) in H.
Qed.

(** [re.sub] deletes characters and adds none. *)
Lemma sub_marker_contains c s :
  contains_char c s = false -> contains_char c (sub_marker s) = false.
Proof.
  induction s as [s IH] using length_ind. intros H.
  rewrite sub_marker_step. destruct (match_marker s) as [rest|] eqn:E.
  - apply IH; [by apply match_marker_length|].
    apply match_marker_elim in E as (ds & _ & _ & ->).
    rewrite contains_char_app in H. by apply orb_false_elim in H as [_ H].
  - destruct s as [|x t]; [done|]. simpl in *.
    apply orb_false_elim in H as [-> H]. simpl.
    apply IH; [simpl; lia|done].
Qed.

Lemma strip_clean t : contains_char "," t = false -> clean_name (strip t).
Proof.
  intros H. destruct (strip_spec t) as (l & r & Ht & _ & _ & Hs & He).
  split; [|done]. rewrite Ht in H. by apply contains_char_inside in H.
Qed.

End NameFacts.

(** X5: the names in the shelf lists.  For every raw text, each name of
    the list that line 29 makes has no comma in it and no white space at
    its ends, and a text that is not empty gives one name more than it
    has commas (so never the empty list); the list of line 35 has the
    same number of names, none with a comma. *)
Theorem normalized_names x :
  split_shelves (Str x) = Ok (Lst (normalize x))
  /\ split_positions (Str x) = Ok (Lst (normalize_positions x))
  /\ Forall clean_name (normalize x)
  /\ Forall (fun s => Str.contains_char "," s = false) (normalize_positions x)
  /\ length (normalize_positions x) = length (normalize x)
  /\ (x <> "" -> length (normalize x) = S (count_char "," x)).
Proof.
  unfold split_shelves, split_positions, normalize, normalize_positions. simpl.
  destruct (String.eqb_spec x "") as [->|Hx]; simpl.
  { repeat split; try done; constructor. }
  repeat split.
  - apply Forall_map. eapply Forall_impl; [apply StrFacts.split_no_sep|].
    intros t Ht. by apply NameFacts.strip_clean.
  - apply Forall_map. eapply Forall_impl; [apply StrFacts.split_no_sep|].
    intros t Ht. apply NameFacts.sub_marker_contains.
    by apply NameFacts.strip_clean.
  - by rewrite !length_map.
  - intros _. by rewrite length_map, NameFacts.split_length.
Qed.

(** X6: a text without position markers.  When the raw text has no
    occurrence of the marker pattern, line 35 makes of it the list that
    line 29 makes. *)
Theorem positions_agree_without_markers x :
  Str.has_marker x = false ->
  split_positions (Str x) = split_shelves (Str x)
  /\ normalize_positions x = normalize x.
Proof.
  intros H.
  assert (map strip_marker (Str.split "," x) = map Str.strip (Str.split "," x)) as Hm.
  { apply map_ext_in. intros t Ht. unfold strip_marker.
    apply StrFacts.sub_marker_no_marker.
    destruct (NameFacts.split_inside _ _ _ Ht) as (a & b & Hx).
    destruct (StrFacts.strip_spec t) as (l & r & Hs & _).
    rewrite Hx in H. apply NameFacts.has_marker_inside in H.
    rewrite Hs in H. by apply NameFacts.has_marker_inside in H. }
  unfold split_positions, split_shelves, normalize_positions, normalize.
  rewrite Hm. done.
Qed.

Lemma positions_agree_without_markers_witness :
  split_positions (Str "nyc, to-read (1)") = split_shelves (Str "nyc, to-read (1)")
  /\ normalize_positions "nyc, to-read (1)" = normalize "nyc, to-read (1)".
Proof.
  apply (positions_agree_without_markers "nyc, to-read (1)").
  vm_compute. reflexivity.
Defined.

(** ** The queries agree with each other *)





Section Agreement.

Variable str_to_float : string -> float.



End Agreement.


(** The three calls of the example driver on [library], with shelf "nyc"
    in place of "nyc-collection". *)
Example driver_library :
  (shelf_overlap_percentage (session library).1 "nyc" "read" (session library).2).1
  = Ok (1 / 2 * 100)%Q
  /\ (average_pages_on_shelf no_float (session library).1 "nyc" false
        (session library).2).1
     = Ok (Some (400 / 2)%Q,
           Pages.Stats (Some 100%Q) (Some 300%Q) (Some ((100 + 300) / 2)%Q) 2 400%Q)
  /\ (average_pages_on_shelf no_float (session library).1 "nyc" true
        (session library).2).1
     = Ok (Some (100 / 1)%Q,
           Pages.Stats (Some 100%Q) (Some 100%Q) (Some 100%Q) 1 100%Q).
Proof. repeat split; vm_compute; reflexivity. Qed.

(** ** Witnesses of the statistics on a Table with rows *)


